(* ===== verification/_CoqProject ===== *)
-Q . S2P
Prelude.v
Json.v
JsonText.v
Backoff.v
Browser.v
Manager.v
ManagerInv.v
ManagerSpec.v
Retry.v
Quiet.v
Refinement.v
Wire.v
SingleSocket.v
UIManager.v
