(* ===== verification/Prelude.v ===== *)
(** * A verification development for the webrtc-client signaling channel

    The repository is a browser client for a video-conferencing
    application.  Its two source files are

    - [src/src/WebSocketManager.js]: class [WebSocketManager], the
      connection manager.  It owns one WebSocket ([this.ws]) at a time,
      queues outbound messages while the socket is not ready
      ([messageQueue], [send], [flushMessageQueue]), dispatches inbound
      messages by their [type] field to handlers registered with
      [onMessage], sends a keep-alive ping every 20 s while open
      ([startHeartbeat], [stopHeartbeat]) and reconnects after a close
      with exponential backoff ([scheduleReconnect]).  The socket's four
      event handlers ([onopen], [onmessage], [onclose], [onerror]) are
      closures installed by [connect] and refer to the manager through
      [this], so an event of an old socket acts on the current state.
    - [src/src/UIManager.js]: the presentation layer (video elements, the
      mute button, the participant list); it only touches the DOM.

    ** Layout of the development

    The files, in dependency order ([_CoqProject]):

    - [Prelude] (this file): the JavaScript completion monad [js S A]
      (state that survives a thrown exception, as in JavaScript), its
      notations in [js_scope], [js_iter] for [for ... of] loops, the
      invariant judgement [preserves] with its composition lemmas in the
      hint database [js_inv], and the tactic [preserves_by].
    - [Json]: JSON values ([Json]), the property read [message.type]
      ([get_prop]), the [Map] key it selects ([handler_key]), the ping
      envelope ([ping_msg]), and the interface [JsonCodec] (the class of
      what the manager needs of [JSON.stringify]/[JSON.parse]: a round-trip
      law).  The manager is proved against the interface; [frame_codec]
      (a frame is a JSON text or malformed text) instantiates it for the
      concrete runs.
    - [JsonText]: [JSON.stringify] and [JSON.parse] on strings, modelled
      from ECMA-262 and RFC 8259 (built into the browser, not code of the
      repository): the printer [stringify_text] (escapes, integers,
      arrays, objects) and the recursive-descent parser [parse_text] with
      fuel; its round trip [rt_text], which makes it the instance
      [text_codec] of [JsonCodec].  The fuel, one more than
      the length of the text, is enough: every value needs at most its
      [jsize] and [jsize_le] bounds that by the printed length.
    - [Backoff]: [reconnect_delay], the delay of [scheduleReconnect], on
      [Z]; its bounds (C14), its doubling and monotonicity, and its
      equivalence with the schedule of the specification's table (C15).
    - [Browser]: the environment, modelled from the WHATWG WebSocket and
      HTML timer standards (it is not code of the repository): a store of
      sockets with their [readyState], the shared map of active timers with
      positive ids, the clock, and the observable [trace].  Its primitives
      ([ws_new], [ws_send], [ws_close], [set_timeout], [set_interval],
      [clear_timer], [emit]) are the calls the manager makes; [env_open],
      [env_closing], [env_closed], [env_wait], [env_due] are the moves of
      the network and the clock.
    - [Manager]: the class [WebSocketManager]: its fields as the record
      [Mgr]; each method and each closure [connect] installs as a
      computation over the [world] (manager and runtime): [connect],
      [send], [onMessage], [flush_loop]/[flushMessageQueue],
      [startHeartbeat], [stopHeartbeat], [heartbeat_tick],
      [scheduleReconnect], [reconnect_fire], [onopen], [onmessage],
      [onclose], [onerror].  The event loop is the executable [step_fn]
      over [event]s (presentation-layer calls, socket open/closing/close
      with or without error, inbound frame, timer expiry, time passing);
      [step], [reachable] and [run_events] are built on it.  An exception
      escaping a handler ends that task only and is reported ([task]).
    - [ManagerInv]: the invariant [inv] of every reachable world
      ([reachable_inv], by induction on [rtc step]): timer ids positive and
      fresh, timers never overdue, each timer's kind fixed by its callback,
      the heartbeat and reconnect timers exactly those recorded in their
      fields ([tracks]), a heartbeat only while [isReady], a non-negative
      attempt counter, [this.ws] in the store.  Operations that leave the
      timers alone are handled once by [keeps] and the [js_inv] hints;
      the timer operations by functional lemmas ([stopHeartbeat_run],
      [startHeartbeat_run], [scheduleReconnect_run]).  Claims C3, C4, C7,
      C18.  [step_lift] turns a property of the handlers into a
      property of the event loop, for every property that only reads the
      manager and the trace ([handlers_keep] lists what each event asks);
      [Wire] and [Quiet] use it.
    - [ManagerSpec]: functional behaviour on every branch: [send] ready or
      not, the FIFO drain of [flushMessageQueue] ([flush_loop_open]) and
      its fuel (C8), [onopen] (C1, C19), [onclose] and backoff (C5, C6),
      inbound dispatch and its error paths (C9-C11), the liveness of the
      reconnection and of the keep-alive (C34, C35), and the behaviours
      that depart from the specification (C19, C20, C22).
    - [Retry]: the reconnection cycle under repeated failure, from the
      step lemmas [reconnect_step] and [close_arms] of [ManagerSpec]: the
      manager retries for ever, the k-th pending timeout being due the
      sum [retry_wait] of the k backoff delays after the first (C16), and
      the messages sent during an outage reach the next socket after the
      ready callback's, once each and in order (C17).
    - [Quiet]: while the manager is not ready and no socket opens,
      nothing is written to any socket and [isReady] stays false, over
      any run of the other events (C23), by the world property [quiet]
      framed through the handlers.
    - [Refinement]: the specification's outbound contract as an abstract
      FIFO channel [chan], the abstraction [abs] of a world, and the
      simulation theorem [outbound_refines] (C2); the abstract operations
      as data and the simulation over whole runs of sends, inbound
      frames, opens, closes, heartbeats and waits ([outbound_refines_run],
      C30), and the
      FIFO, no-loss, no-duplication property derived from it
      ([outbound_fifo], C31).
    - [Wire]: the invariant [wire_ok] of the trace: every frame written
      or discarded is [JSON.stringify] of a message (C12), proved for
      each handler with the [js_inv] hints and lifted by [step_lift].
    - [SingleSocket]: the specification's "at most one live transport"
      under the discipline it asks of callers ([disciplined]: [connect]
      only with [this.ws] [null] or [CLOSED] and no reconnection pending;
      handlers and ready callback that only send): the invariant [sinv]
      of every world reached by disciplined steps, proved per event with
      the frame [sframe] of the fields it reads (C32); [connect] with a
      live socket keeps it live beside the new one (C21), and the run
      that shows the pending-reconnection condition is needed (C33).
    - [UIManager]: the module [UIManager.js] as the record [ui] (its
      three module variables and its three DOM elements, a missing one
      being [None]); each exported function as a computation of the same
      monad ([createVideoElement], [removeVideoElement],
      [setLocalStream], [toggleMute], [addParticipant],
      [removeParticipant], [updateParticipantsUI]); the page's calls and
      the button click as [ui_event]s run by [ui_step]/[ui_run].  The
      [Set] of participants is a duplicate-free list in insertion order,
      always rendered as its 8-character prefixes (C24), and
      equivalent to the abstract finite set [gset] changed by the same
      additions and deletions (C13); add and remove are inverse (C25); [toggleMute] keeps flag, track and label
      in step (C26) but [setLocalStream] does not reset the flag (C27);
      duplicate video elements survive a removal (C28); a page without a
      grid makes [createVideoElement] throw (C29).  The presentation layer
      and the manager share no state: the application wires them.

    ** Choices

    JavaScript numbers are [Z]: the only arithmetic is the backoff delay,
    [Math.min(1000 * Math.pow(2, n), 15000)], equal on doubles to the
    exact value for every non-negative [n] (the power is exact up to
    [2^1023] and [Infinity] beyond, both capped by the [min]), and the
    attempt counter, which C18 shows is never negative.  The [while] loop
    of [flushMessageQueue] is [flush_loop] with fuel equal to the queue
    length at entry: C8 shows that, while [isReady] holds (the only case
    in which the code runs it), more fuel changes nothing, so the loop
    terminates within that many iterations.  Timer ids start at 1 as in
    browsers, so the code's [if (this.heartbeatInterval)] and
    [if (this.reconnectTimeout)] tests mean "an id is recorded" ([tracks_truthy]).
    The HTML timer steps clamp a timeout to 4 ms when the timer nesting
    level exceeds 5; the manager's timeouts are at least 1000 ms and no
    timer callback creates a timer ([callback_arms_no_timer]), so the
    clamp never applies and is left out of [Browser].
    Handlers given to [onMessage] and the [onOpen] callback are
    application code outside the repository; they are modelled by the
    manager calls they make ([action]).

    ** Not modelled, and the plan for later versions

    The JSON texts are Rocq strings of bytes where JavaScript has UTF-16
    code units, and numbers are integers: escapes above [\u00ff] and
    numbers with a fraction or an exponent are outside the model (the
    manager only sends integer timestamps; other messages come from the
    application).  The source files are fully modelled apart from their
    comments; what remains outside is the browser itself (modelled from
    its standards in [Browser] and [JsonText]).  Of the WebSocket
    constructor, the [SyntaxError] it throws on a URL that is not a
    [ws:]/[wss:] URL is not modelled: the URL is fixed at construction, so
    either every [connect()] throws at once or none does, and a URL
    parser is outside the scope of this development; [bufferedAmount],
    binary frames and close codes are not read by the code.  Console messages that report no
    condition named by the specification are not part of the trace, and
    [console.log] in [toggleMute] is not modelled.  [String.substring]
    counts UTF-16 units and [substring] of Rocq bytes: they agree on the
    ASCII ids the signaling server hands out.  [removeVideoElement]
    searches the grid only: the video elements live nowhere else. *)

From stdpp Require Import base list.
From Stdlib Require Import ZArith Lia.

(** ** Exceptions and completions *)

(** The exceptions the modelled code can raise: [JSON.parse] on a
    malformed frame, a property read on [null], and [WebSocket.send] on a
    socket that is still connecting. *)
Inductive js_error :=
| SyntaxError
| TypeError
| InvalidStateError.

(** The completion of a JavaScript computation. *)
Inductive outcome (A : Type) :=
| Normal (a : A)
| Thrown (e : js_error).
Arguments Normal {A} a.
Arguments Thrown {A} e.

(** A computation over a state [S]: the state it leaves is kept when it
    throws, as mutations done before a [throw] persist in JavaScript. *)
Definition js (S A : Type) : Type := S -> outcome A * S.

Definition js_ret {S A} (a : A) : js S A := fun s => (Normal a, s).

Definition js_bind {S A B} (c : js S A) (k : A -> js S B) : js S B :=
  fun s =>
    match c s with
    | (Normal a, s') => k a s'
    | (Thrown e, s') => (Thrown e, s')
    end.

Definition js_throw {S A} (e : js_error) : js S A := fun s => (Thrown e, s).

Definition js_get {S} : js S S := fun s => (Normal s, s).

Definition js_gets {S A} (f : S -> A) : js S A := fun s => (Normal (f s), s).

Definition js_modify {S} (f : S -> S) : js S unit := fun s => (Normal tt, f s).

(** [try { c } catch (e) { h(e) }] *)
Definition js_catch {S A} (c : js S A) (h : js_error -> js S A) : js S A :=
  fun s =>
    match c s with
    | (Normal a, s') => (Normal a, s')
    | (Thrown e, s') => h e s'
    end.

Declare Scope js_scope.
Delimit Scope js_scope with js.
Notation "x <- c1 ;; c2" := (js_bind c1 (fun x => c2))
  (at level 100, c1 at next level, right associativity) : js_scope.
Notation "c1 ;; c2" := (js_bind c1 (fun _ => c2))
  (at level 100, right associativity) : js_scope.
Local Open Scope js_scope.

(** [for (const x of l) f(x)], stopping at the first exception. *)
Fixpoint js_iter {S A} (f : A -> js S unit) (l : list A) : js S unit :=
  match l with
  | [] => js_ret tt
  | x :: l' => f x ;; js_iter f l'
  end.

(** The state left by a computation, whatever its completion. *)
Definition final {S A} (c : js S A) (s : S) : S := snd (c s).

(** ** Invariants of computations *)

(** [c] preserves [I]: from a state satisfying [I], the state it leaves
    satisfies [I], whether it returns or throws. *)
Definition preserves {S A} (I : S -> Prop) (c : js S A) : Prop :=
  forall s, I s -> I (final c s).

Section Preserves.
Context {S : Type} (I : S -> Prop).

Lemma preserves_ret {A} (a : A) : preserves I (js_ret a).
Proof. intros s Hs. exact Hs. Qed.

Lemma preserves_throw {A} e : preserves I (@js_throw S A e).
Proof. intros s Hs. exact Hs. Qed.

Lemma preserves_gets {A} (f : S -> A) : preserves I (js_gets f).
Proof. intros s Hs. exact Hs. Qed.

Lemma preserves_bind {A B} (c : js S A) (k : A -> js S B) :
  preserves I c -> (forall a, preserves I (k a)) -> preserves I (js_bind c k).
Proof.
  intros Hc Hk s Hs. specialize (Hc s Hs). unfold final, js_bind in *.
  destruct (c s) as [[a|e] s']; simpl in *; [apply Hk|]; exact Hc.
Qed.

(** A continuation may use the value read by [js_gets] together with
    the invariant of the state it was read from. *)
Lemma preserves_gets_bind {A B} (f : S -> A) (k : A -> js S B) :
  (forall s, I s -> I (final (k (f s)) s)) -> preserves I (js_bind (js_gets f) k).
Proof. intros Hk s Hs. exact (Hk s Hs). Qed.

(** A read whose value the invariant fixes. *)
Lemma preserves_gets_const {A B} (f : S -> A) (a : A) (k : A -> js S B) :
  (forall s, I s -> f s = a) -> preserves I (k a) -> preserves I (js_bind (js_gets f) k).
Proof. intros Hf Hk s Hs. change (I (final (k (f s)) s)). rewrite (Hf s Hs). exact (Hk s Hs). Qed.

(** A first step that establishes a stronger invariant [J], kept by
    the rest of the computation. *)
Lemma preserves_bind_strengthen (J : S -> Prop) {A B} (c : js S A) (k : A -> js S B) :
  (forall s, I s -> J (final c s)) -> (forall a, preserves J (k a)) ->
  (forall s, J s -> I s) -> preserves I (js_bind c k).
Proof.
  intros Hc Hk HJ s Hs. specialize (Hc s Hs). unfold final, js_bind in *.
  destruct (c s) as [[a|e] s']; simpl in *; [apply HJ, Hk|apply HJ]; exact Hc.
Qed.

Lemma preserves_catch {A} (c : js S A) (h : js_error -> js S A) :
  preserves I c -> (forall e, preserves I (h e)) -> preserves I (js_catch c h).
Proof.
  intros Hc Hh s Hs. specialize (Hc s Hs). unfold final, js_catch in *.
  destruct (c s) as [[a|e] s']; simpl in *; [|apply Hh]; exact Hc.
Qed.

Lemma preserves_iter {A} (f : A -> js S unit) (l : list A) :
  (forall x, preserves I (f x)) -> preserves I (js_iter f l).
Proof.
  intros Hf. induction l as [|x l IH]; simpl.
  - apply preserves_ret.
  - apply preserves_bind; [apply Hf | intros; exact IH].
Qed.

Lemma preserves_modify (f : S -> S) :
  (forall s, I s -> I (f s)) -> preserves I (js_modify f).
Proof. intros Hf s Hs. exact (Hf s Hs). Qed.

Lemma preserves_if {A} (b : bool) (c1 c2 : js S A) :
  preserves I c1 -> preserves I c2 -> preserves I (if b then c1 else c2).
Proof. destruct b; auto. Qed.

Lemma preserves_option {A B} (o : option A) (c1 : A -> js S B) (c2 : js S B) :
  (forall a, preserves I (c1 a)) -> preserves I c2 ->
  preserves I (match o with Some a => c1 a | None => c2 end).
Proof. destruct o; auto. Qed.
Lemma preserves_outcome {A B} (o : outcome A) (c1 : A -> js S B) (c2 : js_error -> js S B) :
  (forall a, preserves I (c1 a)) -> (forall e, preserves I (c2 e)) ->
  preserves I (match o with Normal a => c1 a | Thrown e => c2 e end).
Proof. destruct o; auto. Qed.
Lemma preserves_list {A B} (l : list A) (c1 : js S B) (c2 : A -> list A -> js S B) :
  preserves I c1 -> (forall x l', preserves I (c2 x l')) ->
  preserves I (match l with [] => c1 | x :: l' => c2 x l' end).
Proof. destruct l; auto. Qed.
End Preserves.

Create HintDb js_inv.
#[export] Hint Resolve preserves_ret preserves_throw preserves_gets
  preserves_bind preserves_catch preserves_iter preserves_if
  preserves_option : js_inv.

(** [preserves_by] decomposes a computation built from the monad's
    combinators and leaves the primitive steps to the component lemmas
    registered in [js_inv]. *)
Ltac preserves_by :=
  repeat (first
    [ solve [eauto with js_inv]
    | apply preserves_bind; [|intro]
    | apply preserves_catch; [|intro]
    | apply preserves_iter; intro
    | apply preserves_if
    | apply preserves_option; [intro|]
    | apply preserves_outcome; intro
    | apply preserves_list; [|intros ??]
    | apply preserves_ret
    | apply preserves_throw
    | apply preserves_gets ]).

(** ** Running computations *)

Lemma js_bind_normal {S A B} (c : js S A) (k : A -> js S B) s a s' :
  c s = (Normal a, s') -> js_bind c k s = k a s'.
Proof. intros H. unfold js_bind. rewrite H. reflexivity. Qed.

Lemma js_bind_thrown {S A B} (c : js S A) (k : A -> js S B) s e s' :
  c s = (Thrown e, s') -> js_bind c k s = (Thrown e, s').
Proof. intros H. unfold js_bind. rewrite H. reflexivity. Qed.

Lemma js_bind_ret {S A B} (a : A) (k : A -> js S B) s : js_bind (js_ret a) k s = k a s.
Proof. reflexivity. Qed.

Lemma js_iter_app {S A} (f : A -> js S unit) (l1 l2 : list A) s :
  js_iter f (l1 ++ l2) s = js_bind (js_iter f l1) (fun _ => js_iter f l2) s.
Proof.
  revert s. induction l1 as [|x l1 IH]; intros s; simpl.
  - reflexivity.
  - unfold js_bind. destruct (f x s) as [[[]|e] s']; [|reflexivity].
    apply IH.
Qed.

(** Unfold the combinators of the monad in the goal. *)
Ltac js_unfold :=
  unfold final, js_bind, js_ret, js_gets, js_modify, js_throw, js_catch, js_get in *.
