(* ===== verification/Json.v ===== *)
(** * JSON values and the codec interface

    Messages are plain JavaScript objects built by the application or by
    [JSON.parse].  This file holds their data type [Json], the property
    read [message.type] of [WebSocketManager.js:37] ([get_prop]), the
    heartbeat envelope built at [WebSocketManager.js:95] ([ping_msg]), and
    the class [JsonCodec] stating what the manager relies on of
    [JSON.stringify] and [JSON.parse]: a total encoder, a partial decoder
    and the round-trip law.  [frame_codec] is an instance in which a frame
    is either the text of a JSON value or malformed text. *)

From stdpp Require Import base list strings.
From Stdlib Require Import ZArith.
From S2P Require Import Prelude.

#[local] Set Warnings "-register-all".

(** JSON values.  Numbers are the integers the code produces
    ([Date.now()] timestamps); objects keep their members in order and
    may repeat a key, as the text given to [JSON.parse] may. *)
Inductive Json :=
| JNull
| JBool (b : bool)
| JNum (n : Z)
| JStr (s : string)
| JArr (items : list Json)
| JObj (members : list (string * Json)).

(** The value of the last member named [k]: [JSON.parse] keeps the last
    of repeated keys. *)
Fixpoint assoc_last (k : string) (ms : list (string * Json)) : option Json :=
  match ms with
  | [] => None
  | (k', v) :: ms' =>
      match assoc_last k ms' with
      | Some v' => Some v'
      | None => if String.eqb k k' then Some v else None
      end
  end.

(** [v.k] for a JSON value [v]: [None] is [undefined]; reading a property
    of [null] throws a [TypeError]; primitives, arrays and objects without
    the member give [undefined]. *)
Definition get_prop (k : string) (v : Json) : outcome (option Json) :=
  match v with
  | JNull => Thrown TypeError
  | JObj ms => Normal (assoc_last k ms)
  | _ => Normal None
  end.

(** The key under which [messageHandlers.has]/[get] find a value read
    from [message.type]: the handler table is keyed by the strings given
    to [onMessage], and a [Map] only matches a string key with the same
    string (SameValueZero). *)
Definition handler_key (ty : option Json) : option string :=
  match ty with
  | Some (JStr s) => Some s
  | _ => None
  end.

(** [{ type: '__ping__', ts: Date.now() }] *)
Definition ping_msg (ts : Z) : Json :=
  JObj [("type", JStr "__ping__"); ("ts", JNum ts)].

(** What the manager needs of [JSON.stringify] and [JSON.parse] on the
    frames [W] a socket carries. *)
Class JsonCodec (W : Type) := {
  stringify : Json -> W;
  parse : W -> option Json;
  parse_stringify : forall j, parse (stringify j) = Some j
}.

(** A frame as received from the network: the text of a JSON value, or
    text that [JSON.parse] rejects. *)
Inductive frame :=
| FText (j : Json)
| FMalformed (raw : string).

#[export] Instance frame_codec : JsonCodec frame := {
  stringify := FText;
  parse f := match f with FText j => Some j | FMalformed _ => None end;
  parse_stringify j := eq_refl
}.

(** ** Properties *)

Lemma assoc_last_app k ms1 ms2 v :
  assoc_last k ms2 = Some v -> assoc_last k (ms1 ++ ms2) = Some v.
Proof.
  intros H. induction ms1 as [|[k' v'] ms1 IH]; simpl; [exact H|].
  rewrite IH. reflexivity.
Qed.

Lemma ping_msg_type ts : get_prop "type" (ping_msg ts) = Normal (Some (JStr "__ping__")).
Proof. reflexivity. Qed.

Lemma get_prop_null k : get_prop k JNull = Thrown TypeError.
Proof. reflexivity. Qed.
