(* ===== verification/JsonText.v ===== *)
(** * JSON text: [JSON.stringify] and [JSON.parse]

    The manager writes [JSON.stringify(message)] to the socket
    ([WebSocketManager.js:61, 95]) and reads [JSON.parse(event.data)]
    ([WebSocketManager.js:36]).  Both are built into the browser; this
    file models them from ECMA-262 (sections on [JSON.stringify] and
    [JSON.parse]) and RFC 8259 on the strings a socket carries:

    - [stringify_text] prints without whitespace, object members in
      order, numbers in shortest decimal form, strings with the quote
      and the backslash escaped, the short escapes (b, t, n, f, r) and
      the four-digit hex escapes (lower case) for the other control
      characters, and every other character as is;
    - [parse_text] accepts whitespace between tokens, the literals, the
      integers of the grammar (no leading zero, an optional minus), the
      string escapes of the grammar and nested arrays and objects, and
      rejects any trailing text.

    A Rocq [string] is a sequence of bytes where JavaScript has UTF-16
    code units: hex escapes above 255 and numbers with a
    fraction or an exponent are outside [Json] and parse to [None].
    [parse_text] keeps repeated keys in order, which [get_prop] reads
    last-wins as [JSON.parse]'s object does.

    [text_codec] makes the text form an instance of [JsonCodec], so the
    manager's theorems hold for text frames too; its law, the round trip
    [rt_text], is a fact of the browser, not of the repository, and is
    not a claim of this development.  The proof is the round trip of
    [p_value] on the
    printed value followed by any text that may follow a value
    ([rt_all], by the nested induction [Json_ind']), with fuel at least
    [jsize], which [jsize_le] bounds by the printed length. *)

From stdpp Require Import base list strings.
From Stdlib Require Import ZArith Ascii String DecimalString DecimalZ DecimalPos.
From S2P Require Import Prelude Json.

#[local] Set Warnings "-register-all".
Local Open Scope char_scope.

Local Infix "+++" := String.append (right associativity, at level 60).
(** Concatenation computes on a known first argument, as in the
    Standard Library (stdpp makes it opaque to [simpl]). *)
#[local] Arguments String.append s1 s2 : simpl nomatch.

(** ** Characters *)

Definition quote : ascii := ascii_of_nat 34.
Definition bslash : ascii := "\".

Definition is_ws (c : ascii) : bool :=
  Ascii.eqb c " " || Ascii.eqb c "009" || Ascii.eqb c "010" || Ascii.eqb c "013".

Definition is_digit (c : ascii) : bool :=
  Nat.leb 48 (nat_of_ascii c) && Nat.leb (nat_of_ascii c) 57.

Fixpoint skip_ws (s : string) : string :=
  match s with
  | String c s' => if is_ws c then skip_ws s' else s
  | EmptyString => EmptyString
  end.

(** [s] starts with [lit]; the rest. *)
Fixpoint expect (lit s : string) : option string :=
  match lit, s with
  | EmptyString, _ => Some s
  | String a lit', String b s' => if Ascii.eqb a b then expect lit' s' else None
  | _, _ => None
  end.

(** ** Numbers *)

(** The decimal digits at the head of [s], as a [Decimal.uint]. *)
Fixpoint p_uint (s : string) : Decimal.uint * string :=
  match s with
  | String c s' =>
      if is_digit c then
        let (u, r) := p_uint s' in
        (match DecimalString.uint_of_char c (Some u) with Some u' => u' | None => u end, r)
      else (Decimal.Nil, s)
  | EmptyString => (Decimal.Nil, EmptyString)
  end.

(** A fraction or an exponent follows. *)
Definition frac_next (s : string) : bool :=
  match s with
  | String c _ => Ascii.eqb c "." || Ascii.eqb c "e" || Ascii.eqb c "E"
  | EmptyString => false
  end.

#[export] Instance uint_eq_dec : EqDecision Decimal.uint.
Proof. solve_decision. Defined.

(** An integer of the grammar: at least one digit, no leading zero
    ([unorm] leaves the digits alone), no fraction or exponent. *)
Definition p_int (neg : bool) (s : string) : option (Z * string) :=
  let (u, r) := p_uint s in
  if decide (Decimal.unorm u = u) then
    if frac_next r then None
    else Some (Z.of_int (if neg then Decimal.Neg u else Decimal.Pos u), r)
  else None.

Definition print_Z (z : Z) : string := DecimalString.NilEmpty.string_of_int (Z.to_int z).

(** ** Strings *)

Definition hex_digit (n : nat) : ascii :=
  if Nat.ltb n 10 then ascii_of_nat (48 + n) else ascii_of_nat (87 + n).

Definition hex_val (c : ascii) : option nat :=
  let n := nat_of_ascii c in
  if Nat.leb 48 n && Nat.leb n 57 then Some (n - 48)
  else if Nat.leb 97 n && Nat.leb n 102 then Some (n - 87)
  else if Nat.leb 65 n && Nat.leb n 70 then Some (n - 55)
  else None.

(** The byte a four-digit hex escape denotes, when it is one. *)
Definition hex4 (a b c d : ascii) : option ascii :=
  match hex_val a, hex_val b, hex_val c, hex_val d with
  | Some x, Some y, Some z, Some t =>
      let n := 4096 * x + 256 * y + 16 * z + t in
      if Nat.ltb n 256 then Some (ascii_of_nat n) else None
  | _, _, _, _ => None
  end.

(** [JSON.stringify]'s escape of one character (QuoteJSONString). *)
Definition escape_char (c : ascii) : string :=
  let n := nat_of_ascii c in
  if Ascii.eqb c quote then String bslash (String quote EmptyString)
  else if Ascii.eqb c bslash then String bslash (String bslash EmptyString)
  else if Nat.eqb n 8 then String bslash (String "b" EmptyString)
  else if Nat.eqb n 9 then String bslash (String "t" EmptyString)
  else if Nat.eqb n 10 then String bslash (String "n" EmptyString)
  else if Nat.eqb n 12 then String bslash (String "f" EmptyString)
  else if Nat.eqb n 13 then String bslash (String "r" EmptyString)
  else if Nat.ltb n 32 then
    String bslash (String "u" (String "0" (String "0"
      (String (hex_digit (n / 16)) (String (hex_digit (n mod 16)) EmptyString)))))
  else String c EmptyString.

Fixpoint escape (s : string) : string :=
  match s with
  | EmptyString => EmptyString
  | String c s' => escape_char c +++ escape s'
  end.

Definition quote_string (s : string) : string := String quote (escape s +++ String quote EmptyString).

(** The character a two-character escape denotes. *)
Definition short_escape (e : ascii) : option ascii :=
  if Ascii.eqb e quote then Some quote
  else if Ascii.eqb e bslash then Some bslash
  else if Ascii.eqb e "/" then Some "/"
  else if Ascii.eqb e "b" then Some "008"
  else if Ascii.eqb e "t" then Some "009"
  else if Ascii.eqb e "n" then Some "010"
  else if Ascii.eqb e "f" then Some "012"
  else if Ascii.eqb e "r" then Some "013"
  else None.

Definition cons_char (c : ascii) (o : option (string * string)) : option (string * string) :=
  match o with Some (s, r) => Some (String c s, r) | None => None end.

(** The body of a string literal after its opening quote, up to and
    without the closing quote; the rest after it. *)
Fixpoint p_string (s : string) : option (string * string) :=
  match s with
  | EmptyString => None
  | String c r =>
      if Ascii.eqb c quote then Some (EmptyString, r)
      else if Ascii.eqb c bslash then
        match r with
        | String e r' =>
            if Ascii.eqb e "u" then
              match r' with
              | String a (String b (String d (String f r''))) =>
                  match hex4 a b d f with Some c' => cons_char c' (p_string r'') | None => None end
              | _ => None
              end
            else match short_escape e with Some c' => cons_char c' (p_string r') | None => None end
        | EmptyString => None
        end
      else if Nat.ltb (nat_of_ascii c) 32 then None
      else cons_char c (p_string r)
  end.

(** ** Values *)

(** The items of an array or the members of an object, comma-separated. *)
Fixpoint sep_by (ss : list string) : string :=
  match ss with
  | [] => EmptyString
  | s :: ss' => s +++ match ss' with [] => EmptyString | _ => String "," (sep_by ss') end
  end.

(** [JSON.stringify(v)] (SerializeJSONProperty, without [replacer],
    [space] or [toJSON]). *)
Fixpoint stringify_text (v : Json) : string :=
  match v with
  | JNull => "null"%string
  | JBool true => "true"%string
  | JBool false => "false"%string
  | JNum z => print_Z z
  | JStr s => quote_string s
  | JArr l => String "[" (sep_by (map stringify_text l) +++ String "]" EmptyString)
  | JObj ms =>
      String "{" (sep_by (map (fun kv => quote_string kv.1 +++ String ":" (stringify_text kv.2)) ms)
                  +++ String "}" EmptyString)
  end.

(** The JSON text grammar by recursive descent; [fuel] bounds the nesting
    and the number of items. *)
Fixpoint p_value (fuel : nat) (s : string) {struct fuel} : option (Json * string) :=
  match fuel with
  | O => None
  | S f =>
      match skip_ws s with
      | EmptyString => None
      | String c r =>
          if Ascii.eqb c "n" then option_map (pair JNull) (expect "ull"%string r)
          else if Ascii.eqb c "t" then option_map (pair (JBool true)) (expect "rue"%string r)
          else if Ascii.eqb c "f" then option_map (pair (JBool false)) (expect "alse"%string r)
          else if Ascii.eqb c quote then
            match p_string r with Some (str, r') => Some (JStr str, r') | None => None end
          else if Ascii.eqb c "[" then
            match skip_ws r with
            | String c' r' => if Ascii.eqb c' "]" then Some (JArr [], r') else p_elems f [] r
            | EmptyString => None
            end
          else if Ascii.eqb c "{" then
            match skip_ws r with
            | String c' r' => if Ascii.eqb c' "}" then Some (JObj [], r') else p_members f [] r
            | EmptyString => None
            end
          else if Ascii.eqb c "-" then
            match p_int true r with Some (z, r') => Some (JNum z, r') | None => None end
          else if is_digit c then
            match p_int false (String c r) with Some (z, r') => Some (JNum z, r') | None => None end
          else None
      end
  end
with p_elems (fuel : nat) (acc : list Json) (s : string) {struct fuel} : option (Json * string) :=
  match fuel with
  | O => None
  | S f =>
      match p_value f s with
      | Some (v, r) =>
          match skip_ws r with
          | String c r' =>
              if Ascii.eqb c "," then p_elems f (acc ++ [v]) r'
              else if Ascii.eqb c "]" then Some (JArr (acc ++ [v]), r') else None
          | EmptyString => None
          end
      | None => None
      end
  end
with p_members (fuel : nat) (acc : list (string * Json)) (s : string) {struct fuel}
  : option (Json * string) :=
  match fuel with
  | O => None
  | S f =>
      match skip_ws s with
      | String c r =>
          if Ascii.eqb c quote then
            match p_string r with
            | Some (k, r1) =>
                match skip_ws r1 with
                | String c1 r2 =>
                    if Ascii.eqb c1 ":" then
                      match p_value f r2 with
                      | Some (v, r3) =>
                          match skip_ws r3 with
                          | String c3 r4 =>
                              if Ascii.eqb c3 "," then p_members f (acc ++ [(k, v)]) r4
                              else if Ascii.eqb c3 "}" then Some (JObj (acc ++ [(k, v)]), r4)
                              else None
                          | EmptyString => None
                          end
                      | None => None
                      end
                    else None
                | EmptyString => None
                end
            | None => None
            end
          else None
      | EmptyString => None
      end
  end.

(** [JSON.parse(text)]: one value, then only whitespace. *)
Definition parse_text (t : string) : option Json :=
  match p_value (S (String.length t)) t with
  | Some (v, r) => match skip_ws r with EmptyString => Some v | _ => None end
  | None => None
  end.

(** The fuel a value needs: one per nesting level and per item. *)
Fixpoint jsize (v : Json) : nat :=
  match v with
  | JArr l => S (list_sum (map (fun x => S (jsize x)) l))
  | JObj ms => S (list_sum (map (fun kv => S (jsize kv.2)) ms))
  | _ => 1
  end.

(** ** Lemmas *)

(** Induction on JSON values with the hypotheses for the items of arrays
    and objects. *)
Definition Json_ind' (P : Json -> Prop)
    (Hnull : P JNull) (Hbool : forall b, P (JBool b)) (Hnum : forall z, P (JNum z))
    (Hstr : forall s, P (JStr s))
    (Harr : forall l, Forall P l -> P (JArr l))
    (Hobj : forall ms, Forall (fun kv => P kv.2) ms -> P (JObj ms)) : forall v, P v :=
  fix F v :=
    match v with
    | JNull => Hnull
    | JBool b => Hbool b
    | JNum z => Hnum z
    | JStr s => Hstr s
    | JArr l => Harr l ((fix G (l : list Json) : Forall P l :=
                           match l with
                           | [] => List.Forall_nil _
                           | x :: l' => @List.Forall_cons _ P x l' (F x) (G l')
                           end) l)
    | JObj ms => Hobj ms ((fix G (ms : list (string * Json)) : Forall (fun kv => P kv.2) ms :=
                             match ms with
                             | [] => List.Forall_nil _
                             | kv :: ms' => @List.Forall_cons _ (fun kv => P kv.2) kv ms' (F kv.2) (G ms')
                             end) ms)
    end.

Lemma append_assoc_s (s1 s2 s3 : string) : (s1 +++ s2) +++ s3 = s1 +++ s2 +++ s3.
Proof. induction s1 as [|c s1 IH]; simpl; congruence. Qed.

Lemma append_cons c (s t : string) : String c s +++ t = String c (s +++ t).
Proof. reflexivity. Qed.

Lemma append_nil_s (s : string) : s +++ EmptyString = s.
Proof. induction s as [|c s IH]; simpl; congruence. Qed.

Lemma expect_app lit s : expect lit (lit +++ s) = Some s.
Proof. induction lit as [|c lit IH]; simpl; [done | by rewrite Ascii.eqb_refl]. Qed.

(** What may follow a value in a text: the end, whitespace, a comma, or
    the end of the enclosing array or object. *)
Definition delim (s : string) : bool :=
  match s with
  | EmptyString => true
  | String c _ => is_ws c || Ascii.eqb c "," || Ascii.eqb c "]" || Ascii.eqb c "}"
  end.

Lemma delim_no_digit s : delim s = true -> p_uint s = (Decimal.Nil, s) /\ frac_next s = false.
Proof. destruct s as [|[[][][][][][][][]] s]; simpl; try discriminate; done. Qed.

Lemma p_uint_print u rest :
  delim rest = true -> p_uint (NilEmpty.string_of_uint u +++ rest) = (u, rest).
Proof.
  intros Hd. induction u; simpl; rewrite ?IHu; [exact (proj1 (delim_no_digit _ Hd)) | done..].
Qed.

Lemma p_int_print neg u rest :
  Decimal.unorm u = u -> delim rest = true ->
  p_int neg (NilEmpty.string_of_uint u +++ rest) =
    Some (Z.of_int (if neg then Decimal.Neg u else Decimal.Pos u), rest).
Proof.
  intros Hu Hd. unfold p_int. rewrite (p_uint_print u rest Hd), decide_True by exact Hu.
  by rewrite (proj2 (delim_no_digit _ Hd)).
Qed.

(** The digits of a positive number have no leading zero. *)
Lemma pos_uint_norm p : Decimal.unorm (Pos.to_uint p) = Pos.to_uint p.
Proof. by rewrite <- DecimalPos.Unsigned.to_of, DecimalPos.Unsigned.of_to. Qed.

(** The parser's dispatch on the first character of a value. *)
Lemma p_value_digit f c r :
  is_digit c = true ->
  p_value (S f) (String c r) =
    match p_int false (String c r) with Some (z, r') => Some (JNum z, r') | None => None end.
Proof. destruct c as [[][][][][][][][]]; simpl; try discriminate; done. Qed.

Lemma p_value_minus f r :
  p_value (S f) (String "-" r) =
    match p_int true r with Some (z, r') => Some (JNum z, r') | None => None end.
Proof. reflexivity. Qed.

Lemma p_value_quote f r :
  p_value (S f) (String quote r) =
    match p_string r with Some (str, r') => Some (JStr str, r') | None => None end.
Proof. reflexivity. Qed.

Lemma p_value_arr f r :
  p_value (S f) (String "[" r) =
    match skip_ws r with
    | String c' r' => if Ascii.eqb c' "]" then Some (JArr [], r') else p_elems f [] r
    | EmptyString => None
    end.
Proof. reflexivity. Qed.

Lemma p_value_obj f r :
  p_value (S f) (String "{" r) =
    match skip_ws r with
    | String c' r' => if Ascii.eqb c' "}" then Some (JObj [], r') else p_members f [] r
    | EmptyString => None
    end.
Proof. reflexivity. Qed.

Lemma hex_val_digit k : k < 16 -> hex_val (hex_digit k) = Some k.
Proof. intros Hk. do 16 (destruct k as [|k]; [reflexivity|]). lia. Qed.

(** The hex escape of a byte reads back as that byte. *)
Lemma hex4_byte n :
  n < 256 -> hex4 "0" "0" (hex_digit (n / 16)) (hex_digit (n mod 16)) = Some (ascii_of_nat n).
Proof.
  intros Hn. unfold hex4.
  rewrite (hex_val_digit (n / 16)) by (apply Nat.Div0.div_lt_upper_bound; lia).
  rewrite (hex_val_digit (n mod 16)) by (apply Nat.mod_upper_bound; lia).
  change (hex_val "0") with (Some 0). cbv iota beta.
  replace (4096 * 0 + 256 * 0 + 16 * (n / 16) + n mod 16) with n by (rewrite (Nat.div_mod_eq n 16) at 1; lia).
  by rewrite (proj2 (Nat.ltb_lt n 256) Hn).
Qed.

(** Each escape reads back as its character. *)
Lemma p_string_escape_char c t : p_string (escape_char c +++ t) = cons_char c (p_string t).
Proof.
  unfold escape_char. set (n := nat_of_ascii c).
  assert (Hc : c = ascii_of_nat n) by (symmetry; apply ascii_nat_embedding).
  destruct (Ascii.eqb_spec c quote) as [->|Hq]; [reflexivity|].
  destruct (Ascii.eqb_spec c bslash) as [->|Hb]; [reflexivity|].
  destruct (Nat.eqb_spec n 8) as [E|]; [rewrite Hc, E; reflexivity|].
  destruct (Nat.eqb_spec n 9) as [E|]; [rewrite Hc, E; reflexivity|].
  destruct (Nat.eqb_spec n 10) as [E|]; [rewrite Hc, E; reflexivity|].
  destruct (Nat.eqb_spec n 12) as [E|]; [rewrite Hc, E; reflexivity|].
  destruct (Nat.eqb_spec n 13) as [E|]; [rewrite Hc, E; reflexivity|].
  destruct (Nat.ltb_spec n 32) as [Hlt|Hge].
  - change (match hex4 "0" "0" (hex_digit (n / 16)) (hex_digit (n mod 16)) with
            | Some c' => cons_char c' (p_string t) | None => None end = cons_char c (p_string t)).
    rewrite hex4_byte by lia. by rewrite <- Hc.
  - simpl. rewrite (proj2 (Ascii.eqb_neq c quote) Hq), (proj2 (Ascii.eqb_neq c bslash) Hb).
    fold n. by rewrite (proj2 (Nat.ltb_ge n 32) Hge).
Qed.

Lemma p_string_quote s rest : p_string (escape s +++ String quote rest) = Some (s, rest).
Proof.
  induction s as [|c s IH]; [reflexivity|]. simpl.
  by rewrite append_assoc_s, p_string_escape_char, IH.
Qed.

(** A character that may start a value in the printed text of an array
    or an object: no whitespace, no closing bracket. *)
Definition head_ok (c : ascii) : Prop :=
  is_ws c = false /\ Ascii.eqb c "]" = false /\ Ascii.eqb c "}" = false.

Lemma stringify_head v : exists c s, stringify_text v = String c s /\ head_ok c.
Proof.
  unfold head_ok.
  destruct v as [|[]|z|s|l|ms]; try (eexists _, _; split_and!; reflexivity).
  unfold stringify_text, print_Z. destruct z as [|p|p]; try (eexists _, _; split_and!; reflexivity).
  cbn [Z.to_int NilEmpty.string_of_int].
  destruct (Pos.to_uint p) eqn:E; [by destruct (DecimalPos.Unsigned.to_uint_nonnil p) |..];
    eexists _, _; split_and!; reflexivity.
Qed.

Lemma skip_ws_nows c s : is_ws c = false -> skip_ws (String c s) = String c s.
Proof. simpl. by intros ->. Qed.

Lemma p_value_uint f u rest :
  u <> Decimal.Nil ->
  p_value (S f) (NilEmpty.string_of_uint u +++ rest) =
    match p_int false (NilEmpty.string_of_uint u +++ rest) with
    | Some (z, r') => Some (JNum z, r') | None => None end.
Proof. destruct u; [done|..]; reflexivity. Qed.

Lemma p_value_num f z rest :
  delim rest = true -> p_value (S f) (print_Z z +++ rest) = Some (JNum z, rest).
Proof.
  intros Hd. rewrite <- (DecimalZ.of_to z) at 2. unfold print_Z.
  destruct z as [|p|p]; cbn [Z.to_int NilEmpty.string_of_int].
  - rewrite p_value_uint, p_int_print by done. done.
  - rewrite p_value_uint, p_int_print by (apply pos_uint_norm || exact Hd ||
      apply DecimalPos.Unsigned.to_uint_nonnil). done.
  - rewrite append_cons, p_value_minus, p_int_print by (apply pos_uint_norm || exact Hd). done.
Qed.

Lemma p_value_str f s rest :
  p_value (S f) (quote_string s +++ rest) = Some (JStr s, rest).
Proof.
  unfold quote_string. rewrite append_cons, append_assoc_s, p_value_quote.
  by rewrite append_cons, p_string_quote.
Qed.

(** The round trip of one value, printed before any text that may follow
    a value. *)
Definition rt_prop (v : Json) : Prop :=
  forall f rest, jsize v <= f -> delim rest = true ->
  p_value f (stringify_text v +++ rest) = Some (v, rest).

Lemma p_elems_print l : forall acc g rest,
  Forall rt_prop l -> l <> [] -> list_sum (map (fun x => S (jsize x)) l) <= g ->
  p_elems g acc (sep_by (map stringify_text l) +++ String "]" rest) = Some (JArr (acc ++ l), rest).
Proof.
  induction l as [|x l IH]; [done|]. intros acc g rest Hall _ Hg.
  apply Forall_cons in Hall as [Hx Hl].
  destruct g as [|g]; [simpl in Hg; lia|]. simpl in Hg.
  destruct l as [|y l'].
  - simpl. rewrite append_nil_s, Hx by (done || lia). done.
  - cbn [map sep_by]. rewrite append_assoc_s, append_cons.
    simpl. rewrite Hx by (done || lia).
    cbn [skip_ws is_ws Ascii.eqb Bool.eqb].
    replace (acc ++ x :: y :: l') with ((acc ++ [x]) ++ y :: l') by (by rewrite <- app_assoc).
    apply IH; [done | done | simpl in *; lia].
Qed.

Lemma member_text k t rest :
  (quote_string k +++ String ":" t) +++ rest =
  String quote (escape k +++ String quote (String ":" (t +++ rest))).
Proof. unfold quote_string. by rewrite !append_cons, !append_assoc_s. Qed.

Definition member_text_of (kv : string * Json) : string :=
  quote_string kv.1 +++ String ":" (stringify_text kv.2).

Lemma p_members_print ms : forall acc g rest,
  Forall (fun kv => rt_prop kv.2) ms -> ms <> [] ->
  list_sum (map (fun kv => S (jsize kv.2)) ms) <= g ->
  p_members g acc (sep_by (map member_text_of ms) +++ String "}" rest) = Some (JObj (acc ++ ms), rest).
Proof.
  induction ms as [|[k v] ms IH]; [done|]. intros acc g rest Hall _ Hg.
  apply Forall_cons in Hall as [Hx Hl]; simpl in Hx.
  destruct g as [|g]; [simpl in Hg; lia|]. simpl in Hg.
  destruct ms as [|m ms'].
  - cbn [map sep_by]. rewrite append_nil_s. unfold member_text_of; simpl fst; simpl snd.
    rewrite member_text. simpl. rewrite p_string_quote. simpl.
    rewrite Hx by (done || lia). done.
  - cbn [map sep_by]. rewrite append_assoc_s, append_cons.
    unfold member_text_of at 1; simpl fst; simpl snd.
    rewrite member_text. simpl. rewrite p_string_quote. simpl.
    rewrite Hx by (done || lia).
    cbn [skip_ws is_ws Ascii.eqb Bool.eqb].
    replace (acc ++ (k, v) :: m :: ms') with ((acc ++ [(k, v)]) ++ m :: ms')
      by (by rewrite <- app_assoc).
    apply IH; [done | done | simpl in *; lia].
Qed.

Lemma sep_by_cons2 s s' ss : sep_by (s :: s' :: ss) = s +++ String "," (sep_by (s' :: ss)).
Proof. reflexivity. Qed.

Lemma sep_by_head {A} (g : A -> string) l t :
  l <> [] -> (forall a, exists c s, g a = String c s /\ head_ok c) ->
  exists c s, sep_by (map g l) +++ t = String c s /\ head_ok c.
Proof.
  destruct l as [|a l]; [done|]. intros _ Hg. destruct (Hg a) as (c & s & E & Hc).
  exists c. destruct l; cbn [map sep_by]; rewrite E; (eexists; split; [reflexivity | exact Hc]).
Qed.

Lemma member_head kv : exists c s, member_text_of kv = String c s /\ head_ok c.
Proof. eexists _, _. split; [reflexivity | split_and!; reflexivity]. Qed.

(** The round trip of an array or an object once its opening bracket is
    read. *)
Lemma p_after_open {A} (g : A -> string) (close : ascii) (k : string -> option (Json * string))
    (empty : Json) (res : option (Json * string)) l t :
  l <> [] -> (forall a, exists c s, g a = String c s /\ head_ok c) ->
  (close = "]" \/ close = "}") ->
  k (sep_by (map g l) +++ t) = res ->
  match skip_ws (sep_by (map g l) +++ t) with
  | String c' r' => if Ascii.eqb c' close then Some (empty, r') else k (sep_by (map g l) +++ t)
  | EmptyString => None
  end = res.
Proof.
  intros Hl Hg Hclose Hk. destruct (sep_by_head g l t Hl Hg) as (c & s & E & Hws & Hb & Hb').
  rewrite E, skip_ws_nows by exact Hws. rewrite <- E.
  destruct Hclose as [-> | ->]; [rewrite Hb | rewrite Hb']; exact Hk.
Qed.

Lemma rt_all v : rt_prop v.
Proof.
  induction v as [| b | z | s | l Hl | ms Hms] using Json_ind'; intros f rest Hf Hd;
    (destruct f as [|f]; [simpl in Hf; lia|]).
  - reflexivity.
  - by destruct b.
  - by apply p_value_num.
  - apply p_value_str.
  - cbn [stringify_text]. rewrite append_cons, append_assoc_s, append_cons, p_value_arr.
    destruct l as [|x l]; [reflexivity|].
    apply (p_after_open stringify_text); [done | apply stringify_head | by left |].
    apply p_elems_print; [exact Hl | done | simpl in *; lia].
  - cbn [stringify_text]. rewrite append_cons, append_assoc_s, append_cons, p_value_obj.
    destruct ms as [|kv ms]; [reflexivity|].
    apply (p_after_open member_text_of); [done | apply member_head | by right |].
    apply p_members_print; [exact Hms | done | simpl in *; lia].
Qed.

Lemma stringify_obj ms :
  stringify_text (JObj ms) = String "{" (sep_by (map member_text_of ms) +++ String "}" EmptyString).
Proof. reflexivity. Qed.

Lemma length_app (s t : string) : String.length (s +++ t) = String.length s + String.length t.
Proof. induction s as [|c s IH]; simpl; [done | by rewrite IH]. Qed.

Lemma sep_by_length ss : list_sum (map (fun s => S (String.length s)) ss) <= S (String.length (sep_by ss)).
Proof.
  induction ss as [|s [|s' ss] IH]; [simpl; lia | simpl; rewrite length_app; simpl; lia |].
  rewrite sep_by_cons2, length_app. simpl in *. lia.
Qed.

Lemma list_sum_map_le {A} (g h : A -> nat) l :
  Forall (fun a => g a <= h a) l -> list_sum (map g l) <= list_sum (map h l).
Proof. induction 1; simpl; lia. Qed.

(** The fuel [parse_text] gives, one more than the length of the text,
    is enough for every value it reads. *)
Lemma jsize_le v : jsize v <= String.length (stringify_text v).
Proof.
  induction v as [| b | z | s | l Hl | ms Hms] using Json_ind';
    try (destruct (stringify_head (JNum z)) as (c & t & E & _); cbn [jsize]; rewrite E; simpl; lia);
    try (destruct b; simpl; lia); try (simpl; lia).
  - cbn [jsize stringify_text String.length]. rewrite length_app. simpl.
    pose proof (sep_by_length (map stringify_text l)). rewrite map_map in H.
    enough (list_sum (map (fun x => S (jsize x)) l) <=
            list_sum (map (fun x => S (String.length (stringify_text x))) l)) by lia.
    apply list_sum_map_le. eapply Forall_impl; [exact Hl | simpl; lia].
  - rewrite stringify_obj. cbn [jsize String.length]. rewrite length_app. cbn [String.length].
    pose proof (sep_by_length (map member_text_of ms)). rewrite map_map in H.
    enough (list_sum (map (fun kv => S (jsize kv.2)) ms) <=
            list_sum (map (fun kv => S (String.length (member_text_of kv))) ms)) by lia.
    apply list_sum_map_le. eapply Forall_impl; [exact Hms|]. intros [k v] Hv.
    unfold member_text_of, quote_string. simpl. rewrite !length_app. simpl in *. lia.
Qed.

(** The round trip on the text alone. *)
Lemma rt_text v : parse_text (stringify_text v) = Some v.
Proof.
  unfold parse_text. rewrite <- (append_nil_s (stringify_text v)) at 2.
  rewrite (rt_all v); [done | pose proof (jsize_le v); lia | done].
Qed.

(** The textual codec: frames are the strings a WebSocket carries. *)
#[export] Instance text_codec : JsonCodec string := {
  stringify := stringify_text;
  parse := parse_text;
  parse_stringify := rt_text
}.
