(* ===== verification/Backoff.v ===== *)
(** * The reconnect backoff of [scheduleReconnect]

    [WebSocketManager.js:114] computes the delay before the next
    reconnection as [Math.min(1000 * Math.pow(2, this.reconnectAttempts),
    15000)].  The counter is a non-negative integer (it starts at 0 and is
    only incremented or reset, see [ManagerInv]); for such [n] the double
    [Math.pow(2, n)] is the exact power up to [2^1023] and [Infinity]
    beyond, and both give 15000 after the [min], so [reconnect_delay] on
    [Z] computes the value the code does for every reachable counter. *)

From Stdlib Require Import ZArith Lia List.
Import ListNotations.
From S2P Require Import Prelude.

Local Open Scope Z_scope.

Definition backoff_base : Z := 1000.
Definition backoff_cap : Z := 15000.

Definition reconnect_delay (reconnectAttempts : Z) : Z :=
  Z.min (backoff_base * 2 ^ reconnectAttempts) backoff_cap.

(** The schedule of the specification's backoff table, in ms. *)
Definition delay_table (n : nat) : Z :=
  match n with 0%nat => 1000 | 1%nat => 2000 | 2%nat => 4000 | 3%nat => 8000 | _ => 15000 end.

(** ** Helper lemmas *)

Lemma pow2_ge_1 n : 0 <= n -> 1 <= 2 ^ n.
Proof. intros Hn. apply (Z.pow_le_mono_r 2 0 n) in Hn; simpl in *; lia. Qed.

Lemma pow2_ge_16 n : 4 <= n -> 16 <= 2 ^ n.
Proof.
  intros Hn. replace n with (4 + (n - 4)) by lia.
  rewrite Z.pow_add_r by lia. pose proof (pow2_ge_1 (n - 4)). lia.
Qed.

Lemma pow2_mono m n : 0 <= m <= n -> 2 ^ m <= 2 ^ n.
Proof. intros H. apply Z.pow_le_mono_r; lia. Qed.

Lemma reconnect_delay_pos n : 0 <= n -> Z.max 0 (reconnect_delay n) = reconnect_delay n.
Proof.
  intros Hn. pose proof (pow2_ge_1 n Hn).
  unfold reconnect_delay, backoff_base, backoff_cap. lia.
Qed.

Create HintDb backoff.
#[export] Hint Resolve pow2_ge_1 pow2_ge_16 pow2_mono : backoff.
#[export] Hint Unfold reconnect_delay backoff_base backoff_cap : backoff.

(** ** Properties *)

(** C14: for every non-negative attempt counter the delay is between
    1000 and 15000 ms. *)
Theorem reconnect_delay_bounds n :
  0 <= n -> 1000 <= reconnect_delay n <= 15000.
Proof.
  intros Hn. pose proof (pow2_ge_1 n Hn).
  unfold reconnect_delay, backoff_base, backoff_cap. lia.
Qed.

(** From the fifth attempt on (counter at least 4) the delay is the cap:
    the exponent never makes it grow past it. *)
Lemma reconnect_delay_capped n :
  4 <= n -> reconnect_delay n = 15000.
Proof.
  intros Hn. pose proof (pow2_ge_16 n Hn).
  unfold reconnect_delay, backoff_base, backoff_cap. lia.
Qed.

(** Below the cap the delay is the exact power of two. *)
Lemma reconnect_delay_uncapped n :
  0 <= n <= 3 -> reconnect_delay n = 1000 * 2 ^ n.
Proof.
  intros Hn. unfold reconnect_delay, backoff_base, backoff_cap.
  assert (2 ^ n <= 2 ^ 3) by (apply pow2_mono; lia). simpl in *. lia.
Qed.

(** C15: on every attempt counter the code can reach (a natural number)
    the delay is the schedule of the specification's table: 1, 2, 4 and
    8 s for the first four attempts, then 15 s for ever (not 16 s). *)
Theorem reconnect_delay_table (n : nat) : reconnect_delay (Z.of_nat n) = delay_table n.
Proof.
  destruct n as [|[|[|[|n]]]]; [reflexivity.. |].
  apply reconnect_delay_capped. lia.
Qed.

(** The delay never decreases as the counter grows. *)
Theorem reconnect_delay_mono m n :
  0 <= m <= n -> reconnect_delay m <= reconnect_delay n.
Proof.
  intros Hmn. pose proof (pow2_mono m n Hmn).
  unfold reconnect_delay, backoff_base, backoff_cap. lia.
Qed.

(** Each attempt doubles the previous delay, up to the cap. *)
Theorem reconnect_delay_succ n :
  0 <= n -> reconnect_delay (n + 1) = Z.min (2 * reconnect_delay n) 15000.
Proof.
  intros Hn. unfold reconnect_delay, backoff_base, backoff_cap.
  rewrite Z.pow_add_r by lia. simpl. lia.
Qed.

(** ** Witnesses *)

Lemma reconnect_delay_bounds_witness : 0 <= 2 /\ 1000 <= reconnect_delay 2 <= 15000.
Proof. split; [lia | apply reconnect_delay_bounds; lia]. Defined.
