(* ===== verification/Browser.v ===== *)
(** * The browser runtime the manager runs in

    The Transport Adapter of the specification is the browser's
    [WebSocket]; the timers are the HTML [setTimeout]/[setInterval]
    family.  Neither is code of the repository: both are modelled here
    from the WHATWG standards, as far as the manager observes them.

    - A socket is a [readyState] in the store [sockets], under the id the
      runtime allocates for [new WebSocket(url)].  [send] throws
      [InvalidStateError] while [CONNECTING], writes a frame while [OPEN]
      and silently discards the data once [CLOSING] or [CLOSED]; [close]
      moves a [CONNECTING] or [OPEN] socket to [CLOSING].
    - Timers live in one map of active timers shared by timeouts and
      intervals, with positive ids handed out in increasing order; a timer
      has a due time, a kind and a callback of type [C].
    - [trace] is what an observer sees: frames written to a socket, data
      discarded by [send], console reports, uncaught exceptions.

    The environment's own moves (a socket opening, closing, a timer
    becoming due) are partial functions [env_open], [env_closing],
    [env_closed], [env_wait], [env_due] on the runtime. *)

From stdpp Require Import base list gmap.
From Stdlib Require Import ZArith Lia.
From S2P Require Import Prelude Json.

Local Open Scope js_scope.

Inductive ready_state := CONNECTING | OPEN | CLOSING | CLOSED.

#[export] Instance ready_state_eq_dec : EqDecision ready_state.
Proof. solve_decision. Defined.

Inductive timer_kind :=
| Once
| Repeat (period : Z).

Record timer (C : Type) := mk_timer {
  t_due : Z;
  t_kind : timer_kind;
  t_cb : C
}.
Arguments mk_timer {C} t_due t_kind t_cb.
Arguments t_due {C} t.
Arguments t_kind {C} t.
Arguments t_cb {C} t.

(** Observable effects, in the order they happen. *)
Inductive effect (W : Type) :=
| ESend (sid : nat) (data : W)         (** a frame written to an open socket *)
| EDiscard (sid : nat) (data : W)      (** [send] on a closing or closed socket *)
| EUnknownType (ty : option Json)      (** [console.log('Mensaje desconocido', ...)] *)
| EPingFailed (e : js_error)           (** [console.warn('Error enviando ping', e)] *)
| EUncaught (e : js_error).            (** an exception escaping an event handler *)
Arguments ESend {W} sid data.
Arguments EDiscard {W} sid data.
Arguments EUnknownType {W} ty.
Arguments EPingFailed {W} e.
Arguments EUncaught {W} e.

Record runtime (C W : Type) := mk_rt {
  sockets : gmap nat ready_state;
  next_sock : nat;
  timers : gmap nat (timer C);
  next_timer : nat;
  now : Z;
  trace : list (effect W)
}.
Arguments mk_rt {C W} sockets next_sock timers next_timer now trace.
Arguments sockets {C W} r.
Arguments next_sock {C W} r.
Arguments timers {C W} r.
Arguments next_timer {C W} r.
Arguments now {C W} r.
Arguments trace {C W} r.

Section Runtime.
Context {C W : Type}.
Abbreviation rt := (runtime C W).

(** A fresh runtime at time [t0]: no socket, no timer, ids from 1. *)
Definition rt_init (t0 : Z) : rt := mk_rt ∅ 0 ∅ 1 t0 [].

Definition set_sockets (m : gmap nat ready_state) (r : rt) : rt :=
  mk_rt m (next_sock r) (timers r) (next_timer r) (now r) (trace r).
Definition set_timers (m : gmap nat (timer C)) (r : rt) : rt :=
  mk_rt (sockets r) (next_sock r) m (next_timer r) (now r) (trace r).
Definition set_now (t : Z) (r : rt) : rt :=
  mk_rt (sockets r) (next_sock r) (timers r) (next_timer r) t (trace r).
Definition add_trace (e : effect W) (r : rt) : rt :=
  mk_rt (sockets r) (next_sock r) (timers r) (next_timer r) (now r) (trace r ++ [e]).

(** ** Primitives the manager calls *)

Definition emit (e : effect W) : js rt unit := js_modify (add_trace e).

(** [new WebSocket(url)]: a fresh socket, [CONNECTING]. *)
Definition ws_new : js rt nat := fun r =>
  (Normal (next_sock r),
   mk_rt (<[next_sock r := CONNECTING]> (sockets r)) (S (next_sock r))
         (timers r) (next_timer r) (now r) (trace r)).

Definition ws_ready_state (sid : nat) : js rt (option ready_state) :=
  js_gets (fun r => sockets r !! sid).

(** [ws.send(data)] *)
Definition ws_send (sid : nat) (data : W) : js rt unit := fun r =>
  match sockets r !! sid with
  | Some CONNECTING => (Thrown InvalidStateError, r)
  | Some OPEN => (Normal tt, add_trace (ESend sid data) r)
  | Some _ => (Normal tt, add_trace (EDiscard sid data) r)
  | None => (Thrown TypeError, r)
  end.

(** [ws.close()]: starts the closing handshake (or fails a connection
    still being established); the [close] event comes later. *)
Definition ws_close (sid : nat) : js rt unit := fun r =>
  match sockets r !! sid with
  | Some CONNECTING | Some OPEN =>
      (Normal tt, set_sockets (<[sid := CLOSING]> (sockets r)) r)
  | Some _ => (Normal tt, r)
  | None => (Thrown TypeError, r)
  end.

(** The timer initialisation steps shared by [setTimeout] and
    [setInterval]: a negative timeout counts as 0. *)
Definition add_timer (k : timer_kind) (cb : C) (delay : Z) : js rt nat := fun r =>
  (Normal (next_timer r),
   mk_rt (sockets r) (next_sock r)
         (<[next_timer r := mk_timer (now r + Z.max 0 delay) k cb]> (timers r))
         (S (next_timer r)) (now r) (trace r)).

Definition set_timeout (cb : C) (delay : Z) : js rt nat := add_timer Once cb delay.

Definition set_interval (cb : C) (period : Z) : js rt nat :=
  add_timer (Repeat (Z.max 0 period)) cb period.

(** [clearTimeout(id)] and [clearInterval(id)] act on the same map. *)
Definition clear_timer (id : nat) : js rt unit :=
  js_modify (fun r => set_timers (delete id (timers r)) r).

Definition date_now : js rt Z := js_gets now.

(** ** Moves of the environment *)

Definition env_open (sid : nat) (r : rt) : option rt :=
  match sockets r !! sid with
  | Some CONNECTING => Some (set_sockets (<[sid := OPEN]> (sockets r)) r)
  | _ => None
  end.

(** The peer starts the closing handshake: no event is fired. *)
Definition env_closing (sid : nat) (r : rt) : option rt :=
  match sockets r !! sid with
  | Some OPEN => Some (set_sockets (<[sid := CLOSING]> (sockets r)) r)
  | _ => None
  end.

(** The connection is closed (or failed): [readyState] becomes
    [CLOSED] before the [error]/[close] events are fired. *)
Definition env_closed (sid : nat) (r : rt) : option rt :=
  match sockets r !! sid with
  | Some CLOSED | None => None
  | Some _ => Some (set_sockets (<[sid := CLOSED]> (sockets r)) r)
  end.

(** No timer is due before [t]. *)
Definition no_timer_before (t : Z) (r : rt) : bool :=
  bool_decide (map_Forall (fun _ (tm : timer C) => (t <= t_due tm)%Z) (timers r)).

(** Time passes by [d] milliseconds without reaching a timer. *)
Definition env_wait (d : Z) (r : rt) : option rt :=
  if bool_decide (0 <= d)%Z && no_timer_before (now r + d) r
  then Some (set_now (now r + d) r) else None.

(** Timer [id] is the next one due: the clock moves to its due time and
    its callback is the task to run. *)
Definition env_due (id : nat) (r : rt) : option (C * rt) :=
  match timers r !! id with
  | Some tm =>
      if bool_decide (now r <= t_due tm)%Z && no_timer_before (t_due tm) r
      then Some (t_cb tm, set_now (t_due tm) r) else None
  | None => None
  end.

(** After the callback of timer [id] ran: a timeout is removed, an
    interval still active is due again one period later. *)
Definition timer_after (id : nat) (r : rt) : rt :=
  match timers r !! id with
  | Some (mk_timer _ Once _) => set_timers (delete id (timers r)) r
  | Some (mk_timer _ (Repeat p) cb) =>
      set_timers (<[id := mk_timer (now r + p) (Repeat p) cb]> (timers r)) r
  | None => r
  end.
End Runtime.
