(* ===== verification/Manager.v ===== *)
(** * The class [WebSocketManager] ([src/src/WebSocketManager.js])

    The instance's fields are the record [Mgr]; the manager together with
    the browser runtime is the [world].  Each method is a computation of
    the completion monad over the world, written in the order of the
    source's statements: [connect], [send], [onMessage],
    [flushMessageQueue] (its [while] loop is [flush_loop]),
    [startHeartbeat], [stopHeartbeat], [scheduleReconnect], and the
    closures [connect] installs on every socket: [onopen], [onmessage],
    [onclose], [onerror], the interval callback [heartbeat_tick] and the
    timeout callback [reconnect_fire].

    The closures installed on a socket read and write [this], the single
    manager, and [this.ws], the manager's current socket, whichever
    socket fired the event: [step_fn] runs them on the world for every
    socket of the store.  An exception escaping a closure is reported
    ([EUncaught]) and ends that task only.

    Application code outside the repository (the handlers given to
    [onMessage], the [onOpen] callback) is modelled by the manager calls
    it makes ([action]). *)

From stdpp Require Import base list gmap strings.
From Stdlib Require Import ZArith Lia.
From S2P Require Import Prelude Json Backoff Browser.

Local Open Scope js_scope.

(** A call that application code makes on the manager. *)
Inductive action :=
| ASend (m : Json)
| AConnect.

(** A message handler: what it does with the decoded message. *)
Abbreviation handler := (Json -> list action).

(** The two callbacks the manager gives to the timers. *)
Inductive callback := CbHeartbeat | CbReconnect.

#[export] Instance callback_eq_dec : EqDecision callback.
Proof. solve_decision. Defined.

(** The fields set by the constructor, [WebSocketManager.js:5-15]. *)
Record Mgr := mk_mgr {
  url : string;
  ws : option nat;
  messageHandlers : gmap string handler;
  onOpen : option (list action);
  isReady : bool;
  messageQueue : list Json;
  heartbeatInterval : option nat;
  reconnectTimeout : option nat;
  reconnectAttempts : Z
}.

(** [new WebSocketManager(url)] *)
Definition new_manager (u : string) : Mgr :=
  mk_mgr u None ∅ None false [] None None 0.

Definition set_ws (s : option nat) (g : Mgr) : Mgr :=
  mk_mgr (url g) s (messageHandlers g) (onOpen g) (isReady g) (messageQueue g)
    (heartbeatInterval g) (reconnectTimeout g) (reconnectAttempts g).
Definition set_handlers (hs : gmap string handler) (g : Mgr) : Mgr :=
  mk_mgr (url g) (ws g) hs (onOpen g) (isReady g) (messageQueue g)
    (heartbeatInterval g) (reconnectTimeout g) (reconnectAttempts g).
Definition set_onOpen (cb : option (list action)) (g : Mgr) : Mgr :=
  mk_mgr (url g) (ws g) (messageHandlers g) cb (isReady g) (messageQueue g)
    (heartbeatInterval g) (reconnectTimeout g) (reconnectAttempts g).
Definition set_isReady (b : bool) (g : Mgr) : Mgr :=
  mk_mgr (url g) (ws g) (messageHandlers g) (onOpen g) b (messageQueue g)
    (heartbeatInterval g) (reconnectTimeout g) (reconnectAttempts g).
Definition set_queue (q : list Json) (g : Mgr) : Mgr :=
  mk_mgr (url g) (ws g) (messageHandlers g) (onOpen g) (isReady g) q
    (heartbeatInterval g) (reconnectTimeout g) (reconnectAttempts g).
Definition set_heartbeat (h : option nat) (g : Mgr) : Mgr :=
  mk_mgr (url g) (ws g) (messageHandlers g) (onOpen g) (isReady g) (messageQueue g)
    h (reconnectTimeout g) (reconnectAttempts g).
Definition set_reconnectTimeout (t : option nat) (g : Mgr) : Mgr :=
  mk_mgr (url g) (ws g) (messageHandlers g) (onOpen g) (isReady g) (messageQueue g)
    (heartbeatInterval g) t (reconnectAttempts g).
Definition set_attempts (n : Z) (g : Mgr) : Mgr :=
  mk_mgr (url g) (ws g) (messageHandlers g) (onOpen g) (isReady g) (messageQueue g)
    (heartbeatInterval g) (reconnectTimeout g) n.

(** JavaScript truthiness of a field holding a timer id or [null]. *)
Definition truthy (o : option nat) : bool :=
  match o with
  | Some n => negb (n =? 0)%nat
  | None => false
  end.

Section Manager.
Context {W : Type} `{!JsonCodec W}.

Record world := mk_world {
  mgr : Mgr;
  rt : runtime callback W
}.

Definition set_mgr (g : Mgr) (w : world) : world := mk_world g (rt w).
Definition set_rt (r : runtime callback W) (w : world) : world := mk_world (mgr w) r.

Definition new_world (u : string) (t0 : Z) : world :=
  mk_world (new_manager u) (rt_init t0).

(** Run a primitive of the browser on the world's runtime. *)
Definition on_rt {A} (c : js (runtime callback W) A) : js world A := fun w =>
  let (o, r') := c (rt w) in (o, set_rt r' w).

Definition mgr_gets {A} (f : Mgr -> A) : js world A := js_gets (fun w => f (mgr w)).

Definition mgr_modify (f : Mgr -> Mgr) : js world unit :=
  js_modify (fun w => set_mgr (f (mgr w)) w).

(** ** Methods *)

(** [connect()], lines 20-55: a new socket replaces [this.ws]; the four
    handlers it installs are [onopen], [onmessage], [onclose] and
    [onerror] below, which [step_fn] runs on the socket's events. *)
Definition connect : js world unit :=
  sid <- on_rt ws_new ;;
  mgr_modify (set_ws (Some sid)).

(** [send(message)], lines 60-67. *)
Definition send (m : Json) : js world unit :=
  ready <- mgr_gets isReady ;;
  if ready then
    s <- mgr_gets ws ;;
    match s with
    | Some sid => on_rt (ws_send sid (stringify m))
    | None => js_throw TypeError
    end
  else mgr_modify (fun g => set_queue (messageQueue g ++ [m]) g).

(** [onMessage(messageType, handler)], lines 72-74. *)
Definition onMessage (t : string) (h : handler) : js world unit :=
  mgr_modify (fun g => set_handlers (<[t := h]> (messageHandlers g)) g).

(** The body of the [while] loop of [flushMessageQueue], lines 81-84:
    test the length, [shift], [send]. *)
Fixpoint flush_loop (fuel : nat) : js world unit :=
  match fuel with
  | O => js_ret tt
  | S fuel' =>
      q <- mgr_gets messageQueue ;;
      match q with
      | [] => js_ret tt
      | m :: rest =>
          mgr_modify (set_queue rest) ;;
          send m ;;
          flush_loop fuel'
      end
  end.

(** [flushMessageQueue()], lines 79-85. *)
Definition flushMessageQueue : js world unit :=
  q <- mgr_gets messageQueue ;;
  flush_loop (length q).

(** [stopHeartbeat()], lines 104-107. *)
Definition stopHeartbeat : js world unit :=
  h <- mgr_gets heartbeatInterval ;;
  (if truthy h then
     match h with Some id => on_rt (clear_timer id) | None => js_ret tt end
   else js_ret tt) ;;
  mgr_modify (set_heartbeat None).

(** [startHeartbeat()], lines 90-102. *)
Definition startHeartbeat : js world unit :=
  stopHeartbeat ;;
  id <- on_rt (set_interval CbHeartbeat 20000) ;;
  mgr_modify (set_heartbeat (Some id)).

(** The interval callback, lines 92-101. *)
Definition heartbeat_tick : js world unit :=
  s <- mgr_gets ws ;;
  match s with
  | None => js_ret tt
  | Some sid =>
      rs <- on_rt (ws_ready_state sid) ;;
      if bool_decide (rs = Some OPEN) then
        js_catch
          (ts <- on_rt date_now ;;
           on_rt (ws_send sid (stringify (ping_msg ts))))
          (fun e => on_rt (emit (EPingFailed e)))
      else js_ret tt
  end.

(** [scheduleReconnect()], lines 112-122. *)
Definition scheduleReconnect : js world unit :=
  t <- mgr_gets reconnectTimeout ;;
  if truthy t then js_ret tt else
  n <- mgr_gets reconnectAttempts ;;
  mgr_modify (set_attempts (n + 1)) ;;
  id <- on_rt (set_timeout CbReconnect (reconnect_delay n)) ;;
  mgr_modify (set_reconnectTimeout (Some id)).

(** The timeout callback, lines 118-121. *)
Definition reconnect_fire : js world unit :=
  mgr_modify (set_reconnectTimeout None) ;;
  connect.

(** The calls an application callback makes. *)
Definition run_action (a : action) : js world unit :=
  match a with
  | ASend m => send m
  | AConnect => connect
  end.

Definition run_actions (l : list action) : js world unit := js_iter run_action l.

(** [ws.onopen], lines 24-33. *)
Definition onopen : js world unit :=
  mgr_modify (set_isReady true) ;;
  mgr_modify (set_attempts 0) ;;
  cb <- mgr_gets onOpen ;;
  match cb with Some acts => run_actions acts | None => js_ret tt end ;;
  flushMessageQueue ;;
  startHeartbeat.

(** [ws.onmessage], lines 35-42. *)
Definition onmessage (data : W) : js world unit :=
  match parse data with
  | None => js_throw SyntaxError
  | Some msg =>
      match get_prop "type" msg with
      | Thrown e => js_throw e
      | Normal ty =>
          hs <- mgr_gets messageHandlers ;;
          match handler_key ty with
          | Some k =>
              match hs !! k with
              | Some h => run_actions (h msg)
              | None => on_rt (emit (EUnknownType ty))
              end
          | None => on_rt (emit (EUnknownType ty))
          end
      end
  end.

(** [ws.onclose], lines 44-49. *)
Definition onclose : js world unit :=
  mgr_modify (set_isReady false) ;;
  stopHeartbeat ;;
  scheduleReconnect.

(** [ws.onerror], lines 51-54: closes [this.ws], the current socket. *)
Definition onerror : js world unit :=
  s <- mgr_gets ws ;;
  match s with
  | Some sid => on_rt (ws_close sid)
  | None => js_throw TypeError
  end.

Definition run_callback (cb : callback) : js world unit :=
  match cb with
  | CbHeartbeat => heartbeat_tick
  | CbReconnect => reconnect_fire
  end.

(** ** The event loop *)

(** A task of the event loop: an exception escaping it is reported. *)
Definition task (c : js world unit) (w : world) : world :=
  match c w with
  | (Normal _, w') => w'
  | (Thrown e, w') => final (on_rt (emit (EUncaught e))) w'
  end.

(** What the presentation layer may do with the manager. *)
Inductive call :=
| CallConnect
| CallSend (m : Json)
| CallOnMessage (t : string) (h : handler)
| CallSetOnOpen (cb : option (list action)).

Definition api (c : call) : js world unit :=
  match c with
  | CallConnect => connect
  | CallSend m => send m
  | CallOnMessage t h => onMessage t h
  | CallSetOnOpen cb => mgr_modify (set_onOpen cb)
  end.

Inductive event :=
| EvCall (c : call)
| EvOpen (sid : nat)
| EvClosing (sid : nat)
| EvMessage (sid : nat) (data : W)
| EvClose (sid : nat) (err : bool)
| EvTimer (id : nat)
| EvWait (d : Z).

(** The world after event [ev], or [None] when [ev] cannot happen. *)
Definition step_fn (ev : event) (w : world) : option world :=
  match ev with
  | EvCall c => Some (task (api c) w)
  | EvOpen sid =>
      match env_open sid (rt w) with
      | Some r => Some (task onopen (set_rt r w))
      | None => None
      end
  | EvClosing sid =>
      match env_closing sid (rt w) with
      | Some r => Some (set_rt r w)
      | None => None
      end
  | EvMessage sid data =>
      match sockets (rt w) !! sid with
      | Some OPEN => Some (task (onmessage data) w)
      | _ => None
      end
  | EvClose sid err =>
      match env_closed sid (rt w) with
      | Some r =>
          let w1 := set_rt r w in
          Some (task onclose (if err then task onerror w1 else w1))
      | None => None
      end
  | EvTimer id =>
      match env_due id (rt w) with
      | Some (cb, r) =>
          let w1 := task (run_callback cb) (set_rt r w) in
          Some (set_rt (timer_after id (rt w1)) w1)
      | None => None
      end
  | EvWait d =>
      match env_wait d (rt w) with
      | Some r => Some (set_rt r w)
      | None => None
      end
  end.

Definition step (w w' : world) : Prop := exists ev, step_fn ev w = Some w'.

Definition reachable (w : world) : Prop :=
  exists u t0, rtc step (new_world u t0) w.

(** Run a sequence of events; [None] if one of them cannot happen. *)
Fixpoint run_events (evs : list event) (w : world) : option world :=
  match evs with
  | [] => Some w
  | ev :: evs' =>
      match step_fn ev w with
      | Some w' => run_events evs' w'
      | None => None
      end
  end.
End Manager.

Arguments world W : clear implicits.
