(* ===== verification/ManagerInv.v ===== *)
(** * Invariants of the manager

    [inv] collects what holds of every world the event loop reaches
    ([reachable_inv]):
    - the timer ids are positive and below [next_timer], every timer is
      due no earlier than the clock, and a timer's kind is fixed by its
      callback (an interval of 20000 ms for the heartbeat, a one-shot
      timeout for the reconnection);
    - [tracks]: the heartbeat timers are exactly the one recorded in
      [heartbeatInterval], the reconnect timers exactly the one recorded
      in [reconnectTimeout], so at most one of each is ever pending;
    - a heartbeat is only recorded while [isReady];
    - [reconnectAttempts] is non-negative;
    - [this.ws] names a socket of the store.
    Each handler is shown to keep [inv] from functional lemmas describing
    the timer operations ([stopHeartbeat_run], [startHeartbeat_run],
    [scheduleReconnect_run]) and the [keeps] judgement for the operations
    that leave the timers and the fields they guard alone. *)

From stdpp Require Import base list gmap strings.
From Stdlib Require Import ZArith Lia.
From S2P Require Import Prelude Json Backoff Browser Manager.

Local Open Scope js_scope.

(** The kind of timer each callback is registered with. *)
Definition cb_kind (cb : callback) : timer_kind :=
  match cb with
  | CbHeartbeat => Repeat 20000
  | CbReconnect => Once
  end.

(** The field [f] records exactly the timers whose callback is [cb]. *)
Definition tracks (cb : callback) (f : option nat) (tms : gmap nat (timer callback)) : Prop :=
  forall id, (exists tm, tms !! id = Some tm /\ t_cb tm = cb) <-> f = Some id.

Section Tracks.
Context (cb : callback).
Implicit Types (tms : gmap nat (timer callback)) (tm : timer callback).

Lemma tracks_insert_new tms id tm :
  tms !! id = None -> t_cb tm = cb -> tracks cb None tms ->
  tracks cb (Some id) (<[id := tm]> tms).
Proof.
  intros Hfresh Hcb Ht k. rewrite lookup_insert. case_decide as Hk.
  - subst k. split; [done|]. intros _. by exists tm.
  - split; [|congruence]. intros Hex. by apply Ht in Hex.
Qed.

Lemma tracks_insert_other f tms id tm :
  tms !! id = None -> t_cb tm <> cb -> tracks cb f tms ->
  tracks cb f (<[id := tm]> tms).
Proof.
  intros Hfresh Hcb Ht k. rewrite lookup_insert. case_decide as Hk.
  - subst k. split; [intros (? & [= <-] & ?); done|].
    intros Hf. apply Ht in Hf as (? & Hl & _). congruence.
  - apply Ht.
Qed.

Lemma tracks_delete_tracked tms id :
  tracks cb (Some id) tms -> tracks cb None (delete id tms).
Proof.
  intros Ht k. rewrite lookup_delete. case_decide as Hk.
  - split; [intros (? & ? & _)|]; done.
  - split; [|done]. intros Hex. apply Ht in Hex. congruence.
Qed.

Lemma tracks_delete_other f tms id :
  (forall tm, tms !! id = Some tm -> t_cb tm <> cb) -> tracks cb f tms ->
  tracks cb f (delete id tms).
Proof.
  intros Hother Ht k. rewrite lookup_delete. case_decide as Hk.
  - subst k. split; [intros (? & ? & _); done|].
    intros Hf. apply Ht in Hf as (tm & Hl & Hc). by apply Hother in Hl.
  - apply Ht.
Qed.

Lemma tracks_update f tms id tm tm' :
  tms !! id = Some tm -> t_cb tm' = t_cb tm -> tracks cb f tms ->
  tracks cb f (<[id := tm']> tms).
Proof.
  intros Hl Hcb Ht k. rewrite lookup_insert. case_decide as Hk.
  - subst k. split.
    + intros (? & [= <-] & Hc). apply Ht. exists tm. split; [done | congruence].
    + intros Hf. apply Ht in Hf as (tm0 & Hl' & Hc). simplify_eq.
      exists tm'. split; [done | congruence].
  - apply Ht.
Qed.

(** Two timers with the same callback are the same timer. *)
Lemma tracks_unique f tms id1 id2 tm1 tm2 :
  tracks cb f tms ->
  tms !! id1 = Some tm1 -> t_cb tm1 = cb ->
  tms !! id2 = Some tm2 -> t_cb tm2 = cb -> id1 = id2.
Proof.
  intros Ht H1 C1 H2 C2.
  assert (f = Some id1) by (apply Ht; eauto).
  assert (f = Some id2) by (apply Ht; eauto). congruence.
Qed.
End Tracks.

#[export] Hint Resolve tracks_insert_new tracks_insert_other tracks_delete_tracked
  tracks_delete_other tracks_update : js_inv.

Section Inv.
Context {W : Type} `{!JsonCodec W}.
Implicit Types (w : world W) (r : runtime callback W).

Definition timers_ok r : Prop :=
  (1 <= next_timer r)%nat /\
  map_Forall (fun id tm => (1 <= id < next_timer r)%nat /\ (now r <= t_due tm)%Z /\
                           t_kind tm = cb_kind (t_cb tm)) (timers r).

Record inv w : Prop := {
  inv_timers : timers_ok (rt w);
  inv_hb : tracks CbHeartbeat (heartbeatInterval (mgr w)) (timers (rt w));
  inv_rc : tracks CbReconnect (reconnectTimeout (mgr w)) (timers (rt w));
  inv_hb_ready : is_Some (heartbeatInterval (mgr w)) -> isReady (mgr w) = true;
  inv_attempts : (0 <= reconnectAttempts (mgr w))%Z;
  inv_ws : forall sid, ws (mgr w) = Some sid -> is_Some (sockets (rt w) !! sid)
}.

(** What the timer-free operations leave unchanged. *)
Definition snap w :=
  (timers (rt w), next_timer (rt w), now (rt w), heartbeatInterval (mgr w),
   reconnectTimeout (mgr w), isReady (mgr w), reconnectAttempts (mgr w)).

Definition inv_at s w : Prop := inv w /\ snap w = s.

(** [c] keeps the invariant and touches neither the timers nor the
    fields that guard them. *)
Definition keeps {A} (c : js (world W) A) : Prop := forall s, preserves (inv_at s) c.

Lemma tracks_truthy cb f r :
  timers_ok r -> tracks cb f (timers r) ->
  truthy f = match f with Some _ => true | None => false end.
Proof.
  intros [_ Hok] Ht. destruct f as [id|]; [|done].
  destruct (proj2 (Ht id) eq_refl) as (tm & Hl & _).
  destruct (Hok id tm Hl) as [Hid _]. simpl. destruct id; [lia | done].
Qed.

Lemma timers_ok_fresh r : timers_ok r -> timers r !! next_timer r = None.
Proof.
  intros [_ Hok]. destruct (timers r !! next_timer r) as [tm|] eqn:Hl; [|done].
  destruct (Hok _ _ Hl) as [? _]. lia.
Qed.

Lemma inv_same w w' :
  inv w -> snap w' = snap w ->
  (forall sid, ws (mgr w') = Some sid -> is_Some (sockets (rt w') !! sid)) ->
  inv w'.
Proof.
  intros [Ht Hh Hr Hy Ha Hw] Hs Hw'. unfold snap in Hs.
  injection Hs as E1 E2 E3 E4 E5 E6 E7.
  split; [unfold timers_ok; rewrite E1, E2, E3 | rewrite E4, E1 | rewrite E5, E1
         | rewrite E4, E6 | rewrite E7 | ]; auto.
Qed.

Lemma keeps_preserves {A} (c : js (world W) A) : keeps c -> preserves inv c.
Proof. intros Hc w Hw. exact (proj1 (Hc (snap w) w (conj Hw eq_refl))). Qed.

Lemma keeps_ready {A} (c : js (world W) A) b :
  keeps c -> preserves (fun w => inv w /\ isReady (mgr w) = b) c.
Proof.
  intros Hc w [Hw Hb]. destruct (Hc (snap w) w (conj Hw eq_refl)) as [Hw' Hs].
  split; [done|]. unfold snap in Hs. congruence.
Qed.

(** ** Operations that keep the timers *)

(** A browser primitive that leaves the timers and the clock alone and
    never removes a socket. *)
Definition rt_frame {A} (c : js (runtime callback W) A) : Prop :=
  forall r, timers (final c r) = timers r /\ next_timer (final c r) = next_timer r /\
            now (final c r) = now r /\
            forall sid, is_Some (sockets r !! sid) -> is_Some (sockets (final c r) !! sid).

Lemma on_rt_keeps {A} (c : js (runtime callback W) A) s :
  rt_frame c -> preserves (inv_at s) (on_rt c).
Proof.
  intros Hc w [Hw Hs]. unfold final, on_rt in *.
  specialize (Hc (rt w)). unfold final in Hc.
  destruct (c (rt w)) as [o r'] eqn:E. simpl in *. destruct Hc as (H1 & H2 & H3 & H4).
  assert (Hsn : snap (set_rt r' w) = snap w) by (unfold snap; simpl; congruence).
  split; [|congruence]. apply (inv_same w); [done | done |].
  intros sid Hsid. apply H4, (inv_ws w Hw), Hsid.
Qed.

Lemma mgr_modify_keeps f s :
  (forall g, ws (f g) = ws g /\ heartbeatInterval (f g) = heartbeatInterval g /\
             reconnectTimeout (f g) = reconnectTimeout g /\ isReady (f g) = isReady g /\
             reconnectAttempts (f g) = reconnectAttempts g) ->
  preserves (inv_at s) (mgr_modify f).
Proof.
  intros Hf w [Hw Hs]. destruct (Hf (mgr w)) as (E1 & E2 & E3 & E4 & E5).
  assert (Hsn : snap (final (mgr_modify f) w) = snap w) by (unfold snap; simpl; congruence).
  split; [|congruence]. apply (inv_same w); [done | done |].
  simpl. rewrite E1. apply (inv_ws w Hw).
Qed.

Lemma rt_frame_ws_new : rt_frame ws_new.
Proof.
  intros r. simpl. repeat split. intros sid Hs. rewrite lookup_insert.
  case_decide; [done | exact Hs].
Qed.

Lemma rt_frame_ws_send sid d : rt_frame (ws_send sid d).
Proof.
  intros r. unfold final, ws_send. destruct (sockets r !! sid) as [[]|]; simpl; auto.
Qed.

Lemma rt_frame_ws_close sid : rt_frame (ws_close sid).
Proof.
  intros r. unfold final, ws_close. destruct (sockets r !! sid) as [[]|] eqn:E; simpl; auto;
    repeat split; intros k Hk; rewrite lookup_insert; case_decide; auto.
Qed.

Lemma rt_frame_emit e : rt_frame (emit e).
Proof. intros r. simpl. auto. Qed.

Lemma rt_frame_gets {A} (f : runtime callback W -> A) : rt_frame (js_gets f).
Proof. intros r. simpl. auto. Qed.

Lemma rt_frame_date_now : rt_frame date_now.
Proof. apply rt_frame_gets. Qed.

Lemma rt_frame_ws_ready_state sid : rt_frame (ws_ready_state sid).
Proof. apply rt_frame_gets. Qed.

Lemma mgr_gets_keeps {A} (f : Mgr -> A) s : preserves (inv_at s) (mgr_gets f).
Proof. apply preserves_gets. Qed.
End Inv.

#[export] Hint Resolve rt_frame_ws_new rt_frame_ws_send rt_frame_ws_close rt_frame_emit
  rt_frame_date_now rt_frame_ws_ready_state mgr_gets_keeps : js_inv.
#[export] Hint Extern 2 (preserves _ (on_rt _)) =>
  apply on_rt_keeps; solve [eauto with js_inv] : js_inv.
#[export] Hint Extern 2 (preserves _ (mgr_modify _)) =>
  apply mgr_modify_keeps; intros; simpl; repeat split : js_inv.

Section Ops.
Context {W : Type} `{!JsonCodec W}.
Implicit Types (w : world W).

Lemma connect_run w :
  connect w = (Normal tt, set_mgr (set_ws (Some (next_sock (rt w))) (mgr w))
                                  (set_rt (final ws_new (rt w)) w)).
Proof. reflexivity. Qed.

Lemma connect_keeps s : preserves (inv_at s) (@connect W).
Proof.
  intros w [Hw Hs]. unfold final. rewrite connect_run. simpl.
  assert (Hsn : snap (set_mgr (set_ws (Some (next_sock (rt w))) (mgr w))
                            (set_rt (final ws_new (rt w)) w)) = snap w) by reflexivity.
  split; [|congruence]. apply (inv_same w); [done | done |].
  simpl. intros sid [= <-]. rewrite lookup_insert_eq. eauto.
Qed.
#[local] Hint Resolve connect_keeps : js_inv.

Lemma send_keeps m s : preserves (inv_at s) (@send W _ m).
Proof. unfold send. preserves_by. Qed.
#[local] Hint Resolve send_keeps : js_inv.

Lemma run_actions_keeps l s : preserves (inv_at s) (@run_actions W _ l).
Proof. unfold run_actions. apply preserves_iter. intros []; simpl; auto with js_inv. Qed.
#[local] Hint Resolve run_actions_keeps : js_inv.

Lemma flush_loop_keeps n s : preserves (inv_at s) (@flush_loop W _ n).
Proof. induction n as [|n IH]; simpl; preserves_by. Qed.
#[local] Hint Resolve flush_loop_keeps : js_inv.

Lemma flushMessageQueue_keeps s : preserves (inv_at s) (@flushMessageQueue W _).
Proof. unfold flushMessageQueue. preserves_by. Qed.

Lemma onmessage_keeps d s : preserves (inv_at s) (@onmessage W _ d).
Proof. unfold onmessage. preserves_by. Qed.

Lemma onerror_keeps s : preserves (inv_at s) (@onerror W).
Proof. unfold onerror. preserves_by. Qed.

Lemma heartbeat_tick_keeps s : preserves (inv_at s) (@heartbeat_tick W _).
Proof. unfold heartbeat_tick. preserves_by. Qed.

Lemma onMessage_keeps t h s : preserves (inv_at s) (@onMessage W t h).
Proof. unfold onMessage. preserves_by. Qed.
End Ops.

#[export] Hint Resolve connect_keeps send_keeps run_actions_keeps flush_loop_keeps
  flushMessageQueue_keeps onmessage_keeps onerror_keeps heartbeat_tick_keeps
  onMessage_keeps : js_inv.

Section TimerOps.
Context {W : Type} `{!JsonCodec W}.
Implicit Types (w : world W) (r : runtime callback W).

(** The world without the timer [o] names. *)
Definition drop_timer (o : option nat) w : world W :=
  match o with
  | Some id => set_rt (set_timers (delete id (timers (rt w))) (rt w)) w
  | None => w
  end.

(** The world after a new timer of kind [k] for [cb] is registered and
    its id stored by [setf]. *)
Definition arm (k : timer_kind) (cb : callback) (d : Z) (setf : option nat -> Mgr -> Mgr) w
  : world W :=
  set_mgr (setf (Some (next_timer (rt w))) (mgr w)) (set_rt (final (add_timer k cb d) (rt w)) w).

Lemma timers_ok_add r k cb d :
  timers_ok r -> k = cb_kind cb -> timers_ok (final (add_timer k cb d) r).
Proof.
  intros [Hn Hok] Hk. split; simpl; [lia|].
  apply map_Forall_insert_2; [simpl; rewrite Hk; split; [lia | split; [lia | done]]|].
  eapply map_Forall_impl; [exact Hok|]. intros id tm (? & ? & ?). split; [lia | done].
Qed.

Lemma timers_ok_delete r id : timers_ok r -> timers_ok (set_timers (delete id (timers r)) r).
Proof. intros [Hn Hok]. split; [done|]. by apply map_Forall_delete. Qed.

(** The timer recorded for [cb] is not one of the other callback's. *)
Lemma tracked_not_other cb cb' tms id :
  tracks cb (Some id) tms -> cb <> cb' ->
  forall tm, tms !! id = Some tm -> t_cb tm <> cb'.
Proof.
  intros Ht Hne tm Hl. destruct (proj2 (Ht id) eq_refl) as (tm' & Hl' & Hc).
  congruence.
Qed.

(** [stopHeartbeat] clears the recorded interval, if any, and resets
    the field; it never throws. *)
Lemma stopHeartbeat_run w :
  timers_ok (rt w) -> tracks CbHeartbeat (heartbeatInterval (mgr w)) (timers (rt w)) ->
  stopHeartbeat w =
    (Normal tt, set_mgr (set_heartbeat None (mgr w)) (drop_timer (heartbeatInterval (mgr w)) w)).
Proof.
  intros Ht Hh. unfold stopHeartbeat, js_bind, mgr_gets, js_gets.
  rewrite (tracks_truthy _ _ _ Ht Hh). by destruct (heartbeatInterval (mgr w)).
Qed.

Lemma inv_stop w :
  timers_ok (rt w) -> tracks CbHeartbeat (heartbeatInterval (mgr w)) (timers (rt w)) ->
  tracks CbReconnect (reconnectTimeout (mgr w)) (timers (rt w)) ->
  (0 <= reconnectAttempts (mgr w))%Z ->
  (forall sid, ws (mgr w) = Some sid -> is_Some (sockets (rt w) !! sid)) ->
  inv (set_mgr (set_heartbeat None (mgr w)) (drop_timer (heartbeatInterval (mgr w)) w)).
Proof.
  intros Ht Hh Hr Ha Hw. destruct (heartbeatInterval (mgr w)) as [id|] eqn:E.
  - split; simpl; [by apply timers_ok_delete | | | intros [? ?]; done | done | done].
    + by apply tracks_delete_tracked.
    + apply tracks_delete_other; [|done]. by apply (tracked_not_other CbHeartbeat).
  - split; simpl; try done; intros [? ?]; done.
Qed.

(** [startHeartbeat] replaces any interval by a fresh one of 20000 ms. *)
Lemma startHeartbeat_run w :
  timers_ok (rt w) -> tracks CbHeartbeat (heartbeatInterval (mgr w)) (timers (rt w)) ->
  startHeartbeat w =
    (Normal tt, arm (Repeat 20000) CbHeartbeat 20000 set_heartbeat
       (set_mgr (set_heartbeat None (mgr w)) (drop_timer (heartbeatInterval (mgr w)) w))).
Proof.
  intros Ht Hh. unfold startHeartbeat. rewrite (js_bind_normal _ _ _ _ _ (stopHeartbeat_run w Ht Hh)).
  reflexivity.
Qed.

Lemma startHeartbeat_inv : preserves (fun w => inv w /\ isReady (mgr w) = true) (@startHeartbeat W).
Proof.
  intros w [Hw Hr]. unfold final. rewrite (startHeartbeat_run w (inv_timers w Hw) (inv_hb w Hw)).
  simpl. pose proof (inv_stop w (inv_timers w Hw) (inv_hb w Hw) (inv_rc w Hw)
                       (inv_attempts w Hw) (inv_ws w Hw)) as Hs.
  set (w1 := set_mgr _ _) in *. split; [|exact Hr].
  pose proof (timers_ok_fresh _ (inv_timers w1 Hs)) as Hfresh.
  split; simpl.
  - apply timers_ok_add; [exact (inv_timers w1 Hs) | reflexivity].
  - apply tracks_insert_new; [exact Hfresh | done | exact (inv_hb w1 Hs)].
  - apply tracks_insert_other; [exact Hfresh | done | exact (inv_rc w1 Hs)].
  - intros _. exact Hr.
  - exact (inv_attempts w1 Hs).
  - exact (inv_ws w1 Hs).
Qed.

(** [scheduleReconnect] does nothing while a reconnection is pending;
    otherwise it counts the attempt and arms a timeout of
    [reconnect_delay] for the attempt number it had. *)
Lemma scheduleReconnect_run w :
  timers_ok (rt w) -> tracks CbReconnect (reconnectTimeout (mgr w)) (timers (rt w)) ->
  scheduleReconnect w =
    (Normal tt,
     match reconnectTimeout (mgr w) with
     | Some _ => w
     | None =>
         arm Once CbReconnect (reconnect_delay (reconnectAttempts (mgr w))) set_reconnectTimeout
           (set_mgr (set_attempts (reconnectAttempts (mgr w) + 1) (mgr w)) w)
     end).
Proof.
  intros Ht Hr. unfold scheduleReconnect, js_bind, mgr_gets, js_gets.
  rewrite (tracks_truthy _ _ _ Ht Hr). by destruct (reconnectTimeout (mgr w)).
Qed.

Lemma scheduleReconnect_inv : preserves inv (@scheduleReconnect W).
Proof.
  intros w Hw. unfold final.
  rewrite (scheduleReconnect_run w (inv_timers w Hw) (inv_rc w Hw)).
  destruct (reconnectTimeout (mgr w)) as [id|] eqn:E; [exact Hw|].
  pose proof (timers_ok_fresh _ (inv_timers w Hw)) as Hfresh.
  split; simpl.
  - apply timers_ok_add; [exact (inv_timers w Hw) | reflexivity].
  - apply tracks_insert_other; [exact Hfresh | done | exact (inv_hb w Hw)].
  - apply tracks_insert_new; [exact Hfresh | done |]. rewrite <- E. exact (inv_rc w Hw).
  - exact (inv_hb_ready w Hw).
  - pose proof (inv_attempts w Hw). lia.
  - exact (inv_ws w Hw).
Qed.
End TimerOps.

Section Handlers.
Context {W : Type} `{!JsonCodec W}.
Implicit Types (w : world W).

Lemma onopen_inv : preserves inv (@onopen W _).
Proof.
  unfold onopen.
  apply (preserves_bind_strengthen _ (fun w => inv w /\ isReady (mgr w) = true)).
  - intros w Hw. split; [|reflexivity].
    split; simpl; try apply Hw. intros _. reflexivity.
  - intros _. apply preserves_bind; [|intros _].
    { intros w [Hw Hr]. split; [|exact Hr]. split; simpl; try apply Hw. lia. }
    apply preserves_bind; [apply preserves_gets | intros cb].
    apply preserves_bind; [destruct cb; apply keeps_ready; intros s; auto with js_inv|].
    intros _. apply preserves_bind; [apply keeps_ready; intros s; auto with js_inv | intros _].
    apply startHeartbeat_inv.
  - intros w [Hw _]. exact Hw.
Qed.

Lemma onclose_inv : preserves inv (@onclose W).
Proof.
  intros w Hw. unfold onclose, final, js_bind at 1. simpl.
  set (w1 := set_mgr (set_isReady false (mgr w)) w).
  rewrite (js_bind_normal _ _ _ _ _ (stopHeartbeat_run w1 (inv_timers w Hw) (inv_hb w Hw))).
  apply scheduleReconnect_inv, inv_stop; apply Hw.
Qed.

(** A task keeps what its body and the report of an uncaught exception
    keep. *)
Lemma task_preserves (P : world W -> Prop) c w :
  preserves P c -> (forall e, preserves P (on_rt (emit (EUncaught e)))) -> P w -> P (task c w).
Proof.
  intros Hc He Hw. unfold task. specialize (Hc w Hw). unfold final in Hc.
  destruct (c w) as [[[]|e] w']; [exact Hc|]. apply He, Hc.
Qed.

Lemma task_keeps s c w : keeps c -> inv_at s w -> inv_at s (task c w).
Proof. intros Hc Hw. apply task_preserves; [apply Hc | intros e; auto with js_inv | exact Hw]. Qed.

Lemma task_inv c w : preserves inv c -> inv w -> inv (task c w).
Proof.
  intros Hc Hw. apply task_preserves; [exact Hc | | exact Hw].
  intros e. apply keeps_preserves. intros s. auto with js_inv.
Qed.

Lemma api_keeps c s : preserves (inv_at s) (@api W _ c).
Proof. destruct c; simpl; auto with js_inv. Qed.
End Handlers.

Section Step.
Context {W : Type} `{!JsonCodec W}.
Implicit Types (w : world W).

Lemma insert_keeps_some (m : gmap nat ready_state) k v sid :
  is_Some (m !! sid) -> is_Some (<[k := v]> m !! sid).
Proof. intros Hs. rewrite lookup_insert. case_decide; eauto. Qed.

Lemma inv_set_sockets w k v :
  inv w -> inv (set_rt (set_sockets (<[k := v]> (sockets (rt w))) (rt w)) w).
Proof.
  intros Hw. apply (inv_same w); [done | reflexivity |].
  simpl. intros sid Hs. apply insert_keeps_some, (inv_ws w Hw), Hs.
Qed.

Lemma env_socket_inv w r :
  inv w ->
  (exists sid v, r = set_sockets (<[sid := v]> (sockets (rt w))) (rt w)) ->
  inv (set_rt r w).
Proof. intros Hw (sid & v & ->). by apply inv_set_sockets. Qed.

Lemma env_open_sockets w sid r :
  env_open sid (rt w) = Some r ->
  exists sid v, r = set_sockets (<[sid := v]> (sockets (rt w))) (rt w).
Proof. unfold env_open. destruct (sockets (rt w) !! sid) as [[]|]; intros; simplify_eq; eauto. Qed.

Lemma env_closing_sockets w sid r :
  env_closing sid (rt w) = Some r ->
  exists sid v, r = set_sockets (<[sid := v]> (sockets (rt w))) (rt w).
Proof. unfold env_closing. destruct (sockets (rt w) !! sid) as [[]|]; intros; simplify_eq; eauto. Qed.

Lemma env_closed_sockets w sid r :
  env_closed sid (rt w) = Some r ->
  exists sid v, r = set_sockets (<[sid := v]> (sockets (rt w))) (rt w).
Proof. unfold env_closed. destruct (sockets (rt w) !! sid) as [[]|]; intros; simplify_eq; eauto. Qed.

Lemma inv_set_now w t :
  inv w -> (now (rt w) <= t)%Z -> no_timer_before t (rt w) = true ->
  inv (set_rt (set_now t (rt w)) w).
Proof.
  intros Hw Ht Hn. unfold no_timer_before in Hn. apply bool_decide_eq_true in Hn.
  destruct Hw as [[Hnt Hok] Hh Hr Hy Ha Hws]. split; simpl; auto. split; [done|].
  intros id tm Hl. destruct (Hok id tm Hl) as (? & ? & ?). specialize (Hn id tm Hl).
  simpl in *. split; [done | split; [exact Hn | done]].
Qed.

Lemma env_wait_inv w d r : env_wait d (rt w) = Some r -> inv w -> inv (set_rt r w).
Proof.
  unfold env_wait. destruct (bool_decide (0 <= d)%Z) eqn:E1; [|done].
  destruct (no_timer_before (now (rt w) + d) (rt w)) eqn:E2; [|done].
  intros [= <-] Hw. apply bool_decide_eq_true in E1. apply inv_set_now; [done | lia | done].
Qed.

Lemma env_due_spec w id cb r :
  env_due id (rt w) = Some (cb, r) ->
  exists tm, timers (rt w) !! id = Some tm /\ cb = t_cb tm /\
             r = set_now (t_due tm) (rt w) /\ (now (rt w) <= t_due tm)%Z /\
             no_timer_before (t_due tm) (rt w) = true.
Proof.
  unfold env_due. destruct (timers (rt w) !! id) as [tm|] eqn:Hl; [|done].
  destruct (bool_decide (now (rt w) <= t_due tm)%Z) eqn:E1; [|done].
  destruct (no_timer_before (t_due tm) (rt w)) eqn:E2; [|done].
  intros [= <- <-]. apply bool_decide_eq_true in E1. eauto 10.
Qed.

(** An interval that fired is due again one period later. *)
Lemma inv_reschedule w id tm p :
  inv w -> timers (rt w) !! id = Some tm -> t_kind tm = Repeat p -> (0 <= p)%Z ->
  inv (set_rt (set_timers (<[id := mk_timer (now (rt w) + p) (Repeat p) (t_cb tm)]>
                             (timers (rt w))) (rt w)) w).
Proof.
  intros [[Hnt Hok] Hh Hr Hy Ha Hws] Hl Hk Hp.
  destruct (Hok id tm Hl) as (Hid & _ & Hkind).
  split; simpl; auto.
  - split; [done|]. apply map_Forall_insert_2; [simpl; split; [done | split; [lia | congruence]]|].
    exact Hok.
  - by apply (tracks_update _ _ _ _ tm).
  - by apply (tracks_update _ _ _ _ tm).
Qed.

Lemma reconnect_fire_run w :
  reconnect_fire w =
    (Normal tt, set_mgr (set_ws (Some (next_sock (rt w))) (set_reconnectTimeout None (mgr w)))
                        (set_rt (final ws_new (rt w)) w)).
Proof. reflexivity. Qed.

(** The reconnect timeout fired: the field was reset, a socket opened,
    and the timeout is removed. *)
Lemma inv_after_reconnect w id tm :
  inv w -> timers (rt w) !! id = Some tm -> t_cb tm = CbReconnect ->
  let w1 := task reconnect_fire w in inv (set_rt (timer_after id (rt w1)) w1).
Proof.
  intros Hw Hl Hcb. simpl. unfold task. rewrite reconnect_fire_run.
  destruct Hw as [[Hnt Hok] Hh Hr Hy Ha Hws].
  destruct (Hok id tm Hl) as (Hid & _ & Hkind). rewrite Hcb in Hkind.
  destruct tm as [d k cb]. simpl in *. subst k cb.
  assert (Hrc : reconnectTimeout (mgr w) = Some id) by (apply Hr; eauto).
  unfold timer_after. simpl. rewrite Hl.
  split; simpl.
  - split; [done|]. by apply map_Forall_delete.
  - apply tracks_delete_other; [|done]. intros tm' Hl'. rewrite Hl in Hl'. by simplify_eq.
  - rewrite Hrc in Hr. by apply tracks_delete_tracked.
  - exact Hy.
  - exact Ha.
  - intros sid [= <-]. rewrite lookup_insert_eq. eauto.
Qed.

(** The heartbeat interval fired: it is due again 20000 ms later. *)
Lemma inv_after_tick w id tm :
  inv w -> timers (rt w) !! id = Some tm -> t_cb tm = CbHeartbeat ->
  let w1 := task heartbeat_tick w in inv (set_rt (timer_after id (rt w1)) w1).
Proof.
  intros Hw Hl Hcb w1.
  destruct (task_keeps (snap w) heartbeat_tick w heartbeat_tick_keeps
              (conj Hw eq_refl)) as [Hw1 Hs1].
  fold w1 in Hw1, Hs1. unfold snap in Hs1. injection Hs1 as E1 _ _ _ _ _ _.
  destruct (proj2 (inv_timers w Hw) id tm Hl) as (_ & _ & Hkind).
  rewrite Hcb in Hkind. simpl in Hkind.
  assert (Hl1 : timers (rt w1) !! id = Some tm) by (rewrite E1; exact Hl).
  unfold timer_after. rewrite Hl1. destruct tm as [d k cb]. simpl in *. subst k cb.
  apply (inv_reschedule w1 id (mk_timer d (Repeat 20000) CbHeartbeat)); [done | done | done | lia].
Qed.

Lemma timer_event_inv w id cb r :
  env_due id (rt w) = Some (cb, r) -> inv w ->
  let w1 := task (run_callback cb) (set_rt r w) in inv (set_rt (timer_after id (rt w1)) w1).
Proof.
  intros Hdue Hw. destruct (env_due_spec w id cb r Hdue) as (tm & Hl & -> & -> & Hle & Hn).
  pose proof (inv_set_now w _ Hw Hle Hn) as Hw0.
  destruct (t_cb tm) eqn:Hcb.
  - exact (inv_after_tick _ id tm Hw0 Hl Hcb).
  - exact (inv_after_reconnect _ id tm Hw0 Hl Hcb).
Qed.

Lemma step_fn_inv ev w w' : step_fn ev w = Some w' -> inv w -> inv w'.
Proof.
  intros Hstep Hw. destruct ev as [c|sid|sid|sid d|sid err|id|d]; simpl in Hstep.
  - injection Hstep as <-. apply task_inv; [|exact Hw].
    apply keeps_preserves. intros s. apply api_keeps.
  - destruct (env_open sid (rt w)) as [r|] eqn:E; [|done]. injection Hstep as <-.
    apply task_inv; [apply onopen_inv|]. apply env_socket_inv; [done|]. by eapply env_open_sockets.
  - destruct (env_closing sid (rt w)) as [r|] eqn:E; [|done]. injection Hstep as <-.
    apply env_socket_inv; [done|]. by eapply env_closing_sockets.
  - destruct (sockets (rt w) !! sid) as [[]|]; try done. injection Hstep as <-.
    apply task_inv; [|exact Hw]. apply keeps_preserves. intros s. apply onmessage_keeps.
  - destruct (env_closed sid (rt w)) as [r|] eqn:E; [|done]. injection Hstep as <-.
    assert (Hw1 : inv (set_rt r w)) by (apply env_socket_inv; [done | by eapply env_closed_sockets]).
    apply task_inv; [apply onclose_inv|]. destruct err; [|exact Hw1].
    apply task_inv; [|exact Hw1]. apply keeps_preserves. intros s. apply onerror_keeps.
  - destruct (env_due id (rt w)) as [[cb r]|] eqn:E; [|done]. injection Hstep as <-.
    exact (timer_event_inv w id cb r E Hw).
  - destruct (env_wait d (rt w)) as [r|] eqn:E; [|done]. injection Hstep as <-.
    exact (env_wait_inv w d r E Hw).
Qed.

Lemma tracks_empty cb : tracks cb None ∅.
Proof. intros id. split; [intros (? & Hl & _); by rewrite lookup_empty in Hl | done]. Qed.

Lemma new_world_inv u t0 : inv (new_world (W := W) u t0).
Proof.
  split; simpl; try done; apply tracks_empty.
Qed.

Lemma rtc_step_inv w w' : rtc step w w' -> inv w -> inv w'.
Proof.
  induction 1 as [|w1 w2 w3 [ev Hev] _ IH]; intros Hw; [exact Hw|].
  apply IH, (step_fn_inv ev w1 w2 Hev Hw).
Qed.

Lemma reachable_inv w : reachable w -> inv w.
Proof. intros (u & t0 & Hr). exact (rtc_step_inv _ _ Hr (new_world_inv u t0)). Qed.
Lemma run_events_app evs1 evs2 (w : world W) :
  run_events (evs1 ++ evs2) w =
    match run_events evs1 w with Some w1 => run_events evs2 w1 | None => None end.
Proof.
  revert w. induction evs1 as [|e evs1 IH]; intros w; [done|]. simpl.
  destruct (step_fn e w); [apply IH | done].
Qed.

Lemma run_events_rtc evs w w' : run_events evs w = Some w' -> rtc step w w'.
Proof.
  revert w. induction evs as [|ev evs IH]; intros w H; simpl in H.
  - injection H as <-. apply rtc_refl.
  - destruct (step_fn ev w) as [w1|] eqn:E; [|done].
    apply rtc_l with w1; [by exists ev | by apply IH].
Qed.

Lemma run_events_reachable u t0 evs w :
  run_events evs (new_world u t0) = Some w -> reachable w.
Proof. intros H. exists u, t0. exact (run_events_rtc _ _ _ H). Qed.

(** Every pending timer is the one a field records. *)
Lemma timer_recorded w id tm :
  inv w -> timers (rt w) !! id = Some tm ->
  heartbeatInterval (mgr w) = Some id \/ reconnectTimeout (mgr w) = Some id.
Proof.
  intros Hw Hl. destruct (t_cb tm) eqn:Hc; [left; apply (inv_hb w Hw) | right; apply (inv_rc w Hw)]; eauto.
Qed.

(** The only pending timer is the next one due. *)
Lemma sole_timer_next w id tm :
  inv w -> timers (rt w) !! id = Some tm ->
  (forall id' tm', timers (rt w) !! id' = Some tm' -> id' = id) ->
  no_timer_before (t_due tm) (rt w) = true.
Proof.
  intros Hw Hl Hsole. unfold no_timer_before. apply bool_decide_eq_true.
  intros id' tm' Hl'. rewrite (Hsole id' tm' Hl') in Hl'. rewrite Hl in Hl'. injection Hl' as <-. lia.
Qed.

End Step.

(** ** Lifting a property of the handlers to the event loop *)

Section StepLift.
Context {W : Type} `{!JsonCodec W}.
Implicit Types (w : world W).

(** What each event asks of the handlers it runs. *)
Definition handlers_keep (P : world W -> Prop) (e : event (W := W)) w : Prop :=
  match e with
  | EvCall c => preserves P (api c)
  | EvOpen _ => preserves P onopen
  | EvMessage _ d => preserves P (onmessage d)
  | EvClose _ err => preserves P onclose /\ (err = true -> preserves P onerror)
  | EvTimer id => forall tm, timers (rt w) !! id = Some tm -> preserves P (run_callback (t_cb tm))
  | _ => True
  end.

(** A property of the world that only reads the manager and the trace,
    and that a reported exception keeps. *)
Variable P : world W -> Prop.
Hypothesis P_set_rt : forall w r, trace r = trace (rt w) -> P w -> P (set_rt r w).
Hypothesis P_emit : forall e, preserves P (on_rt (emit (EUncaught e))).

Lemma task_lift c w : preserves P c -> P w -> P (task c w).
Proof.
  intros Hc Hw. unfold task. pose proof (Hc w Hw) as H. unfold final in H.
  destruct (c w) as [[] w']; [exact H | exact (P_emit e w' H)].
Qed.

(** The moves of the environment leave the trace alone, so an event keeps
    [P] when its handlers do. *)
Lemma step_lift e w w' : handlers_keep P e w -> step_fn e w = Some w' -> P w -> P w'.
Proof.
  intros Hh Hs Hw. destruct e as [c|sid|sid|sid data|sid err|id|d]; simpl in Hs, Hh.
  - injection Hs as <-. by apply task_lift.
  - unfold env_open in Hs. repeat case_match; simplify_eq/=. by apply task_lift, P_set_rt.
  - unfold env_closing in Hs. repeat case_match; simplify_eq/=; by apply P_set_rt.
  - repeat case_match; simplify_eq/=. by apply task_lift.
  - destruct (env_closed sid (rt w)) as [r|] eqn:E; simplify_eq/=. destruct Hh as [Hc He].
    assert (P (set_rt r w)) by (apply P_set_rt; [|exact Hw];
      unfold env_closed in E; repeat case_match; by simplify_eq/=).
    apply task_lift; [exact Hc|]. destruct err; [apply task_lift; auto|]; done.
  - unfold env_due in Hs. destruct (timers (rt w) !! id) as [tm|] eqn:Hl; [|discriminate].
    destruct (_ && _); simplify_eq/=.
    apply P_set_rt; [unfold timer_after; repeat case_match; reflexivity|].
    apply task_lift; [by apply Hh | by apply P_set_rt].
  - destruct (env_wait d (rt w)) as [r|] eqn:E; simplify_eq/=. apply P_set_rt; [|exact Hw].
    unfold env_wait in E. destruct (_ && _); by simplify_eq/=.
Qed.
End StepLift.

(** ** Concrete runs *)

Definition msg_join : Json := JObj [("type", JStr "join"); ("room", JStr "r1")].
Definition msg_offer : Json := JObj [("type", JStr "offer"); ("sdp", JStr "v=0")].
Definition msg_hello : Json := JObj [("type", JStr "hello")].

(** The presentation layer sends two messages and then connects. *)
Definition queued_events : list (event (W := frame)) :=
  [EvCall (CallSend msg_join); EvCall (CallSend msg_offer); EvCall CallConnect].

Definition world_or_init (o : option (world frame)) : world frame :=
  match o with Some w => w | None => new_world "" 0 end.

Definition queued_world : world frame :=
  world_or_init (run_events queued_events (new_world "wss://signal" 0)).

(** The same, with an [onOpen] callback that sends a greeting. *)
Definition greeting_events : list (event (W := frame)) :=
  EvCall (CallSetOnOpen (Some [ASend msg_hello])) :: queued_events.

Definition greeting_world : world frame :=
  world_or_init (run_events greeting_events (new_world "wss://signal" 0)).

(** The socket of [queued_world] opens. *)
Definition open_events : list (event (W := frame)) := queued_events ++ [EvOpen 0].

Definition open_world : world frame :=
  world_or_init (run_events open_events (new_world "wss://signal" 0)).

(** The open socket is then closed by the peer. *)
Definition closed_events : list (event (W := frame)) := open_events ++ [EvClose 0 false].

Definition closed_world : world frame :=
  world_or_init (run_events closed_events (new_world "wss://signal" 0)).

(** ** Properties of every reachable world *)

Section Claims.
Context {W : Type} `{!JsonCodec W}.

(** C3: at most one heartbeat timer is ever pending, and it is the one
    [this.heartbeatInterval] records ([tracks]: a timer with the
    heartbeat callback is pending under [id] exactly when the field is
    [Some id]): [startHeartbeat] always stops the previous interval first. *)
Theorem heartbeat_timer_unique u t0 evs (w : world W) :
  run_events evs (new_world u t0) = Some w ->
  tracks CbHeartbeat (heartbeatInterval (mgr w)) (timers (rt w)).
Proof.
  intros Hrun. exact (inv_hb _ (reachable_inv _ (run_events_reachable _ _ _ _ Hrun))).
Qed.

(** C4: at most one reconnect timeout is ever pending, and it is the one
    [this.reconnectTimeout] records ([tracks]): [scheduleReconnect]
    returns early while one is pending. *)
Theorem reconnect_timer_unique u t0 evs (w : world W) :
  run_events evs (new_world u t0) = Some w ->
  tracks CbReconnect (reconnectTimeout (mgr w)) (timers (rt w)).
Proof.
  intros Hrun. exact (inv_rc _ (reachable_inv _ (run_events_reachable _ _ _ _ Hrun))).
Qed.

(** C7: every pending timer runs with its callback's kind ([cb_kind]:
    the heartbeat repeats every 20000 ms, the reconnect fires once), and
    a heartbeat interval is only pending while [isReady] holds. *)
Theorem heartbeat_only_while_ready u t0 evs (w : world W) id tm :
  run_events evs (new_world u t0) = Some w ->
  timers (rt w) !! id = Some tm ->
  t_kind tm = cb_kind (t_cb tm) /\ (t_cb tm = CbHeartbeat -> isReady (mgr w) = true).
Proof.
  intros Hrun Hl. pose proof (reachable_inv _ (run_events_reachable _ _ _ _ Hrun)) as Hw.
  split; [exact (proj2 (proj2 (proj2 (inv_timers w Hw) id tm Hl)))|].
  intros Hc. apply (inv_hb_ready w Hw). exists id. apply (inv_hb w Hw). eauto.
Qed.

(** C18: every world reached from a new manager by any sequence of
    events satisfies [inv]: the timer discipline above, a heartbeat only
    while ready, [this.ws] a socket of the browser, and a never negative
    [reconnectAttempts] (so [Math.pow(2, n)] in [scheduleReconnect] is
    always an integer power). *)
Theorem reconnect_attempts_nonneg u t0 evs (w : world W) :
  run_events evs (new_world u t0) = Some w -> inv w /\ (0 <= reconnectAttempts (mgr w))%Z.
Proof.
  intros Hrun. pose proof (reachable_inv _ (run_events_reachable _ _ _ _ Hrun)) as Hw.
  exact (conj Hw (inv_attempts _ Hw)).
Qed.
End Claims.

(** ** Witnesses *)

Lemma heartbeat_timer_unique_witness :
  run_events open_events (new_world "wss://signal" 0) = Some open_world /\
  tracks CbHeartbeat (heartbeatInterval (mgr open_world)) (timers (rt open_world)).
Proof.
  split; [vm_compute; reflexivity|].
  apply (heartbeat_timer_unique "wss://signal" 0 open_events). vm_compute. reflexivity.
Defined.

Lemma reconnect_timer_unique_witness :
  run_events closed_events (new_world "wss://signal" 0) = Some closed_world /\
  tracks CbReconnect (reconnectTimeout (mgr closed_world)) (timers (rt closed_world)).
Proof.
  split; [vm_compute; reflexivity|].
  apply (reconnect_timer_unique "wss://signal" 0 closed_events). vm_compute. reflexivity.
Defined.

Lemma heartbeat_only_while_ready_witness :
  timers (rt open_world) !! 1 = Some (mk_timer 20000 (Repeat 20000) CbHeartbeat) /\
  t_kind (mk_timer 20000 (Repeat 20000) CbHeartbeat) = cb_kind CbHeartbeat /\
  (CbHeartbeat = CbHeartbeat -> isReady (mgr open_world) = true).
Proof.
  split; [vm_compute; reflexivity|].
  apply (heartbeat_only_while_ready "wss://signal" 0 open_events open_world 1
           (mk_timer 20000 (Repeat 20000) CbHeartbeat)); vm_compute; reflexivity.
Defined.

Lemma reconnect_attempts_nonneg_witness :
  run_events closed_events (new_world "wss://signal" 0) = Some closed_world /\
  inv closed_world /\ (0 <= reconnectAttempts (mgr closed_world))%Z.
Proof.
  split; [vm_compute; reflexivity|].
  apply (reconnect_attempts_nonneg "wss://signal" 0 closed_events). vm_compute. reflexivity.
Defined.
