(* ===== verification/ManagerSpec.v ===== *)
(** * Functional behaviour of the manager

    The outbound path: [send] queues while not ready and writes to the
    current socket otherwise; [flushMessageQueue] empties the queue in
    order, and its fuel (the queue length) is enough; [onopen] drains
    the queue before arming the heartbeat.  The inbound path: [onmessage]
    dispatches to the registered handler and survives malformed frames.
    The reconnection path: [onclose] arms one timeout with the backoff
    delay of the current attempt.  Worlds are those reached by a finite
    run of events from the constructor ([run_events]); every such world
    is [reachable] and satisfies [ManagerInv.inv]. *)

From stdpp Require Import base list gmap strings.
From Stdlib Require Import ZArith Lia.
From S2P Require Import Prelude Json Backoff Browser Manager ManagerInv.

Local Open Scope js_scope.

Section Outbound.
Context {W : Type} `{!JsonCodec W}.
Implicit Types (w : world W).

(** The world with effects [es] appended to the trace. *)
Definition push_trace (es : list (effect W)) w : world W :=
  set_rt (mk_rt (sockets (rt w)) (next_sock (rt w)) (timers (rt w)) (next_timer (rt w))
                (now (rt w)) (trace (rt w) ++ es)) w.

(** The frames [send] writes for the messages [q] on socket [sid]. *)
Definition sends (sid : nat) (q : list Json) : list (effect W) :=
  map (fun m => ESend sid (stringify m)) q.

Lemma push_trace_nil w : push_trace [] w = w.
Proof. destruct w as [g []]. unfold push_trace. simpl. by rewrite app_nil_r. Qed.

Lemma push_trace_app es1 es2 w :
  push_trace es2 (push_trace es1 w) = push_trace (es1 ++ es2) w.
Proof. unfold push_trace. simpl. by rewrite app_assoc. Qed.

Lemma set_queue_same g : set_queue (messageQueue g) g = g.
Proof. by destruct g. Qed.

Lemma set_mgr_same w : set_mgr (mgr w) w = w.
Proof. by destruct w. Qed.

Lemma set_queue_nil_same w : messageQueue (mgr w) = [] -> set_mgr (set_queue [] (mgr w)) w = w.
Proof. intros H. rewrite <- H, set_queue_same. apply set_mgr_same. Qed.

Lemma send_not_ready w m :
  isReady (mgr w) = false ->
  send m w = (Normal tt, set_mgr (set_queue (messageQueue (mgr w) ++ [m]) (mgr w)) w).
Proof. intros H. unfold send, js_bind, mgr_gets, js_gets. by rewrite H. Qed.

Lemma send_ready w m sid :
  isReady (mgr w) = true -> ws (mgr w) = Some sid ->
  send m w = on_rt (ws_send sid (stringify m)) w.
Proof. intros H1 H2. unfold send, js_bind, mgr_gets, js_gets. by rewrite H1, H2. Qed.

Lemma ws_send_open w sid d :
  sockets (rt w) !! sid = Some OPEN ->
  on_rt (ws_send sid d) w = (Normal tt, push_trace [ESend sid d] w).
Proof. intros H. unfold on_rt, ws_send. by rewrite H. Qed.

Lemma ws_send_closing w sid d st :
  sockets (rt w) !! sid = Some st -> st = CLOSING \/ st = CLOSED ->
  on_rt (ws_send sid d) w = (Normal tt, push_trace [EDiscard sid d] w).
Proof. intros H [-> | ->]; unfold on_rt, ws_send; by rewrite H. Qed.

Lemma ws_send_connecting w sid d :
  sockets (rt w) !! sid = Some CONNECTING ->
  on_rt (ws_send sid d) w = (Thrown InvalidStateError, w).
Proof. intros H. unfold on_rt, ws_send. rewrite H. by destruct w. Qed.

(** While ready, [send] leaves the manager's fields alone. *)
Lemma send_ready_mgr w m :
  isReady (mgr w) = true -> mgr (final (send m) w) = mgr w.
Proof.
  intros H. unfold final, send, js_bind, mgr_gets, js_gets. rewrite H.
  destruct (ws (mgr w)); [|done]. unfold on_rt. by destruct (ws_send _ _ _).
Qed.

Lemma mgr_gets_bind {A B} (f : Mgr -> A) (k : A -> js (world W) B) w :
  js_bind (mgr_gets f) k w = k (f (mgr w)) w.
Proof. reflexivity. Qed.

Lemma mgr_modify_bind {B} f (k : unit -> js (world W) B) w :
  js_bind (mgr_modify f) k w = k tt (set_mgr (f (mgr w)) w).
Proof. reflexivity. Qed.

(** [flushMessageQueue]'s loop, on a ready manager whose socket is
    open and with fuel at least the queue length, writes the queued
    messages in order and leaves the queue empty. *)
Lemma flush_loop_open n w sid :
  isReady (mgr w) = true -> ws (mgr w) = Some sid -> sockets (rt w) !! sid = Some OPEN ->
  length (messageQueue (mgr w)) <= n ->
  flush_loop n w =
    (Normal tt, push_trace (sends sid (messageQueue (mgr w))) (set_mgr (set_queue [] (mgr w)) w)).
Proof.
  revert w. induction n as [|n IH]; intros w Hr Hws Hs Hlen;
    destruct (messageQueue (mgr w)) as [|m q] eqn:Hq; simpl in Hlen; try lia.
  - change (sends sid []) with (@nil (effect W)).
    rewrite push_trace_nil, set_queue_nil_same; [reflexivity | exact Hq].
  - change (sends sid []) with (@nil (effect W)).
    rewrite push_trace_nil, set_queue_nil_same; [| exact Hq].
    cbn [flush_loop]. rewrite mgr_gets_bind, Hq. reflexivity.
  - cbn [flush_loop]. rewrite mgr_gets_bind, Hq, mgr_modify_bind.
    set (w1 := set_mgr (set_queue q (mgr w)) w).
    rewrite (js_bind_normal _ _ _ _ _ (eq_trans (send_ready w1 m sid Hr Hws) (ws_send_open w1 sid _ Hs))).
    rewrite IH; [| exact Hr | exact Hws | exact Hs | simpl; lia].
    unfold push_trace, set_mgr, set_rt, set_queue, sends. simpl. by rewrite <- app_assoc.
Qed.

(** C8: more fuel than the queue length changes nothing: while
    [isReady] holds, [send] never re-queues, so the [while] loop of
    [flushMessageQueue] stops after at most [length messageQueue]
    iterations, and the fuel it is given is enough. *)
Theorem flush_loop_fuel_enough n w :
  isReady (mgr w) = true -> length (messageQueue (mgr w)) <= n ->
  flush_loop n w = flush_loop (length (messageQueue (mgr w))) w.
Proof.
  revert w. induction n as [|n IH]; intros w Hr Hlen;
    destruct (messageQueue (mgr w)) as [|m q] eqn:Hq; simpl in Hlen; try lia.
  - reflexivity.
  - cbn [flush_loop length]. rewrite !mgr_gets_bind, Hq. reflexivity.
  - cbn [flush_loop length]. rewrite !mgr_gets_bind, Hq, !mgr_modify_bind.
    set (w1 := set_mgr (set_queue q (mgr w)) w).
    destruct (send m w1) as [[[]|e] w2] eqn:Hs;
      [rewrite !(js_bind_normal _ _ _ _ _ Hs) | by rewrite !(js_bind_thrown _ _ _ _ _ Hs)].
    assert (Hm : mgr w2 = mgr w1).
    { change w2 with (snd (Normal tt, w2)). rewrite <- Hs. by apply send_ready_mgr. }
    rewrite IH; [| rewrite Hm; exact Hr | rewrite Hm; simpl; lia].
    rewrite Hm. reflexivity.
Qed.

Lemma flushMessageQueue_open w sid :
  isReady (mgr w) = true -> ws (mgr w) = Some sid -> sockets (rt w) !! sid = Some OPEN ->
  flushMessageQueue w =
    (Normal tt, push_trace (sends sid (messageQueue (mgr w))) (set_mgr (set_queue [] (mgr w)) w)).
Proof. intros Hr Hws Hs. unfold flushMessageQueue. rewrite mgr_gets_bind. by apply flush_loop_open. Qed.
End Outbound.

Section Open.
Context {W : Type} `{!JsonCodec W}.
Implicit Types (w : world W).

(** Application code that only sends, on a ready manager whose socket
    is open, writes its messages in order. *)
Lemma run_sends_open xs w sid :
  isReady (mgr w) = true -> ws (mgr w) = Some sid -> sockets (rt w) !! sid = Some OPEN ->
  run_actions (map ASend xs) w = (Normal tt, push_trace (sends sid xs) w).
Proof.
  revert w. induction xs as [|x xs IH]; intros w Hr Hws Hs.
  - change (sends sid []) with (@nil (effect W)). by rewrite push_trace_nil.
  - unfold run_actions. cbn [map js_iter run_action].
    rewrite (js_bind_normal _ _ _ _ _ (eq_trans (send_ready w x sid Hr Hws) (ws_send_open w sid _ Hs))).
    fold (run_actions (map ASend xs)). rewrite IH; [| exact Hr | exact Hws | exact Hs].
    by rewrite push_trace_app.
Qed.

(** The [onOpen] callback sends exactly [xs] (nothing when absent). *)
Definition callback_sends (cb : option (list action)) (xs : list Json) : Prop :=
  match cb with
  | None => xs = []
  | Some acts => acts = map ASend xs
  end.

Lemma onOpen_run w sid xs :
  isReady (mgr w) = true -> ws (mgr w) = Some sid -> sockets (rt w) !! sid = Some OPEN ->
  callback_sends (onOpen (mgr w)) xs ->
  (match onOpen (mgr w) with Some acts => run_actions acts | None => js_ret tt end) w =
    (Normal tt, push_trace (sends sid xs) w).
Proof.
  intros Hr Hws Hs Hcb. destruct (onOpen (mgr w)) as [acts|]; simpl in Hcb; subst.
  - by apply run_sends_open.
  - change (sends sid []) with (@nil (effect W)). by rewrite push_trace_nil.
Qed.

(** [onopen] on the manager's open socket: the callback's messages,
    then the queue in order, then a fresh heartbeat interval. *)
Lemma onopen_run w sid xs :
  inv w -> ws (mgr w) = Some sid -> sockets (rt w) !! sid = Some OPEN ->
  callback_sends (onOpen (mgr w)) xs ->
  let w3 := push_trace (sends sid (xs ++ messageQueue (mgr w)))
              (set_mgr (set_queue [] (set_attempts 0 (set_isReady true (mgr w)))) w) in
  onopen w =
    (Normal tt, arm (Repeat 20000) CbHeartbeat 20000 set_heartbeat
                  (set_mgr (set_heartbeat None (mgr w3)) (drop_timer (heartbeatInterval (mgr w3)) w3))).
Proof.
  intros Hw Hws Hs Hcb w3. unfold onopen.
  rewrite mgr_modify_bind; cbv beta. rewrite mgr_modify_bind; cbv beta.
  rewrite (mgr_gets_bind onOpen).
  set (w2 := set_mgr (set_attempts 0 _) _).
  rewrite (js_bind_normal _ _ _ _ _ (onOpen_run w2 sid xs eq_refl Hws Hs Hcb)); cbv beta.
  rewrite (js_bind_normal _ _ _ _ _ (flushMessageQueue_open (push_trace (sends sid xs) w2) sid eq_refl Hws Hs)); cbv beta.
  rewrite startHeartbeat_run; [| exact (inv_timers w Hw) | exact (inv_hb w Hw)].
  f_equal. unfold w3, push_trace, sends. simpl. by rewrite map_app, app_assoc.
Qed.
End Open.

Section OpenStep.
Context {W : Type} `{!JsonCodec W}.
Implicit Types (w : world W).

(** The [open] event of the manager's current socket. *)
Lemma open_step_run w sid xs :
  inv w -> ws (mgr w) = Some sid -> sockets (rt w) !! sid = Some CONNECTING ->
  callback_sends (onOpen (mgr w)) xs ->
  exists w', step_fn (EvOpen sid) w = Some w' /\
    trace (rt w') = trace (rt w) ++ sends sid (xs ++ messageQueue (mgr w)) /\
    messageQueue (mgr w') = [] /\ isReady (mgr w') = true /\ reconnectAttempts (mgr w') = 0%Z /\
    heartbeatInterval (mgr w') = Some (next_timer (rt w)) /\
    timers (rt w') !! next_timer (rt w) =
      Some (mk_timer (now (rt w) + 20000)%Z (Repeat 20000) CbHeartbeat) /\
    ws (mgr w') = Some sid /\ sockets (rt w') !! sid = Some OPEN.
Proof.
  intros Hw Hws Hs Hcb. simpl. unfold env_open. rewrite Hs. eexists; split; [reflexivity|].
  set (w0 := set_rt (set_sockets (<[sid := OPEN]> (sockets (rt w))) (rt w)) w).
  assert (Hw0 : inv w0) by (apply inv_set_sockets, Hw).
  assert (Hs0 : sockets (rt w0) !! sid = Some OPEN) by apply lookup_insert_eq.
  unfold task. rewrite (onopen_run w0 sid xs Hw0 Hws Hs0 Hcb).
  simpl. destruct (heartbeatInterval (mgr w)); simpl; split_and!; try reflexivity; try exact Hws;
    apply lookup_insert_eq.
Qed.
End OpenStep.


Section Close.
Context {W : Type} `{!JsonCodec W}.
Implicit Types (w : world W).

(** [onclose]: not ready, heartbeat stopped, and a reconnection armed
    unless one is pending. *)
Lemma onclose_run w :
  inv w ->
  let w1 := set_mgr (set_isReady false (mgr w)) w in
  let w2 := set_mgr (set_heartbeat None (mgr w1)) (drop_timer (heartbeatInterval (mgr w1)) w1) in
  onclose w =
    (Normal tt,
     match reconnectTimeout (mgr w) with
     | Some _ => w2
     | None =>
         arm Once CbReconnect (reconnect_delay (reconnectAttempts (mgr w))) set_reconnectTimeout
           (set_mgr (set_attempts (reconnectAttempts (mgr w) + 1) (mgr w2)) w2)
     end).
Proof.
  intros Hw w1 w2. unfold onclose. rewrite mgr_modify_bind; cbv beta.
  rewrite (js_bind_normal _ _ _ _ _ (stopHeartbeat_run w1 (inv_timers w Hw) (inv_hb w Hw))).
  rewrite scheduleReconnect_run.
  - reflexivity.
  - unfold w2, w1. simpl.
    destruct (heartbeatInterval (mgr w)); simpl; [apply timers_ok_delete|]; apply (inv_timers w Hw).
  - unfold w2, w1. simpl.
    destruct (heartbeatInterval (mgr w)) eqn:E; simpl; [|apply (inv_rc w Hw)].
    apply tracks_delete_other; [|apply (inv_rc w Hw)].
    apply (tracked_not_other CbHeartbeat); [|done]. rewrite <- E. apply (inv_hb w Hw).
Qed.

(** The [close] event of socket [sid], preceded by [error] when [err]:
    [onerror] only moves the current socket to [CLOSING], so both cases
    reach [onclose] with the same timers and fields. *)
Lemma close_event_run w sid st err :
  inv w -> sockets (rt w) !! sid = Some st -> st <> CLOSED ->
  exists w1, step_fn (EvClose sid err) w = Some (task onclose w1) /\ inv w1 /\ snap w1 = snap w.
Proof.
  intros Hw Hs Hst. simpl. unfold env_closed. rewrite Hs.
  set (w0 := set_rt (set_sockets (<[sid := CLOSED]> (sockets (rt w))) (rt w)) w).
  assert (Hw0 : inv_at (snap w) w0) by (split; [apply inv_set_sockets, Hw | reflexivity]).
  exists (if err then task onerror w0 else w0). split; [by destruct st|].
  destruct err; [|exact Hw0]. exact (task_keeps _ _ _ (fun s => onerror_keeps s) Hw0).
Qed.
(** A [close] event with no reconnection pending: not ready, no
    heartbeat, one more attempt, and one timeout of
    [reconnect_delay attempts] ms armed under the next timer id; the
    clock does not move. *)
Lemma close_arms w sid st err :
  inv w -> sockets (rt w) !! sid = Some st -> st <> CLOSED -> reconnectTimeout (mgr w) = None ->
  exists w', step_fn (EvClose sid err) w = Some w' /\
    isReady (mgr w') = false /\ heartbeatInterval (mgr w') = None /\
    reconnectAttempts (mgr w') = (reconnectAttempts (mgr w) + 1)%Z /\
    reconnectTimeout (mgr w') = Some (next_timer (rt w)) /\
    timers (rt w') !! next_timer (rt w) =
      Some (mk_timer (now (rt w) + reconnect_delay (reconnectAttempts (mgr w)))%Z Once CbReconnect) /\
    now (rt w') = now (rt w).
Proof.
  intros Hw Hs Hst Hrc.
  destruct (close_event_run w sid st err Hw Hs Hst) as (w1 & -> & Hw1 & Hsn).
  eexists; split; [reflexivity|]. unfold task. rewrite (onclose_run w1 Hw1).
  unfold snap in Hsn. injection Hsn as E1 E2 E3 E4 E5 E6 E7. rewrite E5, Hrc.
  pose proof (inv_attempts w Hw) as Ha.
  simpl. destruct (heartbeatInterval (mgr w1)); simpl; rewrite ?E2, ?E3, ?E7, reconnect_delay_pos by exact Ha;
    split_and!; try reflexivity; apply lookup_insert_eq.
Qed.

(** [onerror] after [this.ws] closed: [ws.close()] does nothing. *)
Lemma onerror_closed w sid :
  ws (mgr w) = Some sid -> sockets (rt w) !! sid = Some CLOSED -> task onerror w = w.
Proof.
  intros Hws Hs. unfold task, onerror, mgr_gets, js_bind, js_gets. rewrite Hws.
  unfold on_rt, ws_close. rewrite Hs. by destruct w.
Qed.

End Close.

Lemma set_rt_same {W} (w : world W) : set_rt (rt w) w = w.
Proof. by destruct w. Qed.

Lemma on_rt_gets {W A} (f : runtime callback W -> A) (w : world W) :
  on_rt (js_gets f) w = (Normal (f (rt w)), w).
Proof. by destruct w. Qed.


(** ** Concrete worlds used by the witnesses *)

(** The peer starts closing the open socket of [open_world]. *)
Definition closing_world : world frame :=
  world_or_init (run_events (open_events ++ [EvClosing 0]) (new_world "wss://signal" 0)).

(** After [closed_world], the presentation layer connects again while the
    reconnection is pending. *)
Definition pending_events : list (event (W := frame)) := closed_events ++ [EvCall CallConnect].

Definition pending_world : world frame :=
  world_or_init (run_events pending_events (new_world "wss://signal" 0)).

(** A handler that answers every offer. *)
Definition answer_offer : handler := fun _ => [ASend (JObj [("type", JStr "answer")])].

Definition handler_events : list (event (W := frame)) :=
  open_events ++ [EvCall (CallOnMessage "offer" answer_offer)].

Definition handler_world : world frame :=
  world_or_init (run_events handler_events (new_world "wss://signal" 0)).

Section SpecClaims.
Context {W : Type} `{!JsonCodec W}.
Implicit Types (w : world W).

(** C1: when the manager's socket opens (no [onOpen] callback), every
    message queued while not ready is written to it exactly once, in
    queue order, the queue is emptied, the attempt counter is reset and
    one heartbeat interval of 20000 ms is armed. *)
Theorem open_drains_queue_fifo u t0 evs w sid :
  run_events evs (new_world u t0) = Some w ->
  ws (mgr w) = Some sid -> sockets (rt w) !! sid = Some CONNECTING -> onOpen (mgr w) = None ->
  exists w', step_fn (EvOpen sid) w = Some w' /\
    trace (rt w') = trace (rt w) ++ sends sid (messageQueue (mgr w)) /\
    messageQueue (mgr w') = [] /\ isReady (mgr w') = true /\ reconnectAttempts (mgr w') = 0%Z /\
    heartbeatInterval (mgr w') = Some (next_timer (rt w)) /\
    timers (rt w') !! next_timer (rt w) =
      Some (mk_timer (now (rt w) + 20000)%Z (Repeat 20000) CbHeartbeat).
Proof.
  intros Hrun Hws Hs Hcb.
  pose proof (reachable_inv _ (run_events_reachable _ _ _ _ Hrun)) as Hw.
  assert (Hcb' : callback_sends (onOpen (mgr w)) []) by (rewrite Hcb; reflexivity).
  destruct (open_step_run w sid [] Hw Hws Hs Hcb') as (w' & H1 & H2 & H3 & H4 & H5 & H6 & H7 & _).
  exists w'. split_and!; assumption.
Qed.

(** C5: the [close] event of a socket that is not yet closed, with no
    reconnection pending, leaves the manager not ready with no heartbeat,
    counts one more attempt and arms one timeout of
    [reconnect_delay attempts] ms. *)
Theorem close_schedules_reconnect u t0 evs w sid st err :
  run_events evs (new_world u t0) = Some w ->
  sockets (rt w) !! sid = Some st -> st <> CLOSED -> reconnectTimeout (mgr w) = None ->
  exists w', step_fn (EvClose sid err) w = Some w' /\
    isReady (mgr w') = false /\ heartbeatInterval (mgr w') = None /\
    reconnectAttempts (mgr w') = (reconnectAttempts (mgr w) + 1)%Z /\
    reconnectTimeout (mgr w') = Some (next_timer (rt w)) /\
    timers (rt w') !! next_timer (rt w) =
      Some (mk_timer (now (rt w) + reconnect_delay (reconnectAttempts (mgr w)))%Z Once CbReconnect).
Proof.
  intros Hrun Hs Hst Hrc.
  destruct (close_arms w sid st err (reachable_inv _ (run_events_reachable _ _ _ _ Hrun)) Hs Hst Hrc)
    as (w' & ? & ? & ? & ? & ? & ? & _). by exists w'.
Qed.

(** C6: a [close] event while a reconnection is pending arms nothing and
    does not count an attempt: at most one reconnection is in flight,
    however many sockets close. *)
Theorem close_while_pending_no_timer u t0 evs w sid st err id :
  run_events evs (new_world u t0) = Some w ->
  sockets (rt w) !! sid = Some st -> st <> CLOSED -> reconnectTimeout (mgr w) = Some id ->
  exists w', step_fn (EvClose sid err) w = Some w' /\
    isReady (mgr w') = false /\ heartbeatInterval (mgr w') = None /\
    reconnectTimeout (mgr w') = Some id /\
    reconnectAttempts (mgr w') = reconnectAttempts (mgr w) /\
    next_timer (rt w') = next_timer (rt w).
Proof.
  intros Hrun Hs Hst Hrc.
  pose proof (reachable_inv _ (run_events_reachable _ _ _ _ Hrun)) as Hw.
  destruct (close_event_run w sid st err Hw Hs Hst) as (w1 & -> & Hw1 & Hsn).
  eexists; split; [reflexivity|]. unfold task. rewrite (onclose_run w1 Hw1).
  unfold snap in Hsn. injection Hsn as E1 E2 E3 E4 E5 E6 E7. rewrite E5, Hrc.
  simpl. destruct (heartbeatInterval (mgr w1)); simpl; rewrite ?E2, ?E5, ?E7, ?Hrc; split_and!; reflexivity.
Qed.

(** C9: the inbound error paths that throw.  A frame [JSON.parse]
    rejects throws a [SyntaxError] out of [onmessage]; a frame holding the
    JSON value [null] passes [JSON.parse] and then throws a [TypeError] at
    [message.type].  Either is reported and nothing else changes, so the
    next frames are dispatched as before. *)
Theorem malformed_frame_harmless w sid data :
  sockets (rt w) !! sid = Some OPEN ->
  (parse data = None -> step_fn (EvMessage sid data) w = Some (push_trace [EUncaught SyntaxError] w)) /\
  (parse data = Some JNull -> step_fn (EvMessage sid data) w = Some (push_trace [EUncaught TypeError] w)).
Proof. intros Hs. simpl. rewrite Hs. unfold task, onmessage. split; intros Hp; by rewrite Hp. Qed.

(** C10: a frame whose [type] names a registered handler runs that
    handler, once, on the decoded message. *)
Theorem dispatch_to_handler w sid data msg k h :
  sockets (rt w) !! sid = Some OPEN -> parse data = Some msg ->
  get_prop "type" msg = Normal (Some (JStr k)) -> messageHandlers (mgr w) !! k = Some h ->
  step_fn (EvMessage sid data) w = Some (task (run_actions (h msg)) w).
Proof.
  intros Hs Hp Ht Hh. simpl. rewrite Hs. unfold onmessage. rewrite Hp, Ht.
  unfold task. rewrite mgr_gets_bind. simpl. by rewrite Hh.
Qed.

(** C11: a frame whose [type] has no handler is reported
    ([console.log('Mensaje desconocido', ...)]) and dropped. *)
Theorem unknown_type_reported w sid data msg ty :
  sockets (rt w) !! sid = Some OPEN -> parse data = Some msg -> get_prop "type" msg = Normal ty ->
  (forall k, handler_key ty = Some k -> messageHandlers (mgr w) !! k = None) ->
  step_fn (EvMessage sid data) w = Some (push_trace [EUnknownType ty] w).
Proof.
  intros Hs Hp Ht Hh. simpl. rewrite Hs. unfold task, onmessage. rewrite Hp, Ht, mgr_gets_bind; cbv beta.
  destruct (handler_key ty) as [k|] eqn:Ek; [rewrite (Hh k eq_refl)|]; reflexivity.
Qed.

End SpecClaims.

Section SpecClaims2.
Context {W : Type} `{!JsonCodec W}.
Implicit Types (w : world W).

(** The heartbeat interval's callback writes the ping envelope
    [{type: '__ping__', ts: Date.now()}] to [this.ws] when that socket is
    [OPEN], and does nothing otherwise. *)
Lemma heartbeat_tick_run w sid st :
  ws (mgr w) = Some sid -> sockets (rt w) !! sid = Some st ->
  heartbeat_tick w =
    (Normal tt, if bool_decide (st = OPEN)
                then push_trace [ESend sid (stringify (ping_msg (now (rt w))))] w else w).
Proof.
  intros Hws Hs. unfold heartbeat_tick. rewrite mgr_gets_bind, Hws. cbv beta iota.
  unfold ws_ready_state. rewrite (js_bind_normal _ _ _ _ _ (on_rt_gets _ w)). cbv beta.
  rewrite Hs. destruct st; try reflexivity. cbn [bool_decide decide_rel].
  rewrite !bool_decide_true by done. unfold js_catch, date_now. cbv beta.
  rewrite (js_bind_normal _ _ _ _ _ (on_rt_gets _ w)). cbv beta. by rewrite ws_send_open.
Qed.

(** The heartbeat interval of an open manager fires. *)
Lemma heartbeat_event_run w id tm sid :
  timers (rt w) !! id = Some tm -> t_cb tm = CbHeartbeat ->
  (now (rt w) <= t_due tm)%Z -> no_timer_before (t_due tm) (rt w) = true ->
  ws (mgr w) = Some sid -> sockets (rt w) !! sid = Some OPEN ->
  step_fn (EvTimer id) w =
    Some (let w1 := push_trace [ESend sid (stringify (ping_msg (t_due tm)))]
                      (set_rt (set_now (t_due tm) (rt w)) w) in
          set_rt (timer_after id (rt w1)) w1).
Proof.
  intros Hl Hcb Hle Hn Hws Hs. simpl. unfold env_due. rewrite Hl, bool_decide_true by exact Hle.
  rewrite Hn. simpl andb. cbv iota. rewrite Hcb. unfold task. cbn [run_callback].
  by rewrite (heartbeat_tick_run (set_rt (set_now (t_due tm) (rt w)) w) sid OPEN Hws Hs).
Qed.

(** The heartbeat interval, when it is the next timer and the socket is
    open, pings and is due again 20000 ms later, leaving the manager and
    the sockets alone. *)
Lemma heartbeat_step w id tm sid :
  inv w -> timers (rt w) !! id = Some tm -> t_cb tm = CbHeartbeat ->
  no_timer_before (t_due tm) (rt w) = true ->
  ws (mgr w) = Some sid -> sockets (rt w) !! sid = Some OPEN ->
  exists w', step_fn (EvTimer id) w = Some w' /\
    trace (rt w') = trace (rt w) ++ sends sid [ping_msg (t_due tm)] /\
    now (rt w') = t_due tm /\
    timers (rt w') !! id = Some (mk_timer (t_due tm + 20000)%Z (Repeat 20000) CbHeartbeat) /\
    mgr w' = mgr w /\ sockets (rt w') = sockets (rt w).
Proof.
  intros Hw Hl Hcb Hn Hws Hs.
  destruct (proj2 (inv_timers w Hw) id tm Hl) as (_ & Hle & Hk).
  rewrite (heartbeat_event_run w id tm sid Hl Hcb Hle Hn Hws Hs). eexists; split; [reflexivity|].
  unfold timer_after. simpl. rewrite Hl. destruct tm as [d k cb]. simpl in *. subst k cb.
  split_and!; [reflexivity | reflexivity | apply lookup_insert_eq | reflexivity | reflexivity].
Qed.

(** C19: the [onOpen] callback runs before [flushMessageQueue] with
    [isReady] already set, so the messages it sends reach the socket
    before the queued backlog. *)
Theorem open_callback_sends_first u t0 evs w sid xs :
  run_events evs (new_world u t0) = Some w ->
  ws (mgr w) = Some sid -> sockets (rt w) !! sid = Some CONNECTING ->
  onOpen (mgr w) = Some (map ASend xs) ->
  exists w', step_fn (EvOpen sid) w = Some w' /\
    trace (rt w') = trace (rt w) ++ sends sid (xs ++ messageQueue (mgr w)).
Proof.
  intros Hrun Hws Hs Hcb.
  pose proof (reachable_inv _ (run_events_reachable _ _ _ _ Hrun)) as Hw.
  assert (Hcb' : callback_sends (onOpen (mgr w)) xs) by (rewrite Hcb; reflexivity).
  destruct (open_step_run w sid xs Hw Hws Hs Hcb') as (w' & Hstep & Htr & _). eauto.
Qed.

(** C20: [send] consults [isReady], not the socket: between the start of
    a close (by the peer, or [onerror]'s [ws.close()]) and the [close]
    event, a sent message is handed to a [CLOSING] socket, which discards
    it; it is neither written nor queued. *)
Theorem send_while_closing_discards w m sid st :
  isReady (mgr w) = true -> ws (mgr w) = Some sid -> sockets (rt w) !! sid = Some st ->
  st = CLOSING \/ st = CLOSED ->
  step_fn (EvCall (CallSend m)) w = Some (push_trace [EDiscard sid (stringify m)] w).
Proof.
  intros Hr Hws Hs Hst. simpl. unfold task.
  by rewrite (send_ready w m sid Hr Hws), (ws_send_closing w sid _ st Hs Hst).
Qed.

(** A timer that is the next one due fires: the clock moves to its due
    time and its callback runs. *)
Lemma timer_event_run w id tm :
  timers (rt w) !! id = Some tm -> (now (rt w) <= t_due tm)%Z ->
  no_timer_before (t_due tm) (rt w) = true ->
  step_fn (EvTimer id) w =
    Some (let w1 := task (run_callback (t_cb tm)) (set_rt (set_now (t_due tm) (rt w)) w) in
          set_rt (timer_after id (rt w1)) w1).
Proof. intros Hl Hle Hn. simpl. unfold env_due. rewrite Hl, bool_decide_true by exact Hle. by rewrite Hn. Qed.

(** No timer callback creates a timer: [heartbeat_tick] only writes to
    the socket and [reconnect_fire] only creates one.  So every timer the
    manager arms is created by a socket event or a call of the page, at
    timer nesting level 0, and the clamping of nested timers in the HTML
    timer initialisation steps never applies. *)
Lemma callback_arms_no_timer cb w :
  inv w -> next_timer (rt (task (run_callback cb) w)) = next_timer (rt w).
Proof.
  intros Hw. destruct cb; cbn [run_callback].
  - destruct (task_keeps _ _ w heartbeat_tick_keeps (conj Hw eq_refl)) as [_ E].
    unfold snap in E. by injection E.
  - unfold task. by rewrite reconnect_fire_run.
Qed.

(** The pending reconnection of a world with no heartbeat fires: it is
    the next timer; its expiry clears the field, removes the timeout and
    installs a new [CONNECTING] socket as [this.ws], leaving the other
    fields alone. *)
Lemma reconnect_step w id :
  inv w -> heartbeatInterval (mgr w) = None -> reconnectTimeout (mgr w) = Some id ->
  exists tm w', timers (rt w) !! id = Some tm /\ step_fn (EvTimer id) w = Some w' /\
    now (rt w') = t_due tm /\ reconnectTimeout (mgr w') = None /\ timers (rt w') !! id = None /\
    ws (mgr w') = Some (next_sock (rt w)) /\ sockets (rt w') !! next_sock (rt w) = Some CONNECTING /\
    heartbeatInterval (mgr w') = None /\ reconnectAttempts (mgr w') = reconnectAttempts (mgr w) /\
    mgr w' = set_ws (Some (next_sock (rt w))) (set_reconnectTimeout None (mgr w)) /\
    trace (rt w') = trace (rt w).
Proof.
  intros Hw Hhb Hrc.
  destruct (proj2 (inv_rc w Hw id) Hrc) as (tm & Hl & Hcb).
  destruct (proj2 (inv_timers w Hw) id tm Hl) as (_ & Hle & Hk). rewrite Hcb in Hk.
  assert (Hn : no_timer_before (t_due tm) (rt w) = true).
  { apply (sole_timer_next w id tm Hw Hl). intros id' tm' Hl'.
    destruct (timer_recorded w id' tm' Hw Hl') as [E|E]; congruence. }
  rewrite (timer_event_run w id tm Hl Hle Hn), Hcb. exists tm. eexists; split; [exact Hl|].
  split; [reflexivity|]. cbn [run_callback]. unfold task. rewrite reconnect_fire_run.
  unfold timer_after. simpl. rewrite Hl. destruct tm as [d k cb]. simpl in *. subst k.
  split_and!; [reflexivity | reflexivity | apply lookup_delete_eq | reflexivity | apply lookup_insert_eq
              | exact Hhb | reflexivity | reflexivity | reflexivity].
Qed.

(** C34: the reconnection happens: after a close (no heartbeat, a
    reconnection pending) the pending timeout is the next timer; when it
    fires the field is cleared, the timeout is gone, and a new socket,
    [CONNECTING], is [this.ws]. *)
Theorem reconnect_fires u t0 evs w id :
  run_events evs (new_world u t0) = Some w ->
  heartbeatInterval (mgr w) = None -> reconnectTimeout (mgr w) = Some id ->
  exists tm w', timers (rt w) !! id = Some tm /\ step_fn (EvTimer id) w = Some w' /\
    now (rt w') = t_due tm /\ reconnectTimeout (mgr w') = None /\ timers (rt w') !! id = None /\
    ws (mgr w') = Some (next_sock (rt w)) /\ sockets (rt w') !! next_sock (rt w) = Some CONNECTING.
Proof.
  intros Hrun Hhb Hrc.
  destruct (reconnect_step w id (reachable_inv _ (run_events_reachable _ _ _ _ Hrun)) Hhb Hrc)
    as (tm & w' & ? & ? & ? & ? & ? & ? & ? & _). exists tm, w'. by split_and!.
Qed.

(** C35: the keep-alive sustains itself: while [this.ws] is open, a
    heartbeat interval is recorded and no reconnection is pending, the
    interval is the next timer, its expiry pings, and the world reached
    satisfies the same conditions, with the interval due 20000 ms later. *)
Theorem heartbeat_self_sustaining u t0 evs w id sid :
  run_events evs (new_world u t0) = Some w ->
  heartbeatInterval (mgr w) = Some id -> reconnectTimeout (mgr w) = None ->
  ws (mgr w) = Some sid -> sockets (rt w) !! sid = Some OPEN ->
  exists tm w', timers (rt w) !! id = Some tm /\
    run_events (evs ++ [EvTimer id]) (new_world u t0) = Some w' /\
    trace (rt w') = trace (rt w) ++ sends sid [ping_msg (t_due tm)] /\
    timers (rt w') !! id = Some (mk_timer (t_due tm + 20000)%Z (Repeat 20000) CbHeartbeat) /\
    heartbeatInterval (mgr w') = Some id /\ reconnectTimeout (mgr w') = None /\
    ws (mgr w') = Some sid /\ sockets (rt w') !! sid = Some OPEN.
Proof.
  intros Hrun Hhb Hrc Hws Hs. pose proof (reachable_inv _ (run_events_reachable _ _ _ _ Hrun)) as Hw.
  destruct (proj2 (inv_hb w Hw id) Hhb) as (tm & Hl & Hcb).
  assert (Hn : no_timer_before (t_due tm) (rt w) = true).
  { apply (sole_timer_next w id tm Hw Hl). intros id' tm' Hl'.
    destruct (timer_recorded w id' tm' Hw Hl') as [E|E]; congruence. }
  destruct (heartbeat_step w id tm sid Hw Hl Hcb Hn Hws Hs) as (w' & Hstep & Htr & _ & Htm & Hm & Hso).
  exists tm, w'. rewrite run_events_app, Hrun. cbn [run_events]. rewrite Hstep, Hm, Hso.
  split_and!; done.
Qed.
(** A [flushMessageQueue] on a manager that is ready while [this.ws] is
    still connecting: the first message is shifted off, and [ws.send]
    throws before it is written. *)
Lemma flush_stale w s2 m rest :
  isReady (mgr w) = true -> ws (mgr w) = Some s2 -> sockets (rt w) !! s2 = Some CONNECTING ->
  messageQueue (mgr w) = m :: rest ->
  flushMessageQueue w = (Thrown InvalidStateError, set_mgr (set_queue rest (mgr w)) w).
Proof.
  intros Hr Hws Hs Hq. unfold flushMessageQueue. rewrite mgr_gets_bind, Hq.
  cbn [length flush_loop]. rewrite mgr_gets_bind, Hq. cbv iota. rewrite mgr_modify_bind. cbv beta.
  apply js_bind_thrown. rewrite (send_ready _ m s2) by done. by apply ws_send_connecting.
Qed.

(** C22: the [open] of a socket that is no longer [this.ws] (a second
    [connect] ran before it opened): its [onopen] sets [isReady] although
    [this.ws] is still [CONNECTING]; [flushMessageQueue] shifts the first
    queued message and [ws.send] throws [InvalidStateError], so that
    message is lost (neither written nor queued), the rest stays queued,
    the exception is reported, no heartbeat is armed, and [this.ws] is
    still connecting. *)
Theorem stale_open_loses_message w s1 s2 m rest :
  ws (mgr w) = Some s2 -> s1 <> s2 -> sockets (rt w) !! s1 = Some CONNECTING ->
  sockets (rt w) !! s2 = Some CONNECTING -> onOpen (mgr w) = None ->
  messageQueue (mgr w) = m :: rest ->
  exists w', step_fn (EvOpen s1) w = Some w' /\
    isReady (mgr w') = true /\ messageQueue (mgr w') = rest /\
    trace (rt w') = trace (rt w) ++ [EUncaught InvalidStateError] /\
    heartbeatInterval (mgr w') = heartbeatInterval (mgr w) /\
    sockets (rt w') !! s1 = Some OPEN /\ sockets (rt w') !! s2 = Some CONNECTING.
Proof.
  intros Hws Hne Hs1 Hs2 Hcb Hq. simpl. unfold env_open. rewrite Hs1. eexists; split; [reflexivity|].
  set (w0 := set_rt (set_sockets (<[s1 := OPEN]> (sockets (rt w))) (rt w)) w).
  assert (Hs2' : sockets (rt w0) !! s2 = Some CONNECTING) by (simpl; rewrite lookup_insert_ne; congruence).
  unfold task, onopen. rewrite !mgr_modify_bind; cbv beta. rewrite (mgr_gets_bind onOpen). simpl onOpen.
  rewrite Hcb, js_bind_ret.
  set (w1 := set_mgr (set_attempts 0 (mgr (set_mgr (set_isReady true (mgr w0)) w0)))
                     (set_mgr (set_isReady true (mgr w0)) w0)).
  rewrite (js_bind_thrown _ _ _ _ _ (flush_stale w1 s2 m rest eq_refl Hws Hs2' Hq)).
  simpl. split_and!; try reflexivity; [rewrite lookup_insert_eq | rewrite lookup_insert_ne by congruence]; done.
Qed.
End SpecClaims2.

(** Two messages queued, then a second [connect] before the first socket
    opens; [stale_world] is after the first socket's [open]. *)
Definition two_connects_events : list (event (W := frame)) :=
  [EvCall (CallSend msg_join); EvCall (CallSend msg_offer); EvCall CallConnect; EvCall CallConnect].

Definition two_connects_world : world frame :=
  world_or_init (run_events two_connects_events (new_world "wss://signal" 0)).

Definition stale_events : list (event (W := frame)) := two_connects_events ++ [EvOpen 0].

Definition stale_world : world frame :=
  world_or_init (run_events stale_events (new_world "wss://signal" 0)).

(** ** Witnesses *)

Lemma open_drains_queue_fifo_witness :
  (run_events queued_events (new_world "wss://signal" 0) = Some queued_world /\
   ws (mgr queued_world) = Some 0 /\ sockets (rt queued_world) !! 0 = Some CONNECTING /\
   onOpen (mgr queued_world) = None) /\
  exists w', step_fn (EvOpen 0) queued_world = Some w' /\
    trace (rt w') = trace (rt queued_world) ++ sends 0 (messageQueue (mgr queued_world)) /\
    messageQueue (mgr w') = [] /\ isReady (mgr w') = true /\ reconnectAttempts (mgr w') = 0%Z /\
    heartbeatInterval (mgr w') = Some (next_timer (rt queued_world)) /\
    timers (rt w') !! next_timer (rt queued_world) =
      Some (mk_timer (now (rt queued_world) + 20000)%Z (Repeat 20000) CbHeartbeat).
Proof.
  split; [split_and!; vm_compute; reflexivity|].
  apply (open_drains_queue_fifo "wss://signal" 0 queued_events); vm_compute; reflexivity.
Defined.

Lemma close_schedules_reconnect_witness :
  (run_events open_events (new_world "wss://signal" 0) = Some open_world /\
   sockets (rt open_world) !! 0 = Some OPEN /\ OPEN <> CLOSED /\
   reconnectTimeout (mgr open_world) = None) /\
  exists w', step_fn (EvClose 0 false) open_world = Some w' /\
    isReady (mgr w') = false /\ heartbeatInterval (mgr w') = None /\
    reconnectAttempts (mgr w') = (reconnectAttempts (mgr open_world) + 1)%Z /\
    reconnectTimeout (mgr w') = Some (next_timer (rt open_world)) /\
    timers (rt w') !! next_timer (rt open_world) =
      Some (mk_timer (now (rt open_world) + reconnect_delay (reconnectAttempts (mgr open_world)))%Z
              Once CbReconnect).
Proof.
  split; [split_and!; [vm_compute; reflexivity | vm_compute; reflexivity | discriminate |
                       vm_compute; reflexivity]|].
  apply (close_schedules_reconnect "wss://signal" 0 open_events open_world 0 OPEN false);
    [vm_compute; reflexivity | vm_compute; reflexivity | discriminate | vm_compute; reflexivity].
Defined.

Lemma close_while_pending_no_timer_witness :
  (run_events pending_events (new_world "wss://signal" 0) = Some pending_world /\
   sockets (rt pending_world) !! 1 = Some CONNECTING /\ CONNECTING <> CLOSED /\
   reconnectTimeout (mgr pending_world) = Some 2) /\
  exists w', step_fn (EvClose 1 true) pending_world = Some w' /\
    isReady (mgr w') = false /\ heartbeatInterval (mgr w') = None /\
    reconnectTimeout (mgr w') = Some 2 /\
    reconnectAttempts (mgr w') = reconnectAttempts (mgr pending_world) /\
    next_timer (rt w') = next_timer (rt pending_world).
Proof.
  split; [split_and!; [vm_compute; reflexivity | vm_compute; reflexivity | discriminate |
                       vm_compute; reflexivity]|].
  apply (close_while_pending_no_timer "wss://signal" 0 pending_events pending_world 1 CONNECTING true 2);
    [vm_compute; reflexivity | vm_compute; reflexivity | discriminate | vm_compute; reflexivity].
Defined.

Lemma flush_loop_fuel_enough_witness :
  (isReady (mgr stale_world) = true /\ length (messageQueue (mgr stale_world)) <= 3) /\
  flush_loop 3 stale_world = flush_loop (length (messageQueue (mgr stale_world))) stale_world.
Proof.
  split; [split; vm_compute; [reflexivity | lia]|].
  apply flush_loop_fuel_enough; vm_compute; [reflexivity | lia].
Defined.

Lemma malformed_frame_harmless_witness :
  (sockets (rt open_world) !! 0 = Some OPEN /\ parse (FMalformed "{") = None /\
   parse (FText JNull) = Some JNull) /\
  step_fn (EvMessage 0 (FMalformed "{")) open_world =
    Some (push_trace [EUncaught SyntaxError] open_world) /\
  step_fn (EvMessage 0 (FText JNull)) open_world = Some (push_trace [EUncaught TypeError] open_world).
Proof.
  split; [split_and!; vm_compute; reflexivity|].
  split; [apply (malformed_frame_harmless open_world 0 (FMalformed "{")) |
          apply (malformed_frame_harmless open_world 0 (FText JNull))]; vm_compute; reflexivity.
Defined.

Lemma dispatch_to_handler_witness :
  (sockets (rt handler_world) !! 0 = Some OPEN /\ parse (FText msg_offer) = Some msg_offer /\
   get_prop "type" msg_offer = Normal (Some (JStr "offer")) /\
   messageHandlers (mgr handler_world) !! "offer" = Some answer_offer) /\
  step_fn (EvMessage 0 (FText msg_offer)) handler_world =
    Some (task (run_actions (answer_offer msg_offer)) handler_world).
Proof.
  split; [split_and!; vm_compute; reflexivity|].
  apply (dispatch_to_handler _ _ _ msg_offer "offer"); vm_compute; reflexivity.
Defined.

Lemma unknown_type_reported_witness :
  (sockets (rt open_world) !! 0 = Some OPEN /\ parse (FText msg_hello) = Some msg_hello /\
   get_prop "type" msg_hello = Normal (Some (JStr "hello")) /\
   (forall k, handler_key (Some (JStr "hello")) = Some k -> messageHandlers (mgr open_world) !! k = None)) /\
  step_fn (EvMessage 0 (FText msg_hello)) open_world =
    Some (push_trace [EUnknownType (Some (JStr "hello"))] open_world).
Proof.
  assert (Hk : forall k, handler_key (Some (JStr "hello")) = Some k ->
                         messageHandlers (mgr open_world) !! k = None)
    by (intros k [= <-]; vm_compute; reflexivity).
  split; [split_and!; [vm_compute; reflexivity | vm_compute; reflexivity | vm_compute; reflexivity | exact Hk]|].
  apply unknown_type_reported with msg_hello; [vm_compute; reflexivity | vm_compute; reflexivity |
                                                vm_compute; reflexivity | exact Hk].
Defined.

Lemma open_callback_sends_first_witness :
  (run_events greeting_events (new_world "wss://signal" 0) = Some greeting_world /\
   ws (mgr greeting_world) = Some 0 /\ sockets (rt greeting_world) !! 0 = Some CONNECTING /\
   onOpen (mgr greeting_world) = Some (map ASend [msg_hello])) /\
  exists w', step_fn (EvOpen 0) greeting_world = Some w' /\
    trace (rt w') = trace (rt greeting_world) ++ sends 0 ([msg_hello] ++ messageQueue (mgr greeting_world)).
Proof.
  split; [split_and!; vm_compute; reflexivity|].
  apply (open_callback_sends_first "wss://signal" 0 greeting_events); vm_compute; reflexivity.
Defined.

Lemma send_while_closing_discards_witness :
  (isReady (mgr closing_world) = true /\ ws (mgr closing_world) = Some 0 /\
   sockets (rt closing_world) !! 0 = Some CLOSING /\ (CLOSING = CLOSING \/ CLOSING = CLOSED)) /\
  step_fn (EvCall (CallSend msg_join)) closing_world =
    Some (push_trace [EDiscard 0 (stringify msg_join)] closing_world).
Proof.
  split; [split_and!; [vm_compute; reflexivity | vm_compute; reflexivity | vm_compute; reflexivity | left; reflexivity]|].
  apply (send_while_closing_discards closing_world msg_join 0 CLOSING);
    [vm_compute; reflexivity | vm_compute; reflexivity | vm_compute; reflexivity | left; reflexivity].
Defined.

Lemma reconnect_fires_witness :
  (run_events closed_events (new_world "wss://signal" 0) = Some closed_world /\
   heartbeatInterval (mgr closed_world) = None /\ reconnectTimeout (mgr closed_world) = Some 2) /\
  exists tm w', timers (rt closed_world) !! 2 = Some tm /\ step_fn (EvTimer 2) closed_world = Some w' /\
    now (rt w') = t_due tm /\ reconnectTimeout (mgr w') = None /\ timers (rt w') !! 2 = None /\
    ws (mgr w') = Some (next_sock (rt closed_world)) /\
    sockets (rt w') !! next_sock (rt closed_world) = Some CONNECTING.
Proof.
  split; [split_and!; vm_compute; reflexivity|].
  apply (reconnect_fires "wss://signal" 0 closed_events); vm_compute; reflexivity.
Defined.

Lemma heartbeat_self_sustaining_witness :
  (run_events open_events (new_world "wss://signal" 0) = Some open_world /\
   heartbeatInterval (mgr open_world) = Some 1 /\ reconnectTimeout (mgr open_world) = None /\
   ws (mgr open_world) = Some 0 /\ sockets (rt open_world) !! 0 = Some OPEN) /\
  exists tm w', timers (rt open_world) !! 1 = Some tm /\
    run_events (open_events ++ [EvTimer 1]) (new_world "wss://signal" 0) = Some w' /\
    trace (rt w') = trace (rt open_world) ++ sends 0 [ping_msg (t_due tm)] /\
    timers (rt w') !! 1 = Some (mk_timer (t_due tm + 20000)%Z (Repeat 20000) CbHeartbeat) /\
    heartbeatInterval (mgr w') = Some 1 /\ reconnectTimeout (mgr w') = None /\
    ws (mgr w') = Some 0 /\ sockets (rt w') !! 0 = Some OPEN.
Proof.
  split; [split_and!; vm_compute; reflexivity|].
  apply (heartbeat_self_sustaining "wss://signal" 0 open_events); vm_compute; reflexivity.
Defined.

Lemma stale_open_loses_message_witness :
  (ws (mgr two_connects_world) = Some 1 /\ 0 <> 1 /\
   sockets (rt two_connects_world) !! 0 = Some CONNECTING /\
   sockets (rt two_connects_world) !! 1 = Some CONNECTING /\ onOpen (mgr two_connects_world) = None /\
   messageQueue (mgr two_connects_world) = msg_join :: [msg_offer]) /\
  exists w', step_fn (EvOpen 0) two_connects_world = Some w' /\
    isReady (mgr w') = true /\ messageQueue (mgr w') = [msg_offer] /\
    trace (rt w') = trace (rt two_connects_world) ++ [EUncaught InvalidStateError] /\
    heartbeatInterval (mgr w') = heartbeatInterval (mgr two_connects_world) /\
    sockets (rt w') !! 0 = Some OPEN /\ sockets (rt w') !! 1 = Some CONNECTING.
Proof.
  split; [split_and!; try lia; vm_compute; reflexivity|].
  apply (stale_open_loses_message two_connects_world 0 1 msg_join [msg_offer]);
    [vm_compute; reflexivity | lia | vm_compute; reflexivity ..].
Defined.
