(* ===== verification/Retry.v ===== *)
(** * Reconnection under repeated failure

    [onclose] (lines 44-49) always calls [scheduleReconnect()] (lines
    112-122), whose timeout callback calls [connect()] again (line 120).
    When every new socket fails before it opens (the browser fires
    [error], then [close]), the manager goes round the cycle

      timeout fires -> [connect()] -> [error] -> [ws.close()] -> [close]
      -> [scheduleReconnect()]

    for ever.  [retry_cycle] computes one turn of it from the lemmas of
    [ManagerSpec] ([reconnect_step], [close_arms]); [retries_forever]
    (C16) iterates it [k] times: after [k] failed attempts, reached by
    timer expiries and socket failures only, a reconnection is still
    pending, the counter has grown by [k], and the pending timeout is due
    [retry_wait] ms after the first, the sum of the [k] delays of the
    backoff.  The manager never gives up, and (by [Backoff]) it waits at
    most 15 s between two attempts. *)

From stdpp Require Import base list gmap strings.
From Stdlib Require Import ZArith Lia.
From S2P Require Import Prelude Json Backoff Browser Manager ManagerInv ManagerSpec.

(** The time from the first attempt to the [k]-th next one, when the
    counter starts at [n]: the sum of the [k] delays. *)
Fixpoint retry_wait (n : Z) (k : nat) : Z :=
  match k with
  | O => 0
  | S k' => reconnect_delay n + retry_wait (n + 1) k'
  end.

(** An event that comes from the clock or from the network failing, not
    from the application. *)
Definition failure_event {W} (e : event (W := W)) : bool :=
  match e with
  | EvTimer _ | EvClose _ true => true
  | _ => false
  end.

(** ** Lemmas *)

Lemma retry_wait_bounds n k : (0 <= n)%Z ->
  (1000 * Z.of_nat k <= retry_wait n k <= 15000 * Z.of_nat k)%Z.
Proof.
  revert n. induction k as [|k IH]; intros n Hn; simpl; [lia|].
  pose proof (pow2_ge_1 n Hn). pose proof (IH (n + 1)%Z ltac:(lia)).
  unfold reconnect_delay, backoff_base, backoff_cap. lia.
Qed.

Section Retry.
Context {W : Type} `{!JsonCodec W}.
Implicit Types (w : world W).

(** The timer [reconnectTimeout] records is a timeout for the
    reconnection callback. *)
Lemma pending_reconnect_timer w id tm :
  inv w -> reconnectTimeout (mgr w) = Some id -> timers (rt w) !! id = Some tm ->
  tm = mk_timer (t_due tm) Once CbReconnect.
Proof.
  intros Hw Hrc Hl. destruct (proj2 (inv_rc w Hw id) Hrc) as (tm' & Hl' & Hcb).
  rewrite Hl in Hl'. injection Hl' as <-.
  destruct (proj2 (inv_timers w Hw) id tm Hl) as (_ & _ & Hk).
  destruct tm as [d k cb]. simpl in *. by subst.
Qed.

(** One failed attempt: the pending timeout fires, the socket it creates
    fails, and the next timeout is armed [reconnect_delay attempts] ms
    after the first one fired. *)
Lemma retry_cycle w id tm :
  inv w -> heartbeatInterval (mgr w) = None -> reconnectTimeout (mgr w) = Some id ->
  timers (rt w) !! id = Some tm ->
  exists w' id', run_events [EvTimer id; EvClose (next_sock (rt w)) true] w = Some w' /\
    heartbeatInterval (mgr w') = None /\ reconnectTimeout (mgr w') = Some id' /\
    timers (rt w') !! id' =
      Some (mk_timer (t_due tm + reconnect_delay (reconnectAttempts (mgr w))) Once CbReconnect) /\
    reconnectAttempts (mgr w') = (reconnectAttempts (mgr w) + 1)%Z.
Proof.
  intros Hw Hhb Hrc Hl.
  destruct (reconnect_step w id Hw Hhb Hrc) as (tm' & w1 & Hl' & Hs1 & Hn1 & Hrc1 & _ & _ & Hso & _ & Ha1 & _).
  rewrite Hl in Hl'. injection Hl' as <-.
  destruct (close_arms w1 (next_sock (rt w)) CONNECTING true (step_fn_inv _ _ _ Hs1 Hw) Hso
              ltac:(discriminate) Hrc1) as (w' & Hs2 & _ & Hhb' & Ha' & Hrc' & Hl2 & _).
  exists w', (next_timer (rt w1)). cbn [run_events]. rewrite Hs1, Hs2.
  rewrite Hn1, Ha1 in Hl2. rewrite Ha1 in Ha'. by split_and!.
Qed.

(** Messages sent while not ready are appended to the queue, in order,
    and nothing else changes. *)
Lemma queue_sends w ms :
  isReady (mgr w) = false ->
  run_events (map (fun m => EvCall (CallSend m)) ms) w =
    Some (set_mgr (set_queue (messageQueue (mgr w) ++ ms) (mgr w)) w).
Proof.
  revert w. induction ms as [|m ms IH]; intros w Hr; simpl.
  - by rewrite app_nil_r, set_queue_same, set_mgr_same.
  - unfold task. rewrite (send_not_ready w m Hr), IH by exact Hr. simpl. by rewrite <- app_assoc.
Qed.
End Retry.

(** ** Properties *)

Section RetryClaims.
Context {W : Type} `{!JsonCodec W}.
Implicit Types (w : world W).

(** C16: the manager retries for ever.  From any reachable world with no
    heartbeat and a reconnection pending (as every close leaves it), [k]
    failed attempts, made of timer expiries and socket failures only,
    lead to a world in which a reconnection is still pending, the
    counter has grown by [k], and the pending timeout is due [retry_wait]
    ms (the sum of the [k] backoff delays) after the first. *)
Theorem retries_forever u t0 evs w id tm k :
  run_events evs (new_world u t0) = Some w ->
  heartbeatInterval (mgr w) = None -> reconnectTimeout (mgr w) = Some id ->
  timers (rt w) !! id = Some tm ->
  exists evs' w' id', length evs' = (2 * k)%nat /\ forallb failure_event evs' = true /\
    run_events (evs ++ evs') (new_world u t0) = Some w' /\
    reconnectTimeout (mgr w') = Some id' /\
    timers (rt w') !! id' =
      Some (mk_timer (t_due tm + retry_wait (reconnectAttempts (mgr w)) k) Once CbReconnect) /\
    reconnectAttempts (mgr w') = (reconnectAttempts (mgr w) + Z.of_nat k)%Z.
Proof.
  revert evs w id tm. induction k as [|k IH]; intros evs w id tm Hrun Hhb Hrc Hl;
    pose proof (reachable_inv _ (run_events_reachable _ _ _ _ Hrun)) as Hw.
  - exists [], w, id. rewrite app_nil_r. split_and!; try done; [|simpl; lia].
    rewrite Hl. by rewrite (pending_reconnect_timer w id tm Hw Hrc Hl), Z.add_0_r.
  -     destruct (retry_cycle w id tm Hw Hhb Hrc Hl) as (w1 & id1 & Hs & Hhb1 & Hrc1 & Hl1 & Ha1).
    assert (Hrun1 : run_events (evs ++ [EvTimer id; EvClose (next_sock (rt w)) true])
                      (new_world u t0) = Some w1) by (by rewrite run_events_app, Hrun).
    destruct (IH _ _ _ _ Hrun1 Hhb1 Hrc1 Hl1) as (evs' & w' & id' & Hlen & Hf & Hrun' & Hrc' & Hl' & Ha').
    exists ([EvTimer id; EvClose (next_sock (rt w)) true] ++ evs'), w', id'.
    rewrite app_assoc. simpl in *. rewrite Ha1 in Hl', Ha'.
    split_and!; [lia | exact Hf | exact Hrun' | exact Hrc' | | lia].
    rewrite Hl'. f_equal. f_equal. lia.
Qed.

(** C17: no message is lost across a reconnection.  From any reachable
    world left by a close (not ready, no heartbeat, a reconnection
    pending), the messages sent during the outage are queued; when the
    timeout fires and the new socket opens, the socket receives the
    messages of its ready callback, then the old backlog and the new
    messages, each once and in the order they were sent, and the manager
    is ready with an empty queue and the attempt counter reset. *)
Theorem backlog_survives_reconnect u t0 evs w id ms xs :
  run_events evs (new_world u t0) = Some w ->
  isReady (mgr w) = false -> heartbeatInterval (mgr w) = None -> reconnectTimeout (mgr w) = Some id ->
  callback_sends (onOpen (mgr w)) xs ->
  exists w', run_events (evs ++ map (fun m => EvCall (CallSend m)) ms ++
                         [EvTimer id; EvOpen (next_sock (rt w))]) (new_world u t0) = Some w' /\
    trace (rt w') = trace (rt w) ++ sends (next_sock (rt w)) (xs ++ messageQueue (mgr w) ++ ms) /\
    messageQueue (mgr w') = [] /\ isReady (mgr w') = true /\ reconnectAttempts (mgr w') = 0%Z /\
    ws (mgr w') = Some (next_sock (rt w)).
Proof.
  intros Hrun Hr Hhb Hrc Hcb.
  set (w1 := set_mgr (set_queue (messageQueue (mgr w) ++ ms) (mgr w)) w).
  assert (Hrun1 : run_events (evs ++ map (fun m => EvCall (CallSend m)) ms) (new_world u t0) = Some w1)
    by (by rewrite run_events_app, Hrun, queue_sends).
  pose proof (reachable_inv _ (run_events_reachable _ _ _ _ Hrun1)) as Hw1.
  destruct (reconnect_step w1 id Hw1 Hhb Hrc) as (tm & w2 & _ & Hs2 & _ & _ & _ & Hws2 & Hso2 & _ & _ & Hm2 & Htr2).
  change (next_sock (rt w1)) with (next_sock (rt w)) in *.
  assert (Hcb2 : callback_sends (onOpen (mgr w2)) xs) by (by rewrite Hm2).
  destruct (open_step_run w2 _ xs (step_fn_inv _ _ _ Hs2 Hw1) Hws2 Hso2 Hcb2)
    as (w3 & Hs3 & Htr3 & Hq3 & Hr3 & Ha3 & _ & _ & Hws3 & _).
  exists w3. rewrite app_assoc, run_events_app, Hrun1. cbn [run_events]. rewrite Hs2, Hs3.
  split_and!; try done. rewrite Htr3, Htr2, Hm2. reflexivity.
Qed.
End RetryClaims.

(** ** Witnesses *)

Lemma retries_forever_witness :
  (run_events closed_events (new_world "wss://signal" 0) = Some closed_world /\
   heartbeatInterval (mgr closed_world) = None /\ reconnectTimeout (mgr closed_world) = Some 2 /\
   timers (rt closed_world) !! 2 = Some (mk_timer 1000 Once CbReconnect)) /\
  exists evs' w' id', length evs' = (2 * 5)%nat /\ forallb failure_event evs' = true /\
    run_events (closed_events ++ evs') (new_world "wss://signal" 0) = Some w' /\
    reconnectTimeout (mgr w') = Some id' /\
    timers (rt w') !! id' =
      Some (mk_timer (1000 + retry_wait (reconnectAttempts (mgr closed_world)) 5) Once CbReconnect) /\
    reconnectAttempts (mgr w') = (reconnectAttempts (mgr closed_world) + Z.of_nat 5)%Z.
Proof.
  split; [split_and!; vm_compute; reflexivity|].
  apply (retries_forever "wss://signal" 0 closed_events closed_world 2 (mk_timer 1000 Once CbReconnect) 5);
    vm_compute; reflexivity.
Defined.

Lemma backlog_survives_reconnect_witness :
  (run_events closed_events (new_world "wss://signal" 0) = Some closed_world /\
   isReady (mgr closed_world) = false /\ heartbeatInterval (mgr closed_world) = None /\
   reconnectTimeout (mgr closed_world) = Some 2 /\ callback_sends (onOpen (mgr closed_world)) []) /\
  exists w', run_events (closed_events ++ map (fun m => EvCall (CallSend m)) [msg_hello; msg_offer] ++
                         [EvTimer 2; EvOpen (next_sock (rt closed_world))])
               (new_world "wss://signal" 0) = Some w' /\
    trace (rt w') = trace (rt closed_world) ++
      sends (next_sock (rt closed_world)) ([] ++ messageQueue (mgr closed_world) ++ [msg_hello; msg_offer]) /\
    messageQueue (mgr w') = [] /\ isReady (mgr w') = true /\ reconnectAttempts (mgr w') = 0%Z /\
    ws (mgr w') = Some (next_sock (rt closed_world)).
Proof.
  split; [split_and!; vm_compute; reflexivity|].
  apply (backlog_survives_reconnect "wss://signal" 0 closed_events closed_world 2); vm_compute; reflexivity.
Defined.
