(* ===== verification/Quiet.v ===== *)
(** * Nothing is written while the link is down

    [send] writes to the socket only when [isReady] holds (lines 61-62),
    and the heartbeat runs only while [isReady] holds ([ManagerInv]); only
    [onopen] sets [isReady] (line 26).  So while the manager is not ready
    and no socket opens, nothing reaches any socket: every message is
    queued, and the trace only gains log entries.  [quiet] is that
    property of a world relative to the trace [tr0] it started from; it is
    framed through every handler with the [preserves] judgement and the
    [js_inv] hints, [quiet_step] shows that every event other than an
    [open] keeps it, and [nothing_written_while_down] (C23) states it for
    whole runs. *)

From stdpp Require Import base list gmap strings.
From Stdlib Require Import ZArith Lia.
From S2P Require Import Prelude Json Browser Manager ManagerInv ManagerSpec.

Local Open Scope js_scope.

(** An effect that is not a frame handed to a socket. *)
Definition no_frame {W} (e : effect W) : Prop :=
  match e with
  | ESend _ _ | EDiscard _ _ => False
  | _ => True
  end.

(** An event other than a socket opening. *)
Definition no_open_event {W} (e : event (W := W)) : bool :=
  match e with
  | EvOpen _ => false
  | _ => true
  end.

Section Quiet.
Context {W : Type} `{!JsonCodec W}.
Implicit Types (w : world W).
Variable tr0 : list (effect W).

(** Not ready, and the trace is [tr0] followed by log entries only. *)
Definition quiet w : Prop :=
  isReady (mgr w) = false /\ exists es, trace (rt w) = tr0 ++ es /\ Forall no_frame es.

(** A browser primitive that only appends effects that are not frames. *)
Definition rt_quiet {A} (c : js (runtime callback W) A) : Prop :=
  forall r, exists es, trace (final c r) = trace r ++ es /\ Forall no_frame es.

Lemma on_rt_quiet {A} (c : js (runtime callback W) A) : rt_quiet c -> preserves quiet (on_rt c).
Proof.
  intros Hc w [Hr (es & E & Hes)]. destruct (Hc (rt w)) as (es' & E' & Hes').
  unfold quiet, final, on_rt in *. destruct (c (rt w)) as [o r']. simpl in *.
  split; [exact Hr|]. exists (es ++ es'). rewrite E', E, app_assoc. split; [done|]. by apply Forall_app.
Qed.

Lemma mgr_modify_quiet (f : Mgr -> Mgr) :
  (forall g, isReady g = false -> isReady (f g) = false) -> preserves quiet (mgr_modify (W := W) f).
Proof. intros Hf w [Hr Ht]. split; [exact (Hf _ Hr) | exact Ht]. Qed.

Lemma set_rt_quiet w r : trace r = trace (rt w) -> quiet w -> quiet (set_rt r w).
Proof. unfold quiet. simpl. by intros ->. Qed.
End Quiet.

(** The primitives other than [ws.send] add no frame; the field updates
    other than [onopen]'s keep [isReady] false. *)
Ltac rt_quiet_by :=
  intros ?;
  unfold final, ws_ready_state, emit, set_interval, set_timeout, add_timer,
    clear_timer, date_now, ws_new, ws_close, js_modify, js_gets;
  simpl; repeat case_match; simpl;
  first [ exists []; split; [by rewrite app_nil_r | constructor]
        | eexists; split; [reflexivity | repeat constructor] ].

#[export] Hint Extern 2 (preserves (quiet _) (on_rt _)) => apply on_rt_quiet; rt_quiet_by : js_inv.
#[export] Hint Extern 2 (preserves (quiet _) (mgr_modify _)) =>
  apply mgr_modify_quiet; intros ? ?; simpl; first [assumption | reflexivity] : js_inv.

Section QuietOps.
Context {W : Type} `{!JsonCodec W}.
Implicit Types (w : world W).
Variable tr0 : list (effect W).

(** [send] while not ready only queues. *)
Lemma send_quiet m : preserves (quiet tr0) (send (W := W) m).
Proof.
  unfold send, mgr_gets. apply (preserves_gets_const _ _ false); [by intros w [? _]|]. preserves_by.
Qed.

Lemma connect_quiet : preserves (quiet tr0) (connect (W := W)).
Proof. unfold connect. preserves_by. Qed.

Lemma run_action_quiet a : preserves (quiet tr0) (run_action (W := W) a).
Proof. destruct a; [apply send_quiet | apply connect_quiet]. Qed.

Lemma run_actions_quiet acts : preserves (quiet tr0) (run_actions (W := W) acts).
Proof. apply preserves_iter, run_action_quiet. Qed.
#[local] Hint Resolve send_quiet connect_quiet run_actions_quiet : js_inv.

Lemma onmessage_quiet data : preserves (quiet tr0) (onmessage (W := W) data).
Proof. unfold onmessage, mgr_gets. repeat case_match; preserves_by. Qed.

Lemma onclose_quiet : preserves (quiet tr0) (onclose (W := W)).
Proof. unfold onclose, stopHeartbeat, scheduleReconnect, mgr_gets. preserves_by. Qed.

Lemma onerror_quiet : preserves (quiet tr0) (onerror (W := W)).
Proof. unfold onerror, mgr_gets. preserves_by. Qed.

Lemma reconnect_fire_quiet : preserves (quiet tr0) (reconnect_fire (W := W)).
Proof. unfold reconnect_fire. preserves_by. Qed.

Lemma api_quiet c : preserves (quiet tr0) (api (W := W) c).
Proof. destruct c; simpl; [| | unfold onMessage |]; preserves_by. Qed.

Lemma emit_quiet e : preserves (quiet tr0) (on_rt (W := W) (emit (EUncaught e))).
Proof. apply on_rt_quiet. rt_quiet_by. Qed.

(** With no heartbeat recorded, the only timer that can fire is the
    reconnection timeout. *)
Lemma timer_not_heartbeat w id tm :
  inv w -> heartbeatInterval (mgr w) = None -> timers (rt w) !! id = Some tm -> t_cb tm = CbReconnect.
Proof.
  intros Hw Hhb Hl. destruct (t_cb tm) eqn:Hc; [|done]. exfalso.
  assert (heartbeatInterval (mgr w) = Some id) by (apply (inv_hb w Hw); eauto). congruence.
Qed.

(** Every event but an [open] keeps the world quiet. *)
Lemma quiet_step e w w' :
  no_open_event e = true -> inv w -> step_fn e w = Some w' -> quiet tr0 w -> quiet tr0 w'.
Proof.
  intros He Hw Hs Hq. apply (step_lift (quiet tr0) (set_rt_quiet tr0) emit_quiet e w w'); [|done..].
  destruct e as [c|sid|sid|sid data|sid err|id|d]; simpl; try done;
    auto using api_quiet, onmessage_quiet, onclose_quiet, onerror_quiet.
  intros tm Hl. assert (Hhb : heartbeatInterval (mgr w) = None).
  { destruct (heartbeatInterval (mgr w)) eqn:E; [|done].
    destruct Hq as [Hr _]. rewrite (inv_hb_ready w Hw ltac:(by eexists)) in Hr. discriminate. }
  rewrite (timer_not_heartbeat w id tm Hw Hhb Hl). apply reconnect_fire_quiet.
Qed.

Lemma quiet_run evs w w' :
  forallb no_open_event evs = true -> inv w -> run_events evs w = Some w' -> quiet tr0 w -> quiet tr0 w'.
Proof.
  revert w. induction evs as [|e evs IH]; simpl; intros w Ho Hw Hr Hq; [by simplify_eq|].
  apply andb_prop in Ho as [He Ho].
  destruct (step_fn e w) as [w1|] eqn:E; [|discriminate].
  eauto using quiet_step, step_fn_inv.
Qed.
End QuietOps.

(** ** Properties *)

Section QuietClaims.
Context {W : Type} `{!JsonCodec W}.
Implicit Types (w : world W).

(** C23: while the manager is not ready and no socket opens, nothing is
    written to any socket, and nothing is handed to a closing one: from
    any reachable world with [isReady] false, any run without an [open]
    event (calls of the page, inbound frames on stale sockets, closes,
    failures, reconnection timeouts, time passing) keeps [isReady] false
    and adds only log entries to the trace. *)
Theorem nothing_written_while_down u t0 evs w evs' w' :
  run_events evs (new_world u t0) = Some w -> isReady (mgr w) = false ->
  forallb no_open_event evs' = true -> run_events evs' w = Some w' ->
  isReady (mgr w') = false /\ exists es, trace (rt w') = trace (rt w) ++ es /\ Forall no_frame es.
Proof.
  intros Hrun Hr Ho Hrun'.
  apply (quiet_run (trace (rt w)) evs' w w' Ho (reachable_inv _ (run_events_reachable _ _ _ _ Hrun)) Hrun').
  split; [exact Hr|]. exists []. by rewrite app_nil_r.
Qed.
End QuietClaims.

(** ** Witnesses *)

(** After the close of [closed_world]: a send, the reconnection, a
    failure of the new socket, a send, and time passing. *)
Definition quiet_events : list (event (W := frame)) :=
  [EvCall (CallSend msg_hello); EvTimer 2; EvClose 1 true; EvCall (CallSend msg_offer); EvWait 100].

Definition quiet_world : world frame := world_or_init (run_events quiet_events closed_world).

Lemma nothing_written_while_down_witness :
  (run_events closed_events (new_world "wss://signal" 0) = Some closed_world /\
   isReady (mgr closed_world) = false /\ forallb no_open_event quiet_events = true /\
   run_events quiet_events closed_world = Some quiet_world) /\
  isReady (mgr quiet_world) = false /\
  exists es, trace (rt quiet_world) = trace (rt closed_world) ++ es /\ Forall no_frame es.
Proof.
  split; [split_and!; vm_compute; reflexivity|].
  apply (nothing_written_while_down "wss://signal" 0 closed_events closed_world quiet_events);
    vm_compute; reflexivity.
Defined.
