(* ===== verification/Refinement.v ===== *)
(** * The outbound channel contract and its refinement

    The specification's contract for outbound traffic (sections 3, 4.1
    and 4.4) is an abstract channel [chan]: while not ready, [send]
    appends to a pending list; becoming ready moves the whole pending
    list, in order, onto the wire, after which [send] writes directly;
    closing keeps the pending list; the keep-alive adds a ping to the
    wire.  Its invariant: nothing is pending while ready.

    [abs sid w] reads the channel off a world: [isReady], the queue, and
    the messages decoded (with [JSON.parse]) from the frames written to
    socket [sid].  [outbound_refines] shows that, while [this.ws] is [sid]
    and the manager is only ready with [sid] open ([linked]), each of the
    manager's events [send], [open], [close] and heartbeat expiry is
    simulated by the corresponding abstract operation, and [linked] is
    kept.  The events outside this list ([connect] while a socket is live,
    the peer starting to close) are the ones [ManagerSpec] shows to break
    the contract.

    The abstract operations are also data ([ch_op], run by [ch_apply] and
    [ch_exec]); [op_of] reads the operation an event performs off the
    world it happens in ([ready] callbacks that only send become
    [OOpen xs], which writes [xs] before the backlog; an inbound frame
    becomes the sends of its handler, [OSends], or nothing when it is
    malformed or unhandled, [inbound_op]), [ops_of] does so
    along a run, and [outbound_refines_run] (C30) is the simulation over
    whole runs.  [outbound_fifo] (C31) derives the specification's "no
    loss, no duplication, same order" from it: wire then queue grow by
    exactly the payloads of the run, provided no ready callback sends
    ([no_callback_sends]; with one, its messages overtake the backlog,
    which is C19). *)

From stdpp Require Import base list gmap strings.
From Stdlib Require Import ZArith Lia.
From S2P Require Import Prelude Json Backoff Browser Manager ManagerInv ManagerSpec.

Record chan := mk_chan {
  ch_ready : bool;
  ch_pending : list Json;
  ch_wire : list Json
}.

Definition ch_send (m : Json) (c : chan) : chan :=
  if ch_ready c then mk_chan true (ch_pending c) (ch_wire c ++ [m])
  else mk_chan false (ch_pending c ++ [m]) (ch_wire c).

Definition ch_open (c : chan) : chan := mk_chan true [] (ch_wire c ++ ch_pending c).

Definition ch_close (c : chan) : chan := mk_chan false (ch_pending c) (ch_wire c).

Definition ch_ping (ts : Z) (c : chan) : chan :=
  mk_chan (ch_ready c) (ch_pending c) (ch_wire c ++ [ping_msg ts]).

(** Becoming ready when the ready callback itself sends [xs]: they are
    written before the pending list. *)
Definition ch_open_with (xs : list Json) (c : chan) : chan :=
  mk_chan true [] (ch_wire c ++ xs ++ ch_pending c).

(** The contract's invariant: nothing pending while ready. *)
Definition ch_ok (c : chan) : Prop := ch_ready c = true -> ch_pending c = [].

(** The abstract operations, as data, and their effect. *)
Inductive ch_op :=
| OSend (m : Json)
| OSends (xs : list Json)
| OOpen (xs : list Json)
| OClose
| OPing (ts : Z)
| OSkip.

Definition ch_apply (o : ch_op) (c : chan) : chan :=
  match o with
  | OSend m => ch_send m c
  | OSends xs => fold_left (fun c m => ch_send m c) xs c
  | OOpen xs => ch_open_with xs c
  | OClose => ch_close c
  | OPing ts => ch_ping ts c
  | OSkip => c
  end.

Definition ch_exec (os : list ch_op) (c : chan) : chan := fold_left (fun c o => ch_apply o c) os c.

(** The messages an operation hands to the channel. *)
Definition payload (o : ch_op) : list Json :=
  match o with
  | OSend m => [m]
  | OSends xs => xs
  | OOpen xs => xs
  | OPing ts => [ping_msg ts]
  | _ => []
  end.

(** No ready callback sends anything. *)
Definition no_callback_sends (os : list ch_op) : bool :=
  forallb (fun o => match o with OOpen (_ :: _) => false | _ => true end) os.

Section Abs.
Context {W : Type} `{!JsonCodec W}.
Implicit Types (w : world W).

(** The message carried by a frame written to socket [sid]. *)
Definition frame_on (sid : nat) (e : effect W) : option Json :=
  match e with
  | ESend s d => if (s =? sid)%nat then parse d else None
  | _ => None
  end.

Definition wire_of (sid : nat) (tr : list (effect W)) : list Json := omap (frame_on sid) tr.

Definition abs (sid : nat) w : chan :=
  mk_chan (isReady (mgr w)) (messageQueue (mgr w)) (wire_of sid (trace (rt w))).

(** [this.ws] is [sid], and the manager is ready only with [sid] open and
    nothing queued. *)
Definition linked (sid : nat) w : Prop :=
  ws (mgr w) = Some sid /\
  (isReady (mgr w) = true -> sockets (rt w) !! sid = Some OPEN /\ messageQueue (mgr w) = []).

(** The messages of a list of actions that only send. *)
Fixpoint sends_of (acts : list action) : option (list Json) :=
  match acts with
  | [] => Some []
  | ASend m :: acts' =>
      match sends_of acts' with Some xs => Some (m :: xs) | None => None end
  | AConnect :: _ => None
  end.

Definition cb_sends (cb : option (list action)) : option (list Json) :=
  match cb with None => Some [] | Some acts => sends_of acts end.

(** What [onmessage] does to the channel: the sends of the handler it
    runs, when that handler only sends; nothing when the frame is
    malformed, has a [null] or unknown [type], or no handler. *)
Definition inbound_op (data : W) w : option ch_op :=
  match parse data with
  | None => Some OSkip
  | Some msg =>
      match get_prop "type" msg with
      | Thrown _ => Some OSkip
      | Normal ty =>
          match handler_key ty with
          | Some k =>
              match messageHandlers (mgr w) !! k with
              | Some h => option_map OSends (sends_of (h msg))
              | None => Some OSkip
              end
          | None => Some OSkip
          end
      end
  end.

(** The abstract operation an event performs on the channel of socket
    [sid], when it performs one: [send] and [onMessage] calls, inbound
    frames (with handlers that only send), the [open] (with a ready
    callback that only sends) and [close] of [sid], the heartbeat's
    expiry and time passing. *)
Definition op_of (sid : nat) (e : event (W := W)) w : option ch_op :=
  match e with
  | EvCall (CallSend m) => Some (OSend m)
  | EvCall (CallOnMessage _ _) => Some OSkip
  | EvOpen s => if (s =? sid)%nat then option_map OOpen (cb_sends (onOpen (mgr w))) else None
  | EvMessage _ data => inbound_op data w
  | EvClose s _ => if (s =? sid)%nat then Some OClose else None
  | EvTimer id =>
      match timers (rt w) !! id with
      | Some tm => match t_cb tm with CbHeartbeat => Some (OPing (t_due tm)) | CbReconnect => None end
      | None => None
      end
  | EvWait _ => Some OSkip
  | _ => None
  end.

(** The abstract operations of a run, when every event has one. *)
Fixpoint ops_of (sid : nat) (evs : list (event (W := W))) w : option (list ch_op) :=
  match evs with
  | [] => Some []
  | e :: evs' =>
      match op_of sid e w, step_fn e w with
      | Some o, Some w1 =>
          match ops_of sid evs' w1 with Some os => Some (o :: os) | None => None end
      | _, _ => None
      end
  end.

Lemma sends_of_spec acts xs : sends_of acts = Some xs -> acts = map ASend xs.
Proof.
  revert xs. induction acts as [|[m|] acts IH]; intros xs; simpl; [by intros [= <-]| |done].
  destruct (sends_of acts) as [ys|]; [|done]. intros [= <-]. simpl. by rewrite (IH ys).
Qed.

Lemma cb_sends_spec cb xs : cb_sends cb = Some xs -> callback_sends cb xs.
Proof. destruct cb; simpl; [apply sends_of_spec | by intros [= <-]]. Qed.

Lemma wire_of_app sid tr1 tr2 : wire_of sid (tr1 ++ tr2) = wire_of sid tr1 ++ wire_of sid tr2.
Proof. apply omap_app. Qed.

Lemma wire_of_sends sid q : wire_of sid (sends sid q) = q.
Proof.
  induction q as [|m q IH]; [done|]. simpl. rewrite Nat.eqb_refl, parse_stringify.
  simpl. by rewrite IH.
Qed.

Lemma wire_of_push sid q w : wire_of sid (trace (rt (push_trace (sends sid q) w))) =
                             wire_of sid (trace (rt w)) ++ q.
Proof. simpl. by rewrite wire_of_app, wire_of_sends. Qed.

Lemma linked_ok sid w : linked sid w -> ch_ok (abs sid w).
Proof. intros [_ H] Hr. apply H, Hr. Qed.
End Abs.

Section Simulation.
Context {W : Type} `{!JsonCodec W}.
Implicit Types (w : world W).

Lemma timer_after_fields id (r : runtime callback W) :
  trace (timer_after id r) = trace r /\ sockets (timer_after id r) = sockets r.
Proof. unfold timer_after. destruct (timers r !! id) as [[? [] ?]|]; done. Qed.

Lemma send_run_sim sid w m :
  linked sid w -> exists w', send m w = (Normal tt, w') /\ linked sid w' /\ abs sid w' = ch_send m (abs sid w).
Proof.
  intros [Hws Hr]. destruct (isReady (mgr w)) eqn:E.
  - destruct (Hr eq_refl) as [Hs Hq].
    rewrite (send_ready w m sid E Hws), (ws_send_open w sid _ Hs).
    change [ESend sid (stringify m)] with (sends sid [m]).
    eexists; split_and!; [reflexivity | split; [exact Hws | intros _; split; assumption] |].
    unfold abs, ch_send. rewrite wire_of_push. simpl. by rewrite E.
  - rewrite (send_not_ready w m E). eexists; split_and!; [reflexivity | split; [exact Hws | simpl; congruence] |].
    unfold abs, ch_send. simpl. by rewrite E.
Qed.

Lemma send_sim sid w m w' :
  linked sid w -> step_fn (EvCall (CallSend m)) w = Some w' ->
  linked sid w' /\ abs sid w' = ch_send m (abs sid w).
Proof.
  intros Hl [= <-]. destruct (send_run_sim sid w m Hl) as (w1 & Hrun & Hl1 & Habs).
  unfold task. cbn [api]. by rewrite Hrun.
Qed.

(** A handler that only sends. *)
Lemma sends_run_sim sid w xs :
  linked sid w -> exists w', run_actions (map ASend xs) w = (Normal tt, w') /\ linked sid w' /\
                             abs sid w' = fold_left (fun c m => ch_send m c) xs (abs sid w).
Proof.
  revert w. induction xs as [|x xs IH]; intros w Hl; [by exists w|].
  destruct (send_run_sim sid w x Hl) as (w1 & Hrun & Hl1 & Habs).
  destruct (IH w1 Hl1) as (w2 & Hrun2 & Hl2 & Habs2).
  exists w2. unfold run_actions in *. cbn [map js_iter run_action].
  rewrite (js_bind_normal _ _ _ _ _ Hrun), Hrun2. simpl. by rewrite Habs2, Habs.
Qed.

(** An effect that writes no frame. *)
Lemma emit_sim sid w e :
  frame_on sid e = None -> linked sid w ->
  linked sid (final (on_rt (emit e)) w) /\ abs sid (final (on_rt (emit e)) w) = abs sid w.
Proof.
  intros He Hl. split; [exact Hl|]. unfold abs.
  change (trace (rt (final (on_rt (emit e)) w))) with (trace (rt w) ++ [e]).
  rewrite wire_of_app. unfold wire_of at 2. simpl. rewrite He. by rewrite app_nil_r.
Qed.

Lemma message_sim sid s data w o w1 :
  linked sid w -> inbound_op data w = Some o -> step_fn (EvMessage s data) w = Some w1 ->
  linked sid w1 /\ abs sid w1 = ch_apply o (abs sid w).
Proof.
  intros Hl Ho Hstep. simpl in Hstep. destruct (sockets (rt w) !! s) as [[]|]; try discriminate.
  injection Hstep as <-. unfold inbound_op in Ho. unfold task, onmessage.
  destruct (parse data) as [msg|]; [|injection Ho as <-; by apply emit_sim].
  destruct (get_prop "type" msg) as [ty|e]; [|injection Ho as <-; by apply emit_sim].
  unfold mgr_gets, js_bind, js_gets.
  destruct (handler_key ty) as [k|]; [|injection Ho as <-; by apply emit_sim].
  destruct (messageHandlers (mgr w) !! k) as [h|]; [|injection Ho as <-; by apply emit_sim].
  destruct (sends_of (h msg)) as [xs|] eqn:Hx; [|done]. injection Ho as <-.
  rewrite (sends_of_spec _ _ Hx). destruct (sends_run_sim sid w xs Hl) as (w' & -> & Hl' & Habs).
  exact (conj Hl' Habs).
Qed.

Lemma open_sim_cb sid w w' xs :
  inv w -> cb_sends (onOpen (mgr w)) = Some xs -> linked sid w -> step_fn (EvOpen sid) w = Some w' ->
  linked sid w' /\ abs sid w' = ch_open_with xs (abs sid w).
Proof.
  intros Hw Hcb [Hws Hr] Hstep.
  assert (Hs : sockets (rt w) !! sid = Some CONNECTING).
  { simpl in Hstep. unfold env_open in Hstep. by destruct (sockets (rt w) !! sid) as [[]|]. }
  assert (E : isReady (mgr w) = false).
  { destruct (isReady (mgr w)) eqn:E; [|done]. destruct (Hr eq_refl) as [Ho _]. congruence. }
  destruct (open_step_run w sid xs Hw Hws Hs (cb_sends_spec _ _ Hcb))
    as (w'' & Hstep' & Htr & Hq & Hrd & _ & _ & _ & Hws' & Hs').
  rewrite Hstep in Hstep'. injection Hstep' as <-.
  split; [split; [exact Hws' | intros _; split; assumption]|].
  unfold abs, ch_open_with. rewrite Htr, Hq, Hrd, E, wire_of_app, wire_of_sends. reflexivity.
Qed.

Lemma open_sim sid w w' :
  inv w -> onOpen (mgr w) = None -> linked sid w -> step_fn (EvOpen sid) w = Some w' ->
  linked sid w' /\ abs sid w' = ch_open (abs sid w).
Proof. intros Hw Hcb. apply (open_sim_cb sid w w' [] Hw). by rewrite Hcb. Qed.

Lemma onMessage_sim sid w t h w' :
  linked sid w -> step_fn (EvCall (CallOnMessage t h)) w = Some w' ->
  linked sid w' /\ abs sid w' = abs sid w.
Proof. intros Hl [= <-]. exact (conj Hl eq_refl). Qed.

Lemma wait_sim sid w d w' :
  linked sid w -> step_fn (EvWait d) w = Some w' -> linked sid w' /\ abs sid w' = abs sid w.
Proof.
  intros Hl Hstep. simpl in Hstep. unfold env_wait in Hstep.
  destruct (bool_decide (0 <= d)%Z && no_timer_before (now (rt w) + d) (rt w)); [|done].
  injection Hstep as <-. exact (conj Hl eq_refl).
Qed.

Lemma close_sim sid err w w' :
  inv w -> linked sid w -> step_fn (EvClose sid err) w = Some w' ->
  linked sid w' /\ abs sid w' = ch_close (abs sid w).
Proof.
  intros Hw [Hws Hr] Hstep. simpl in Hstep. unfold env_closed in Hstep.
  destruct (sockets (rt w) !! sid) as [st|] eqn:Hs; [|done].
  set (w0 := set_rt (set_sockets (<[sid := CLOSED]> (sockets (rt w))) (rt w)) w) in *.
  assert (E : (if err then task onerror w0 else w0) = w0)
    by (destruct err; [apply (onerror_closed w0 sid); [exact Hws | apply lookup_insert_eq] | done]).
  assert (Hstep' : Some (task onclose w0) = Some w') by (rewrite <- E; destruct st; done).
  injection Hstep' as <-. clear Hstep.
  unfold task. rewrite (onclose_run w0 (inv_set_sockets w sid CLOSED Hw)).
  unfold abs, ch_close. simpl.
  destruct (reconnectTimeout (mgr w)), (heartbeatInterval (mgr w)); simpl;
    (split; [split; [exact Hws | done] | reflexivity]).
Qed.

Lemma ping_sim sid w id tm w' :
  inv w -> linked sid w -> timers (rt w) !! id = Some tm -> t_cb tm = CbHeartbeat ->
  step_fn (EvTimer id) w = Some w' ->
  linked sid w' /\ abs sid w' = ch_ping (t_due tm) (abs sid w).
Proof.
  intros Hw [Hws Hr] Hl Hcb Hstep.
  assert (E : isReady (mgr w) = true).
  { apply (inv_hb_ready w Hw). exists id. apply (inv_hb w Hw). eauto. }
  destruct (Hr E) as [Hs Hq].
  assert (Hdue : (now (rt w) <= t_due tm)%Z /\ no_timer_before (t_due tm) (rt w) = true).
  { simpl in Hstep. unfold env_due in Hstep. rewrite Hl in Hstep.
    destruct (bool_decide (now (rt w) <= t_due tm)%Z) eqn:E1; [|done].
    destruct (no_timer_before (t_due tm) (rt w)); [|done]. split; [|done].
    by apply bool_decide_eq_true in E1. }
  destruct Hdue as [Hle Hn].
  rewrite (heartbeat_event_run w id tm sid Hl Hcb Hle Hn Hws Hs) in Hstep.
  injection Hstep as <-. cbv zeta.
  set (w1 := push_trace [ESend sid (stringify (ping_msg (t_due tm)))]
               (set_rt (set_now (t_due tm) (rt w)) w)).
  destruct (timer_after_fields id (rt w1)) as [Ht Hso].
  assert (Hso' : sockets (rt (set_rt (timer_after id (rt w1)) w1)) = sockets (rt w))
    by (cbn [rt set_rt]; rewrite Hso; reflexivity).
  assert (Ht' : trace (rt (set_rt (timer_after id (rt w1)) w1)) =
                trace (rt w) ++ sends sid [ping_msg (t_due tm)])
    by (cbn [rt set_rt]; rewrite Ht; reflexivity).
  change (linked sid (set_rt (timer_after id (rt w1)) w1) /\
          abs sid (set_rt (timer_after id (rt w1)) w1) = ch_ping (t_due tm) (abs sid w)).
  split.
  - split; [exact Hws|]. intros _. rewrite Hso'. split; assumption.
  - unfold abs, ch_ping. rewrite Ht', wire_of_app, wire_of_sends. reflexivity.
Qed.
Lemma op_sim sid e w o w1 :
  inv w -> linked sid w -> op_of sid e w = Some o -> step_fn e w = Some w1 ->
  linked sid w1 /\ abs sid w1 = ch_apply o (abs sid w).
Proof.
  intros Hw Hl Ho Hstep.
  destruct e as [[|m|t h|cb]|s|s|s d|s err|id|d]; simpl in Ho; try discriminate.
  - injection Ho as <-. exact (send_sim sid w m w1 Hl Hstep).
  - injection Ho as <-. exact (onMessage_sim sid w t h w1 Hl Hstep).
  - destruct (Nat.eqb_spec s sid) as [->|]; [|done].
    destruct (cb_sends (onOpen (mgr w))) as [xs|] eqn:Hcb; [|done]. injection Ho as <-.
    exact (open_sim_cb sid w w1 xs Hw Hcb Hl Hstep).
  - exact (message_sim sid s d w o w1 Hl Ho Hstep).
  - destruct (Nat.eqb_spec s sid) as [->|]; [|done]. injection Ho as <-.
    exact (close_sim sid err w w1 Hw Hl Hstep).
  - destruct (timers (rt w) !! id) as [tm|] eqn:Hlk; [|done].
    destruct (t_cb tm) eqn:Hcb; [|done]. injection Ho as <-.
    exact (ping_sim sid w id tm w1 Hw Hl Hlk Hcb Hstep).
  - injection Ho as <-. exact (wait_sim sid w d w1 Hl Hstep).
Qed.

(** A ping is only abstracted while the manager is ready. *)
Lemma op_of_ping_ready sid e w ts :
  inv w -> op_of sid e w = Some (OPing ts) -> isReady (mgr w) = true.
Proof.
  intros Hw Ho. destruct e as [[]|s|s|s d|s []|id|d]; simpl in Ho; unfold inbound_op, option_map in Ho;
    repeat case_match; simplify_eq.
  apply (inv_hb_ready w Hw). exists id. apply (inv_hb w Hw). eauto.
Qed.

Lemma ops_of_cons sid e evs w os :
  ops_of sid (e :: evs) w = Some os ->
  exists o w1 os', op_of sid e w = Some o /\ step_fn e w = Some w1 /\
                   ops_of sid evs w1 = Some os' /\ os = o :: os'.
Proof.
  simpl. destruct (op_of sid e w) as [o|]; [|done]. destruct (step_fn e w) as [w1|]; [|done].
  destruct (ops_of sid evs w1) as [os'|] eqn:E; [|done]. intros [= <-]. by exists o, w1, os'.
Qed.

(** The simulation over a whole run: every step is simulated by its
    abstract operation, and [inv] and [linked] are kept. *)
Lemma refines_run sid evs w w' os :
  inv w -> linked sid w -> ops_of sid evs w = Some os -> run_events evs w = Some w' ->
  inv w' /\ linked sid w' /\ abs sid w' = ch_exec os (abs sid w).
Proof.
  revert w os. induction evs as [|e evs IH]; intros w os Hw Hl Hops Hrun.
  - simpl in Hops, Hrun. injection Hops as <-. injection Hrun as <-. done.
  - destruct (ops_of_cons _ _ _ _ _ Hops) as (o & w1 & os' & Ho & Hstep & Hops' & ->).
    simpl in Hrun. rewrite Hstep in Hrun.
    destruct (op_sim sid e w o w1 Hw Hl Ho Hstep) as [Hl1 Habs].
    destruct (IH w1 os' (step_fn_inv _ _ _ Hstep Hw) Hl1 Hops' Hrun) as (? & ? & ->).
    simpl. by rewrite Habs.
Qed.
End Simulation.

(** One abstract operation appends its payload to wire-then-pending,
    when the channel is consistent, a ping comes while ready and the
    ready callback sends nothing. *)
Lemma ch_send_fifo m c :
  ch_ok c -> ch_ok (ch_send m c) /\
  ch_wire (ch_send m c) ++ ch_pending (ch_send m c) = ch_wire c ++ ch_pending c ++ [m].
Proof.
  destruct c as [r p wi]. unfold ch_ok, ch_send. simpl. intros Hok. destruct r; simpl.
  - rewrite (Hok eq_refl). split; [done|]. by rewrite !app_nil_r.
  - split; [done|]. by rewrite app_assoc.
Qed.

Lemma ch_sends_fifo xs c :
  ch_ok c -> let c' := fold_left (fun c m => ch_send m c) xs c in
  ch_ok c' /\ ch_wire c' ++ ch_pending c' = ch_wire c ++ ch_pending c ++ xs.
Proof.
  revert c. induction xs as [|x xs IH]; intros c Hok; simpl; [by rewrite app_nil_r|].
  destruct (ch_send_fifo x c Hok) as [Hok1 E1]. destruct (IH _ Hok1) as [Hok2 E2].
  split; [exact Hok2|]. rewrite E2, app_assoc, E1, <- !app_assoc. reflexivity.
Qed.

Lemma ch_apply_fifo o c :
  ch_ok c -> (forall ts, o = OPing ts -> ch_ready c = true) ->
  no_callback_sends [o] = true ->
  ch_ok (ch_apply o c) /\
  ch_wire (ch_apply o c) ++ ch_pending (ch_apply o c) = ch_wire c ++ ch_pending c ++ payload o.
Proof.
  intros Hok Hping Hcb. destruct o as [m|xs|xs| |ts|]; simpl.
  - exact (ch_send_fifo m c Hok).
  - exact (ch_sends_fifo xs c Hok).
  - destruct xs; [|done]. split; [done|]. by rewrite !app_nil_r.
  - split; [done|]. by rewrite app_nil_r.
  - specialize (Hping ts eq_refl). rewrite (Hok Hping). split; [intros _; exact (Hok Hping)|].
    by rewrite !app_nil_r.
  - split; [done|]. by rewrite app_nil_r.
Qed.

Section RefinementClaim.
Context {W : Type} `{!JsonCodec W}.
Implicit Types (w : world W).

(** C2: the manager refines the outbound channel contract: from any
    reachable world in which [this.ws] is [sid] and the manager is ready
    only with [sid] open and nothing queued, a [send], the [open] and
    [close] events of [sid] and the expiry of the heartbeat interval are
    each simulated by the abstract [ch_send], [ch_open], [ch_close] and
    [ch_ping] (so the wire carries exactly the sent and queued messages,
    in order, without loss or duplication), and that relation is kept. *)
Theorem outbound_refines u t0 evs w sid :
  run_events evs (new_world u t0) = Some w -> linked sid w -> onOpen (mgr w) = None ->
  (forall m w', step_fn (EvCall (CallSend m)) w = Some w' ->
                linked sid w' /\ abs sid w' = ch_send m (abs sid w)) /\
  (forall w', step_fn (EvOpen sid) w = Some w' ->
              linked sid w' /\ abs sid w' = ch_open (abs sid w)) /\
  (forall w', step_fn (EvClose sid false) w = Some w' ->
              linked sid w' /\ abs sid w' = ch_close (abs sid w)) /\
  (forall id tm w', timers (rt w) !! id = Some tm -> t_cb tm = CbHeartbeat ->
                    step_fn (EvTimer id) w = Some w' ->
                    linked sid w' /\ abs sid w' = ch_ping (t_due tm) (abs sid w)).
Proof.
  intros Hrun Hl Hcb. pose proof (reachable_inv _ (run_events_reachable _ _ _ _ Hrun)) as Hw.
  split_and!.
  - intros m w'. exact (send_sim sid w m w' Hl).
  - intros w'. exact (open_sim sid w w' Hw Hcb Hl).
  - intros w'. exact (close_sim sid false w w' Hw Hl).
  - intros id tm w'. exact (ping_sim sid w id tm w' Hw Hl).
Qed.
End RefinementClaim.

Lemma outbound_refines_witness :
  (run_events queued_events (new_world "wss://signal" 0) = Some queued_world /\
   linked 0 queued_world /\ onOpen (mgr queued_world) = None) /\
  (forall m w', step_fn (EvCall (CallSend m)) queued_world = Some w' ->
                linked 0 w' /\ abs 0 w' = ch_send m (abs 0 queued_world)) /\
  (forall w', step_fn (EvOpen 0) queued_world = Some w' ->
              linked 0 w' /\ abs 0 w' = ch_open (abs 0 queued_world)) /\
  (forall w', step_fn (EvClose 0 false) queued_world = Some w' ->
              linked 0 w' /\ abs 0 w' = ch_close (abs 0 queued_world)) /\
  (forall id tm w', timers (rt queued_world) !! id = Some tm -> t_cb tm = CbHeartbeat ->
                    step_fn (EvTimer id) queued_world = Some w' ->
                    linked 0 w' /\ abs 0 w' = ch_ping (t_due tm) (abs 0 queued_world)).
Proof.
  assert (Hl : linked 0 queued_world) by (split; [vm_compute; reflexivity | vm_compute; discriminate]).
  split; [split_and!; [vm_compute; reflexivity | exact Hl | vm_compute; reflexivity]|].
  apply (outbound_refines "wss://signal" 0 queued_events); [vm_compute; reflexivity | exact Hl |
                                                            vm_compute; reflexivity].
Defined.

Section RunFifo.
Context {W : Type} `{!JsonCodec W}.
Implicit Types (w : world W).

Lemma run_fifo sid evs w w' os :
  inv w -> linked sid w -> ops_of sid evs w = Some os -> run_events evs w = Some w' ->
  no_callback_sends os = true ->
  wire_of sid (trace (rt w')) ++ messageQueue (mgr w') =
    wire_of sid (trace (rt w)) ++ messageQueue (mgr w) ++ concat (map payload os).
Proof.
  revert w os. induction evs as [|e evs IH]; intros w os Hw Hl Hops Hrun Hcb.
  - simpl in Hops, Hrun. injection Hops as <-. injection Hrun as <-. simpl. by rewrite app_nil_r.
  - destruct (ops_of_cons _ _ _ _ _ Hops) as (o & w1 & os' & Ho & Hstep & Hops' & ->).
    simpl in Hrun. rewrite Hstep in Hrun. apply andb_prop in Hcb as [Hcb Hcb'].
    destruct (op_sim sid e w o w1 Hw Hl Ho Hstep) as [Hl1 Habs].
    destruct (ch_apply_fifo o (abs sid w) (linked_ok sid w Hl)) as [_ Hf].
    { intros ts ->. exact (op_of_ping_ready sid e w ts Hw Ho). }
    { simpl. by rewrite Hcb. }
    rewrite <- Habs in Hf. simpl in Hf.
    rewrite (IH w1 os' (step_fn_inv _ _ _ Hstep Hw) Hl1 Hops' Hrun Hcb'), app_assoc, Hf.
    simpl. by rewrite !app_assoc.
Qed.
End RunFifo.

Section RunClaims.
Context {W : Type} `{!JsonCodec W}.
Implicit Types (w : world W).

(** C30: the refinement over whole runs: from any reachable world in
    which [this.ws] is [sid] and the manager is ready only with [sid]
    open and nothing queued, any run made of [send] and [onMessage]
    calls, inbound frames (whose handler, if any, only sends), the [open]
    of [sid] (whose ready callback only sends), its [close] with or
    without [error], heartbeat expiries and time passing, is simulated by
    the sequence of abstract operations [ops_of] reads off it: the world
    reached is still linked to [sid], satisfies the contract's invariant
    and abstracts to the abstract run. *)
Theorem outbound_refines_run u t0 evs0 w sid evs w' os :
  run_events evs0 (new_world u t0) = Some w -> linked sid w ->
  ops_of sid evs w = Some os -> run_events evs w = Some w' ->
  linked sid w' /\ ch_ok (abs sid w') /\ abs sid w' = ch_exec os (abs sid w).
Proof.
  intros Hrun Hl Hops Hrun'. pose proof (reachable_inv _ (run_events_reachable _ _ _ _ Hrun)) as Hw.
  destruct (refines_run sid evs w w' os Hw Hl Hops Hrun') as (_ & Hl' & Habs).
  exact (conj Hl' (conj (linked_ok sid w' Hl') Habs)).
Qed.

(** C31: no loss, no duplication, FIFO (the first testable property of
    the specification): along such a run with no ready callback that
    sends, the messages on socket [sid] followed by the queue are the
    ones before the run followed by every message sent and every ping,
    in the order the events issued them. *)
Theorem outbound_fifo u t0 evs0 w sid evs w' os :
  run_events evs0 (new_world u t0) = Some w -> linked sid w ->
  ops_of sid evs w = Some os -> run_events evs w = Some w' -> no_callback_sends os = true ->
  wire_of sid (trace (rt w')) ++ messageQueue (mgr w') =
    wire_of sid (trace (rt w)) ++ messageQueue (mgr w) ++ concat (map payload os).
Proof.
  intros Hrun. exact (run_fifo sid evs w w' os (reachable_inv _ (run_events_reachable _ _ _ _ Hrun))).
Qed.
End RunClaims.

(** A run from [queued_world]: a send while connecting, a handler for
    offers that answers, the open, a send while open, an inbound offer,
    5 s of quiet, the first heartbeat, a failure of the socket, and a
    send while closed. *)
Definition outbound_events : list (event (W := frame)) :=
  [EvCall (CallSend msg_hello); EvCall (CallOnMessage "offer" answer_offer); EvOpen 0;
   EvCall (CallSend msg_hello); EvMessage 0 (FText msg_offer); EvWait 5000;
   EvTimer 1; EvClose 0 true; EvCall (CallSend msg_offer)].

Definition outbound_ops : list ch_op := default [] (ops_of 0 outbound_events queued_world).

Definition outbound_world : world frame := world_or_init (run_events outbound_events queued_world).

Lemma outbound_refines_run_witness :
  (run_events queued_events (new_world "wss://signal" 0) = Some queued_world /\
   linked 0 queued_world /\ ops_of 0 outbound_events queued_world = Some outbound_ops /\
   run_events outbound_events queued_world = Some outbound_world) /\
  (linked 0 outbound_world /\ ch_ok (abs 0 outbound_world) /\
   abs 0 outbound_world = ch_exec outbound_ops (abs 0 queued_world)).
Proof.
  assert (Hl : linked 0 queued_world) by (split; [vm_compute; reflexivity | vm_compute; discriminate]).
  split; [split_and!; [vm_compute; reflexivity | exact Hl | vm_compute; reflexivity | vm_compute; reflexivity]|].
  apply (outbound_refines_run "wss://signal" 0 queued_events queued_world 0 outbound_events
           outbound_world outbound_ops); [vm_compute; reflexivity | exact Hl |
    vm_compute; reflexivity | vm_compute; reflexivity].
Defined.

Lemma outbound_fifo_witness :
  (run_events queued_events (new_world "wss://signal" 0) = Some queued_world /\
   linked 0 queued_world /\ ops_of 0 outbound_events queued_world = Some outbound_ops /\
   run_events outbound_events queued_world = Some outbound_world /\
   no_callback_sends outbound_ops = true) /\
  wire_of 0 (trace (rt outbound_world)) ++ messageQueue (mgr outbound_world) =
    wire_of 0 (trace (rt queued_world)) ++ messageQueue (mgr queued_world) ++
    concat (map payload outbound_ops).
Proof.
  assert (Hl : linked 0 queued_world) by (split; [vm_compute; reflexivity | vm_compute; discriminate]).
  split; [split_and!; [vm_compute; reflexivity | exact Hl | vm_compute; reflexivity |
                       vm_compute; reflexivity | vm_compute; reflexivity]|].
  apply (outbound_fifo "wss://signal" 0 queued_events queued_world 0 outbound_events
           outbound_world outbound_ops); [vm_compute; reflexivity | exact Hl |
    vm_compute; reflexivity | vm_compute; reflexivity | vm_compute; reflexivity].
Defined.
