(* ===== verification/Wire.v ===== *)
(** * What goes on the wire

    Every frame the manager hands to a socket is [JSON.stringify] of a
    message: [send] writes [JSON.stringify(message)] (line 62) and the
    heartbeat writes [JSON.stringify({type: '__ping__', ts})] (line 95),
    and nothing else calls [ws.send].  [wire_ok] is that invariant of the
    trace, for every codec; [frames_are_json] (C12) shows every reachable
    world keeps it, for frames written and for frames a closing socket
    discards.  The handlers are framed one by one with the [preserves]
    judgement and the [js_inv] hints, and [step_lift] of [ManagerInv]
    lifts them to the event loop. *)

From stdpp Require Import base list gmap strings.
From Stdlib Require Import ZArith Lia.
From S2P Require Import Prelude Json Browser Manager ManagerInv Refinement.

Local Open Scope js_scope.

Section WireInv.
Context {W : Type} `{!JsonCodec W}.
Implicit Types (w : world W) (r : runtime callback W).

(** A frame of the trace carries the text of a message. *)
Definition frame_ok (e : effect W) : Prop :=
  match e with
  | ESend _ d | EDiscard _ d => exists m, d = stringify m
  | _ => True
  end.

Definition wire_ok w : Prop := Forall frame_ok (trace (rt w)).

(** A browser primitive that only appends effects of that kind. *)
Definition rt_frames {A} (c : js (runtime callback W) A) : Prop :=
  forall r, exists es, trace (final c r) = trace r ++ es /\ Forall frame_ok es.

Lemma on_rt_wire {A} (c : js (runtime callback W) A) : rt_frames c -> preserves wire_ok (on_rt c).
Proof.
  intros Hc w Hw. destruct (Hc (rt w)) as (es & E & Hes). unfold wire_ok, final, on_rt in *.
  destruct (c (rt w)) as [o r']. simpl in *. rewrite E. by apply Forall_app.
Qed.

Lemma mgr_modify_wire (f : Mgr -> Mgr) : preserves wire_ok (mgr_modify (W := W) f).
Proof. intros w Hw. exact Hw. Qed.

Lemma set_rt_wire w r : trace r = trace (rt w) -> wire_ok w -> wire_ok (set_rt r w).
Proof. unfold wire_ok. simpl. by intros ->. Qed.
End WireInv.

(** The primitives: they leave the trace alone, add a log entry, or (for
    [ws.send] of a stringified message) add the frame. *)
Ltac rt_frames_by :=
  intros ?;
  unfold final, ws_send, ws_ready_state, emit, set_interval, set_timeout, add_timer,
    clear_timer, date_now, ws_new, ws_close, js_modify, js_gets;
  simpl; repeat case_match; simpl;
  first [ exists []; split; [by rewrite app_nil_r | constructor]
        | eexists; split; [reflexivity | repeat constructor; eexists; reflexivity] ].

Ltac frames_by := apply on_rt_wire; rt_frames_by.

#[export] Hint Extern 2 (preserves wire_ok (on_rt _)) => frames_by : js_inv.
#[export] Hint Resolve mgr_modify_wire : js_inv.

Section WireOps.
Context {W : Type} `{!JsonCodec W}.
Implicit Types (w : world W).

Lemma send_wire m : preserves wire_ok (send (W := W) m).
Proof. unfold send, mgr_gets. preserves_by. Qed.

Lemma connect_wire : preserves wire_ok (connect (W := W)).
Proof. unfold connect. preserves_by. Qed.

Lemma run_action_wire a : preserves wire_ok (run_action (W := W) a).
Proof. destruct a; [apply send_wire | apply connect_wire]. Qed.

Lemma run_actions_wire acts : preserves wire_ok (run_actions (W := W) acts).
Proof. apply preserves_iter, run_action_wire. Qed.
#[local] Hint Resolve send_wire connect_wire run_action_wire run_actions_wire : js_inv.

Lemma flush_loop_wire n : preserves wire_ok (flush_loop (W := W) n).
Proof. induction n; simpl; unfold mgr_gets; preserves_by; auto using send_wire. Qed.

Lemma flushMessageQueue_wire : preserves wire_ok (flushMessageQueue (W := W)).
Proof. unfold flushMessageQueue, mgr_gets. preserves_by. apply flush_loop_wire. Qed.
#[local] Hint Resolve flush_loop_wire flushMessageQueue_wire : js_inv.

Lemma startHeartbeat_wire : preserves wire_ok (startHeartbeat (W := W)).
Proof. unfold startHeartbeat, stopHeartbeat, mgr_gets. preserves_by. Qed.
#[local] Hint Resolve startHeartbeat_wire : js_inv.

Lemma onopen_wire : preserves wire_ok (onopen (W := W)).
Proof.
  unfold onopen, mgr_gets. preserves_by.
Qed.

Lemma onmessage_wire data : preserves wire_ok (onmessage (W := W) data).
Proof. unfold onmessage, mgr_gets. repeat case_match; preserves_by. Qed.

Lemma onclose_wire : preserves wire_ok (onclose (W := W)).
Proof. unfold onclose, stopHeartbeat, scheduleReconnect, mgr_gets. preserves_by. Qed.

Lemma onerror_wire : preserves wire_ok (onerror (W := W)).
Proof. unfold onerror, mgr_gets. preserves_by. Qed.

Lemma run_callback_wire cb : preserves wire_ok (run_callback (W := W) cb).
Proof.
  destruct cb; simpl; [unfold heartbeat_tick, mgr_gets | unfold reconnect_fire]; preserves_by.
Qed.

Lemma api_wire c : preserves wire_ok (api (W := W) c).
Proof. destruct c; simpl; [| | unfold onMessage |]; preserves_by. Qed.

Lemma emit_wire e : preserves wire_ok (on_rt (W := W) (emit (EUncaught e))).
Proof. frames_by. Qed.

Lemma step_wire e w w' : step_fn e w = Some w' -> wire_ok w -> wire_ok w'.
Proof.
  apply (step_lift wire_ok set_rt_wire emit_wire).
  destruct e; simpl; auto using api_wire, onopen_wire, onmessage_wire, onclose_wire, onerror_wire,
    run_callback_wire.
Qed.

Lemma run_wire evs w w' : run_events evs w = Some w' -> wire_ok w -> wire_ok w'.
Proof.
  revert w. induction evs as [|e evs IH]; simpl; intros w Hr Hw; [by simplify_eq|].
  destruct (step_fn e w) as [w1|] eqn:E; [|discriminate]. eauto using step_wire.
Qed.
End WireOps.

Section WireInit.
Context {W : Type} `{!JsonCodec W}.

Lemma new_world_wire u t0 : wire_ok (new_world (W := W) u t0).
Proof. constructor. Qed.
End WireInit.

(** ** Properties *)

Section WireClaims.
Context {W : Type} `{!JsonCodec W}.

(** C12: the wire carries JSON: in every world reached from a new
    manager, every frame the trace shows written to a socket, or
    discarded by a closing one, is [JSON.stringify] of a message. *)
Theorem frames_are_json u t0 evs w :
  run_events evs (new_world (W := W) u t0) = Some w ->
  forall e, e ∈ trace (rt w) -> frame_ok e.
Proof.
  intros Hrun. pose proof (run_wire evs _ w Hrun (new_world_wire u t0)) as Hw.
  unfold wire_ok in Hw. by rewrite Forall_forall in Hw.
Qed.
End WireClaims.

(** ** Witnesses *)

Lemma frames_are_json_witness :
  (run_events open_events (new_world "wss://signal" 0) = Some open_world /\
   ESend 0 (stringify msg_join) ∈ trace (rt open_world)) /\
  frame_ok (ESend 0 (stringify (W := frame) msg_join)).
Proof.
  split; [split; [vm_compute; reflexivity | vm_compute; left]|].
  apply (frames_are_json "wss://signal" 0 open_events open_world); vm_compute; [reflexivity | left].
Defined.
