(* ===== verification/SingleSocket.v ===== *)
(** * At most one live socket

    The specification's connection invariant (sections 3 and 4.1): at
    most one live transport at a time, and [connect()] while one is live
    is a no-op.  [connect] (lines 20-22) always creates a new socket, so
    the manager only keeps that invariant when its callers do their part.
    [disciplined] is that part: [connect] is only called when [this.ws]
    is [null] or [CLOSED] and no reconnection is pending, and the
    handlers and the ready callback only send.  [single_live_socket]
    (C32) shows that, under it, every socket other than [this.ws] is
    [CLOSED] in every reachable world; [connect_keeps_old_socket_live]
    (C21) shows what a [connect] with a live socket does, and
    [connect_during_backoff_two_live]
    (C33) shows that the second condition cannot be dropped: a [connect]
    after the socket closed but before the reconnection timeout fires
    leaves two live sockets.

    The proof frames the fields the invariant reads ([sframe]) through the
    operations that leave them alone, with the [preserves] judgement of
    the prelude and the hint database [js_inv]; [onclose] and the
    reconnection callback, which change them, are computed. *)

From stdpp Require Import base list gmap strings.
From Stdlib Require Import ZArith Lia.
From S2P Require Import Prelude Json Backoff Browser Manager ManagerInv ManagerSpec.

Local Open Scope js_scope.

(** A socket is live while it is [CONNECTING], [OPEN] or [CLOSING]. *)
Definition is_live (ss : gmap nat ready_state) (sid : nat) : bool :=
  match ss !! sid with
  | Some CLOSED | None => false
  | Some _ => true
  end.

(** A callback that only calls [send]. *)
Definition send_only (acts : list action) : bool :=
  forallb (fun a => match a with ASend _ => true | AConnect => false end) acts.

Section Frame.
Context {W : Type} `{!JsonCodec W}.
Implicit Types (w : world W) (r : runtime callback W).

(** The fields the socket discipline reads. *)
Record sfields := mk_sfields {
  sf_sockets : gmap nat ready_state;
  sf_ws : option nat;
  sf_rc : option nat;
  sf_handlers : gmap string handler;
  sf_onOpen : option (list action)
}.

Definition sframe w : sfields :=
  mk_sfields (sockets (rt w)) (ws (mgr w)) (reconnectTimeout (mgr w))
             (messageHandlers (mgr w)) (onOpen (mgr w)).

Definition sat (s : sfields) w : Prop := sframe w = s.

(** A primitive of the browser that leaves the sockets alone. *)
Definition rt_sockets {A} (c : js (runtime callback W) A) : Prop :=
  forall r, sockets (final c r) = sockets r.

Lemma on_rt_sat {A} s (c : js (runtime callback W) A) : rt_sockets c -> preserves (sat s) (on_rt c).
Proof.
  intros Hc w Hw. unfold sat, sframe, final, on_rt in *. specialize (Hc (rt w)). unfold final in Hc.
  destruct (c (rt w)) as [o r']. simpl in *. by rewrite Hc.
Qed.

Lemma mgr_modify_sat s (f : Mgr -> Mgr) :
  (forall g, ws (f g) = ws g /\ reconnectTimeout (f g) = reconnectTimeout g /\
             messageHandlers (f g) = messageHandlers g /\ onOpen (f g) = onOpen g) ->
  preserves (sat s) (mgr_modify f).
Proof.
  intros Hf w Hw. unfold sat, sframe, final in *. simpl.
  destruct (Hf (mgr w)) as (-> & -> & -> & ->). exact Hw.
Qed.

Lemma task_sat s c w : preserves (sat s) c -> sat s w -> sat s (task c w).
Proof.
  intros Hc Hw. unfold task. pose proof (Hc w Hw) as H. unfold final in H.
  destruct (c w) as [[]  w']; [exact H|].
  apply (on_rt_sat s (emit (EUncaught e))); [intros r; reflexivity | exact H].
Qed.
End Frame.

(** The primitives and the field updates that leave the frame alone. *)
#[export] Hint Extern 2 (preserves (sat _) (on_rt _)) =>
  apply on_rt_sat; intros ?; unfold final, ws_send, ws_ready_state, emit, set_interval,
    set_timeout, add_timer, clear_timer, date_now, js_modify, js_gets;
  simpl; repeat case_match; reflexivity : js_inv.
#[export] Hint Extern 2 (preserves (sat _) (mgr_modify _)) =>
  apply mgr_modify_sat; intros ?; split_and!; reflexivity : js_inv.

Section FrameOps.
Context {W : Type} `{!JsonCodec W}.
Implicit Types (w : world W).
Context (s : sfields).

Lemma send_sat m : preserves (sat s) (send (W := W) m).
Proof. unfold send, mgr_gets. preserves_by. Qed.

Lemma flush_loop_sat n : preserves (sat s) (flush_loop (W := W) n).
Proof. induction n; simpl; unfold mgr_gets; preserves_by. Qed.

Lemma flushMessageQueue_sat : preserves (sat s) (flushMessageQueue (W := W)).
Proof. unfold flushMessageQueue, mgr_gets. preserves_by. apply flush_loop_sat. Qed.

Lemma startHeartbeat_sat : preserves (sat s) (startHeartbeat (W := W)).
Proof. unfold startHeartbeat, stopHeartbeat, mgr_gets. preserves_by. Qed.

Lemma heartbeat_tick_sat : preserves (sat s) (heartbeat_tick (W := W)).
Proof. unfold heartbeat_tick, mgr_gets. preserves_by. Qed.

Lemma run_actions_sat acts : send_only acts = true -> preserves (sat s) (run_actions (W := W) acts).
Proof.
  unfold run_actions. induction acts as [|[m|] acts IH]; simpl; [intros; apply preserves_ret| |done].
  intros H. apply preserves_bind; [apply send_sat | intros; exact (IH H)].
Qed.

(** [onmessage] with handlers that only send. *)
Lemma onmessage_sat data :
  (forall k h, sf_handlers s !! k = Some h -> forall m, send_only (h m) = true) ->
  preserves (sat s) (onmessage (W := W) data).
Proof.
  intros Hh. unfold onmessage, mgr_gets.
  apply preserves_option; [intros msg | apply preserves_throw].
  apply preserves_outcome; [intros ty | intros; apply preserves_throw].
  apply (preserves_gets_const _ _ (sf_handlers s)); [by intros w <-|].
  destruct (handler_key ty) as [k|]; [|preserves_by].
  destruct (sf_handlers s !! k) as [h|] eqn:Hk; [|preserves_by].
  exact (run_actions_sat _ (Hh k h Hk msg)).
Qed.

(** [onopen] with a ready callback that only sends. *)
Lemma onopen_sat :
  (forall acts, sf_onOpen s = Some acts -> send_only acts = true) -> preserves (sat s) (onopen (W := W)).
Proof.
  intros Hcb. unfold onopen, mgr_gets.
  apply preserves_bind; [preserves_by | intros _]. apply preserves_bind; [preserves_by | intros _].
  apply (preserves_gets_const _ _ (sf_onOpen s)); [by intros w <-|]. apply preserves_bind.
  - destruct (sf_onOpen s) as [acts|] eqn:E; [by apply run_actions_sat, Hcb | apply preserves_ret].
  - intros _. apply preserves_bind; [apply flushMessageQueue_sat | intros; apply startHeartbeat_sat].
Qed.
End FrameOps.

Lemma is_live_insert_ne ss n st x : x <> n -> is_live (<[n := st]> ss) x = is_live ss x.
Proof. intros Hx. unfold is_live. by rewrite lookup_insert_ne by congruence. Qed.

Lemma is_live_insert_eq ss n st : is_live (<[n := st]> ss) n = bool_decide (st <> CLOSED).
Proof. unfold is_live. rewrite lookup_insert_eq. by destruct st. Qed.

Section Discipline.
Context {W : Type} `{!JsonCodec W}.
Implicit Types (w : world W).

(** [this.ws] is [null] or no longer live. *)
Definition ws_dead w : Prop :=
  match ws (mgr w) with Some sid => is_live (sockets (rt w)) sid = false | None => True end.

(** What the discipline asks of the presentation layer before each call:
    [connect] only with no live [this.ws] and no reconnection pending;
    handlers and ready callbacks that only send. *)
Definition disciplined (e : event (W := W)) w : Prop :=
  match e with
  | EvCall CallConnect => ws_dead w /\ reconnectTimeout (mgr w) = None
  | EvCall (CallOnMessage _ h) => forall m, send_only (h m) = true
  | EvCall (CallSetOnOpen (Some acts)) => send_only acts = true
  | _ => True
  end.

Definition dstep w w' : Prop := exists e, disciplined e w /\ step_fn e w = Some w'.

Definition dreachable (u : string) (t0 : Z) w : Prop := rtc dstep (new_world u t0) w.

(** Every live socket is [this.ws]. *)
Definition single w : Prop := forall sid, is_live (sockets (rt w)) sid = true -> ws (mgr w) = Some sid.

Definition all_dead (ss : gmap nat ready_state) : Prop := forall sid, is_live ss sid = false.

Definition cbs_ok w : Prop :=
  (forall k h, messageHandlers (mgr w) !! k = Some h -> forall m, send_only (h m) = true) /\
  (forall acts, onOpen (mgr w) = Some acts -> send_only acts = true).

Record sinv w : Prop := {
  s_inv : inv w;
  s_single : single w;
  s_pending : is_Some (reconnectTimeout (mgr w)) -> all_dead (sockets (rt w));
  s_cbs : cbs_ok w
}.

Lemma sinv_frame w w' : sinv w -> inv w' -> sframe w' = sframe w -> sinv w'.
Proof.
  intros [Hw Hs Hp [Hh Ho]] Hw' E. unfold sframe in E. injection E as E1 E2 E3 E4 E5.
  split; [exact Hw' | | | split].
  - intros sid. rewrite E1, E2. apply Hs.
  - rewrite E1, E3. exact Hp.
  - rewrite E4. exact Hh.
  - rewrite E5. exact Ho.
Qed.

Lemma sinv_task c w : sinv w -> inv (task c w) -> preserves (sat (sframe w)) c -> sinv (task c w).
Proof. intros Hw Hw' Hc. apply (sinv_frame w); [done..|]. by apply task_sat. Qed.

(** No socket is live. *)
Lemma sinv_dead w : inv w -> all_dead (sockets (rt w)) -> cbs_ok w -> sinv w.
Proof. intros Hw Hd Hc. split; [done | intros sid; by rewrite Hd | intros _; done | done]. Qed.

(** A new socket replaced [this.ws] when none was live. *)
Lemma sinv_fresh w ss n :
  inv w -> sockets (rt w) = <[n := CONNECTING]> ss -> all_dead ss -> ws (mgr w) = Some n ->
  reconnectTimeout (mgr w) = None -> cbs_ok w -> sinv w.
Proof.
  intros Hw Hss Hd Hws Hrc Hc. split; [done | | by rewrite Hrc; intros [] | done].
  intros sid. rewrite Hss, Hws. destruct (decide (sid = n)) as [->|Hne]; [done|].
  by rewrite is_live_insert_ne, Hd.
Qed.

(** A live socket changes to another live state. *)
Lemma sinv_relive w sid st :
  sinv w -> is_live (sockets (rt w)) sid = true -> st <> CLOSED ->
  sinv (set_rt (set_sockets (<[sid := st]> (sockets (rt w))) (rt w)) w).
Proof.
  intros [Hw Hs Hp Hc] Hl Hst. split; [by apply inv_set_sockets | | | exact Hc].
  - intros x. cbn [rt set_rt set_sockets sockets mgr]. destruct (decide (x = sid)) as [->|Hne]; [intros _; exact (Hs sid Hl)|].
    rewrite is_live_insert_ne by done. apply Hs.
  - intros Hrc. specialize (Hp Hrc sid). congruence.
Qed.

(** The socket [this.ws] is closed: nothing is live any more. *)
Lemma close_all_dead w sid :
  sinv w -> is_live (sockets (rt w)) sid = true -> all_dead (<[sid := CLOSED]> (sockets (rt w))).
Proof.
  intros [_ Hs _ _] Hl x. destruct (decide (x = sid)) as [->|Hne]; [by rewrite is_live_insert_eq|].
  rewrite is_live_insert_ne by done. destruct (is_live (sockets (rt w)) x) eqn:E; [|done].
  pose proof (Hs x E). pose proof (Hs sid Hl). congruence.
Qed.
End Discipline.

Section Steps.
Context {W : Type} `{!JsonCodec W}.
Implicit Types (w : world W).

Lemma timer_after_sockets id (r : runtime callback W) : sockets (timer_after id r) = sockets r.
Proof. unfold timer_after. by repeat case_match. Qed.

(** [onclose] leaves the sockets, [this.ws] and the callbacks alone. *)
Lemma onclose_frame w :
  inv w ->
  sockets (rt (task onclose w)) = sockets (rt w) /\ ws (mgr (task onclose w)) = ws (mgr w) /\
  (cbs_ok (task onclose w) <-> cbs_ok w).
Proof.
  intros Hw. unfold task. rewrite (onclose_run w Hw). unfold cbs_ok.
  unfold drop_timer, arm. simpl. repeat case_match; simpl; split_and!; done.
Qed.

Lemma call_sinv c w w' :
  sinv w -> disciplined (EvCall c) w -> inv w' -> task (api c) w = w' -> sinv w'.
Proof.
  intros Hw Hd Hw' <-. destruct c as [|m|t h|cb]; simpl in Hd |- *.
  - destruct Hd as [Hdead Hrc]. unfold task. rewrite connect_run. cbn [fst snd].
    apply (sinv_fresh _ (sockets (rt w)) (next_sock (rt w))); [exact Hw' | reflexivity | | reflexivity |
      exact Hrc | apply (s_cbs w Hw)].
    intros sid. destruct (is_live (sockets (rt w)) sid) eqn:E; [|done].
    unfold ws_dead in Hdead. rewrite (s_single w Hw sid E) in Hdead. congruence.
  - apply sinv_task; [done..|]. apply send_sat.
  - destruct Hw as [Hi Hs Hp [Hh Ho]]. split; [exact Hw' | exact Hs | exact Hp | split; [|exact Ho]].
    simpl. intros k h'. rewrite lookup_insert. case_decide; [intros [= <-]; exact Hd | apply Hh].
  - destruct Hw as [Hi Hs Hp [Hh Ho]]. split; [exact Hw' | exact Hs | exact Hp | split; [exact Hh|]].
    simpl. destruct cb; [intros ? [= <-]; exact Hd | done].
Qed.

Lemma open_sinv sid w r w' :
  sinv w -> env_open sid (rt w) = Some r -> inv w' -> task onopen (set_rt r w) = w' -> sinv w'.
Proof.
  intros Hw Hr Hw' <-. unfold env_open in Hr.
  destruct (sockets (rt w) !! sid) as [[]|] eqn:Hs; try discriminate. injection Hr as <-.
  assert (Hl : is_live (sockets (rt w)) sid = true) by (unfold is_live; by rewrite Hs).
  assert (Hne : OPEN <> CLOSED) by discriminate.
  pose proof (sinv_relive w sid OPEN Hw Hl Hne) as Hw0.
  apply sinv_task; [done..|]. apply onopen_sat, (s_cbs _ Hw0).
Qed.

Lemma close_sinv sid (err : bool) w r w' :
  sinv w -> env_closed sid (rt w) = Some r -> inv w' ->
  task onclose (if err then task onerror (set_rt r w) else set_rt r w) = w' -> sinv w'.
Proof.
  intros Hw Hr Hw' <-. unfold env_closed in Hr.
  destruct (sockets (rt w) !! sid) as [[]|] eqn:Hs; try discriminate; injection Hr as <-;
  (assert (Hl : is_live (sockets (rt w)) sid = true) by (unfold is_live; by rewrite Hs));
  pose proof (close_all_dead w sid Hw Hl) as Hd;
  set (w1 := set_rt (set_sockets (<[sid := CLOSED]> (sockets (rt w))) (rt w)) w) in *;
  (assert (Hw1 : inv w1) by apply inv_set_sockets, (s_inv w Hw));
  (assert (E : (if err then task onerror w1 else w1) = w1)
    by (destruct err; [apply (onerror_closed w1 sid); [apply (s_single w Hw sid Hl) | apply lookup_insert_eq] | done]));
  rewrite E in *; destruct (onclose_frame w1 Hw1) as (Hso & _ & Hc);
  (apply sinv_dead; [exact Hw' | rewrite Hso; exact Hd | apply Hc, (s_cbs w Hw)]).
Qed.
Lemma sframe_timer_after w id : sframe (set_rt (timer_after id (rt w)) w) = sframe w.
Proof. unfold sframe. simpl. by rewrite timer_after_sockets. Qed.

Lemma timer_sinv id w cb r w' :
  sinv w -> env_due id (rt w) = Some (cb, r) -> inv w' ->
  (let w1 := task (run_callback cb) (set_rt r w) in set_rt (timer_after id (rt w1)) w1) = w' ->
  sinv w'.
Proof.
  intros Hw Hdue Hw' <-. destruct (env_due_spec w id cb r Hdue) as (tm & Hl & -> & -> & _ & _).
  cbv zeta. destruct (t_cb tm) eqn:Hcb; cbn [run_callback].
  - apply (sinv_frame w); [done..|]. rewrite sframe_timer_after.
    by apply task_sat; [apply heartbeat_tick_sat|].
  - assert (Hrc : reconnectTimeout (mgr w) = Some id) by (apply (inv_rc w (s_inv w Hw)); eauto).
    assert (Hd : all_dead (sockets (rt w))) by (apply (s_pending w Hw); rewrite Hrc; eauto).
    unfold task in *. rewrite reconnect_fire_run in *.
    apply (sinv_fresh _ (sockets (rt w)) (next_sock (rt w))); [exact Hw' | | exact Hd | reflexivity |
      reflexivity | exact (s_cbs w Hw)].
    cbn [rt set_rt]. by rewrite timer_after_sockets.
Qed.

(** Every step the discipline allows keeps [sinv]. *)
Lemma step_sinv e w w' : sinv w -> disciplined e w -> step_fn e w = Some w' -> sinv w'.
Proof.
  intros Hw Hd Hstep. pose proof (step_fn_inv e w w' Hstep (s_inv w Hw)) as Hw'.
  destruct e as [c|sid|sid|sid data|sid err|id|d]; simpl in Hstep.
  - injection Hstep as Hstep. exact (call_sinv c w w' Hw Hd Hw' Hstep).
  - destruct (env_open sid (rt w)) as [r|] eqn:Er; [|done]. injection Hstep as Hstep.
    exact (open_sinv sid w r w' Hw Er Hw' Hstep).
  - unfold env_closing in Hstep. destruct (sockets (rt w) !! sid) as [[]|] eqn:Hs; try done.
    injection Hstep as <-. apply sinv_relive; [done | unfold is_live; by rewrite Hs | done].
  - destruct (sockets (rt w) !! sid) as [[]|]; try done. injection Hstep as <-.
    apply sinv_task; [done..|]. apply onmessage_sat, (s_cbs w Hw).
  - destruct (env_closed sid (rt w)) as [r|] eqn:Er; [|done]. injection Hstep as Hstep.
    exact (close_sinv sid err w r w' Hw Er Hw' Hstep).
  - destruct (env_due id (rt w)) as [[cb r]|] eqn:Er; [|done]. injection Hstep as Hstep.
    exact (timer_sinv id w cb r w' Hw Er Hw' Hstep).
  - unfold env_wait in Hstep. destruct (_ && _); [|done]. injection Hstep as <-.
    by apply (sinv_frame w).
Qed.

Lemma new_world_sinv u t0 : sinv (new_world (W := W) u t0).
Proof. apply sinv_dead; [apply new_world_inv | intros sid; reflexivity | split; done]. Qed.

Lemma dreachable_sinv u t0 w : dreachable u t0 w -> sinv w.
Proof.
  intros H. unfold dreachable in H. remember (new_world u t0) as w0 eqn:E.
  assert (Hw0 : sinv w0) by (subst; apply new_world_sinv). clear E.
  induction H as [|w1 w2 w3 [e [Hd Hstep]] _ IH]; [exact Hw0|].
  apply IH, (step_sinv e w1 w2 Hw0 Hd Hstep).
Qed.
End Steps.

Section Runs.
Context {W : Type} `{!JsonCodec W}.
Implicit Types (w : world W).

(** Every event of a run is allowed by the discipline where it happens. *)
Fixpoint all_disciplined (evs : list (event (W := W))) w : Prop :=
  match evs with
  | [] => True
  | e :: evs' =>
      disciplined e w /\ match step_fn e w with Some w1 => all_disciplined evs' w1 | None => True end
  end.

Lemma run_dstep evs w w' : all_disciplined evs w -> run_events evs w = Some w' -> rtc dstep w w'.
Proof.
  revert w. induction evs as [|e evs IH]; intros w Hd Hrun; simpl in *.
  - injection Hrun as <-. apply rtc_refl.
  - destruct Hd as [He Hd]. destruct (step_fn e w) as [w1|] eqn:Hs; [|done].
    eapply rtc_l; [exists e; split; [exact He | exact Hs] | exact (IH w1 Hd Hrun)].
Qed.
End Runs.

Section Claims.
Context {W : Type} `{!JsonCodec W}.
Implicit Types (w : world W).

(** C21: [connect] does not check for a live socket: the previous socket
    stays live as it was (its handlers still act on the manager) and a
    second live one becomes [this.ws]. *)
Theorem connect_keeps_old_socket_live w sid :
  is_live (sockets (rt w)) sid = true -> (sid < next_sock (rt w))%nat ->
  exists w', step_fn (EvCall CallConnect) w = Some w' /\
    ws (mgr w') = Some (next_sock (rt w)) /\
    is_live (sockets (rt w')) (next_sock (rt w)) = true /\
    is_live (sockets (rt w')) sid = true /\ sockets (rt w') !! sid = sockets (rt w) !! sid.
Proof.
  intros Hl Hlt. eexists; split; [reflexivity|]. unfold task, api. rewrite connect_run. simpl.
  rewrite is_live_insert_eq, is_live_insert_ne, lookup_insert_ne by lia. auto.
Qed.

(** C32: under the discipline, at most one socket is ever live, it is
    [this.ws], and no reconnection is pending while it is live: every
    other socket the manager created is [CLOSED]. *)
Theorem single_live_socket u t0 w sid1 sid2 :
  dreachable u t0 w -> is_live (sockets (rt w)) sid1 = true -> is_live (sockets (rt w)) sid2 = true ->
  sid1 = sid2 /\ ws (mgr w) = Some sid1 /\ reconnectTimeout (mgr w) = None.
Proof.
  intros Hr H1 H2. pose proof (dreachable_sinv u t0 w Hr) as Hw.
  pose proof (s_single w Hw sid1 H1). pose proof (s_single w Hw sid2 H2).
  split_and!; [congruence | done |].
  destruct (reconnectTimeout (mgr w)) eqn:E; [|done].
  by rewrite (s_pending w Hw ltac:(rewrite E; eauto) sid1) in H1.
Qed.

(** C33: the discipline needs its second half: after [this.ws] closed and
    while the reconnection timeout is pending, a [connect()] (allowed by
    [this.ws] being [CLOSED]) followed by the timeout leaves two live
    sockets, the second one being [this.ws]: the timeout calls
    [connect()] again instead of seeing the socket already connecting. *)
Theorem connect_during_backoff_two_live u t0 evs w id tm :
  run_events evs (new_world u t0) = Some w -> reconnectTimeout (mgr w) = Some id ->
  timers (rt w) !! id = Some tm -> no_timer_before (t_due tm) (rt w) = true ->
  exists w', run_events [EvCall CallConnect; EvTimer id] w = Some w' /\
    is_live (sockets (rt w')) (next_sock (rt w)) = true /\
    is_live (sockets (rt w')) (S (next_sock (rt w))) = true /\
    ws (mgr w') = Some (S (next_sock (rt w))).
Proof.
  intros Hrun Hrc Hl Hn. pose proof (reachable_inv _ (run_events_reachable _ _ _ _ Hrun)) as Hw.
  destruct (proj2 (inv_rc w Hw id) Hrc) as (tm' & Hl' & Hcb). rewrite Hl in Hl'. injection Hl' as <-.
  destruct (proj2 (inv_timers w Hw) id tm Hl) as (_ & Hle & _).
  cbn [run_events step_fn api]. unfold task at 1. rewrite connect_run. cbv iota.
  unfold env_due. cbn [rt set_rt set_mgr final ws_new snd timers].
  rewrite Hl, bool_decide_true by exact Hle.
  unfold no_timer_before in *. cbn [timers] in *. rewrite Hn. cbv iota. simpl andb. cbv iota.
  rewrite Hcb. cbn [run_callback]. unfold task. rewrite connect_run, reconnect_fire_run. cbv iota.
  eexists; split; [reflexivity|]. cbn [rt set_rt set_mgr mgr set_ws ws]. rewrite timer_after_sockets.
  cbn [rt set_rt final ws_new snd sockets set_now next_sock].
  rewrite is_live_insert_ne, !is_live_insert_eq by lia. auto.
Qed.
End Claims.

(** ** Witnesses *)

(** The socket closes after 5 s, the reconnection fires and socket 1
    opens. *)
Definition reconnected_events : list (event (W := frame)) :=
  open_events ++ [EvWait 5000; EvClose 0 false; EvTimer 2; EvOpen 1].

Definition reconnected_world : world frame :=
  world_or_init (run_events reconnected_events (new_world "wss://signal" 0)).

Lemma single_live_socket_witness :
  (dreachable "wss://signal" 0 reconnected_world /\
   is_live (sockets (rt reconnected_world)) 1 = true) /\
  (1 = 1 /\ ws (mgr reconnected_world) = Some 1 /\ reconnectTimeout (mgr reconnected_world) = None).
Proof.
  assert (Hr : dreachable "wss://signal" 0 reconnected_world).
  { apply (run_dstep reconnected_events); [vm_compute; repeat split | vm_compute; reflexivity]. }
  split; [split; [exact Hr | vm_compute; reflexivity]|].
  apply (single_live_socket "wss://signal" 0 reconnected_world 1 1 Hr); vm_compute; reflexivity.
Defined.

Lemma connect_during_backoff_two_live_witness :
  (run_events closed_events (new_world "wss://signal" 0) = Some closed_world /\
   reconnectTimeout (mgr closed_world) = Some 2 /\
   timers (rt closed_world) !! 2 = Some (mk_timer 1000 Once CbReconnect) /\
   no_timer_before 1000 (rt closed_world) = true) /\
  exists w', run_events [EvCall CallConnect; EvTimer 2] closed_world = Some w' /\
    is_live (sockets (rt w')) (next_sock (rt closed_world)) = true /\
    is_live (sockets (rt w')) (S (next_sock (rt closed_world))) = true /\
    ws (mgr w') = Some (S (next_sock (rt closed_world))).
Proof.
  split; [split_and!; vm_compute; reflexivity|].
  apply (connect_during_backoff_two_live "wss://signal" 0 closed_events closed_world 2
           (mk_timer 1000 Once CbReconnect)); vm_compute; reflexivity.
Defined.

Lemma connect_keeps_old_socket_live_witness :
  (is_live (sockets (rt open_world)) 0 = true /\ (0 < next_sock (rt open_world))%nat) /\
  exists w', step_fn (EvCall CallConnect) open_world = Some w' /\
    ws (mgr w') = Some (next_sock (rt open_world)) /\
    is_live (sockets (rt w')) (next_sock (rt open_world)) = true /\
    is_live (sockets (rt w')) 0 = true /\ sockets (rt w') !! 0 = sockets (rt open_world) !! 0.
Proof.
  split; [split; vm_compute; [reflexivity | lia]|].
  apply connect_keeps_old_socket_live; vm_compute; [reflexivity | lia].
Defined.
