(* ===== verification/UIManager.v ===== *)
(** * The presentation layer ([src/src/UIManager.js])

    The module keeps three module-level variables ([localStream],
    [audioEnabled], [participants]) and three DOM elements found once at
    load time ([videoGrid], [muteBtn], [participantsList]), any of which
    may be missing.  [ui] holds all of them: a missing element is [None];
    the video grid is the list of its [<video>] children; the button is
    its [textContent]; the participant list is the texts of its [<li>]
    children; a media stream is the list of its audio tracks, each with
    its [enabled] flag; the [Set] of participants is a list in insertion
    order, which is the order [Set.prototype.forEach] visits.

    Every function of the exported object [UIManager] is a computation of
    the completion monad over [ui] (only [createVideoElement] can throw,
    when the grid is missing).  The video elements only live in the grid,
    so [document.getElementById] is the first grid child with that id. *)

From stdpp Require Import base list strings sets gmap.
From Stdlib Require Import String.
From S2P Require Import Prelude.

Local Open Scope js_scope.

(** A [<video>] element as [createVideoElement] builds it. *)
Record video := mk_video {
  v_id : string;
  v_autoplay : bool;
  v_playsInline : bool;
  v_background : string
}.

(** An audio [MediaStreamTrack]. *)
Record track := mk_track { t_enabled : bool }.

Record ui := mk_ui {
  videoGrid : option (list video);
  muteBtn : option string;
  participantsList : option (list string);
  localStream : option (list track);
  audioEnabled : bool;
  participants : list string
}.

(** The module as loaded: [localStream = null], [audioEnabled = true],
    an empty [Set], and the three elements the page has or lacks. *)
Definition ui_init (grid : bool) (btn : option string) (list_present : bool) : ui :=
  mk_ui (if grid then Some [] else None) btn (if list_present then Some [] else None)
        None true [].

Definition set_grid (g : option (list video)) (s : ui) : ui :=
  mk_ui g (muteBtn s) (participantsList s) (localStream s) (audioEnabled s) (participants s).
Definition set_btn (b : option string) (s : ui) : ui :=
  mk_ui (videoGrid s) b (participantsList s) (localStream s) (audioEnabled s) (participants s).
Definition set_list (l : option (list string)) (s : ui) : ui :=
  mk_ui (videoGrid s) (muteBtn s) l (localStream s) (audioEnabled s) (participants s).
Definition set_stream (st : option (list track)) (s : ui) : ui :=
  mk_ui (videoGrid s) (muteBtn s) (participantsList s) st (audioEnabled s) (participants s).
Definition set_audio (b : bool) (s : ui) : ui :=
  mk_ui (videoGrid s) (muteBtn s) (participantsList s) (localStream s) b (participants s).
Definition set_participants (ps : list string) (s : ui) : ui :=
  mk_ui (videoGrid s) (muteBtn s) (participantsList s) (localStream s) (audioEnabled s) ps.

(** [`video-${userId}`] *)
Definition video_id (userId : string) : string := "video-" ++ userId.

(** ** Video *)

(** [createVideoElement], lines 15-23: a new element is appended even
    when one with the same id exists. *)
Definition createVideoElement (userId : string) : js ui video := fun s =>
  let v := mk_video (video_id userId) true true "black" in
  match videoGrid s with
  | Some vs => (Normal v, set_grid (Some (vs ++ [v])) s)
  | None => (Thrown TypeError, s)
  end.

(** The grid without its first element whose id is [i]. *)
Fixpoint remove_first (i : string) (vs : list video) : list video :=
  match vs with
  | [] => []
  | v :: vs' => if String.eqb (v_id v) i then vs' else v :: remove_first i vs'
  end.

(** [removeVideoElement], lines 25-28: [getElementById] finds the first
    element with the id; [remove()] takes it out of the grid. *)
Definition removeVideoElement (userId : string) : js ui unit :=
  js_modify (fun s =>
    match videoGrid s with
    | Some vs => set_grid (Some (remove_first (video_id userId) vs)) s
    | None => s
    end).

(** ** Mute *)

(** [setLocalStream], lines 31-33: any value, [null] included. *)
Definition setLocalStream (stream : option (list track)) : js ui unit :=
  js_modify (set_stream stream).

Definition mic_label (enabled : bool) : string :=
  if enabled then "🔊 Mic On" else "🔇 Mic Off".

(** [toggleMute], lines 35-46: nothing without a stream or without an
    audio track; otherwise flip [audioEnabled], copy it to the first
    track and to the button's label. *)
Definition toggleMute : js ui unit :=
  js_modify (fun s =>
    match localStream s with
    | None => s
    | Some [] => s
    | Some (_ :: rest) =>
        let ae := negb (audioEnabled s) in
        let s1 := set_stream (Some (mk_track ae :: rest)) (set_audio ae s) in
        match muteBtn s with
        | Some _ => set_btn (Some (mic_label ae)) s1
        | None => s1
        end
    end).

(** ** Participants *)

(** [updateParticipantsUI], lines 59-67: one [<li>] per participant, in
    insertion order, with the first 8 characters of its id. *)
Definition updateParticipantsUI : js ui unit :=
  js_modify (fun s =>
    match participantsList s with
    | Some _ => set_list (Some (map (substring 0 8) (participants s))) s
    | None => s
    end).

(** [Set.prototype.add]: a new element goes last, an existing one stays. *)
Definition set_add (x : string) (ps : list string) : list string :=
  if bool_decide (x ∈ ps) then ps else ps ++ [x].

(** [Set.prototype.delete] *)
Definition set_delete (x : string) (ps : list string) : list string :=
  filter (fun y => y <> x) ps.

(** [addParticipant], lines 49-52. *)
Definition addParticipant (userId : string) : js ui unit :=
  js_modify (fun s => set_participants (set_add userId (participants s)) s) ;;
  updateParticipantsUI.

(** [removeParticipant], lines 54-57. *)
Definition removeParticipant (userId : string) : js ui unit :=
  js_modify (fun s => set_participants (set_delete userId (participants s)) s) ;;
  updateParticipantsUI.

(** What the page may do with the module: the exported functions, and a
    click on the mute button, which lines 71-73 wire to [toggleMute]
    when the button exists. *)
Inductive ui_event :=
| UCreateVideo (userId : string)
| URemoveVideo (userId : string)
| USetStream (stream : option (list track))
| UToggleMute
| UClickMute
| UAddParticipant (userId : string)
| URemoveParticipant (userId : string).

Definition ui_step (e : ui_event) (s : ui) : ui :=
  match e with
  | UCreateVideo u => final (createVideoElement u) s
  | URemoveVideo u => final (removeVideoElement u) s
  | USetStream st => final (setLocalStream st) s
  | UToggleMute => final toggleMute s
  | UClickMute => match muteBtn s with Some _ => final toggleMute s | None => s end
  | UAddParticipant u => final (addParticipant u) s
  | URemoveParticipant u => final (removeParticipant u) s
  end.

Definition ui_run (es : list ui_event) (s : ui) : ui := fold_left (fun s e => ui_step e s) es s.

(** The specification's view of the participants: a finite set of ids,
    changed by [Set.add] and [Set.delete] only. *)
Definition pset_step (e : ui_event) (X : gset string) : gset string :=
  match e with
  | UAddParticipant u => {[u]} ∪ X
  | URemoveParticipant u => X ∖ {[u]}
  | _ => X
  end.

Definition pset_run (es : list ui_event) (X : gset string) : gset string :=
  fold_left (fun X e => pset_step e X) es X.

(** ** Helper lemmas *)

Definition count_id (i : string) (vs : list video) : nat := List.length (filter (fun v => v_id v = i) vs).

Lemma remove_first_count i vs : count_id i (remove_first i vs) = pred (count_id i vs).
Proof.
  unfold count_id. induction vs as [|v vs IH]; [done|]. simpl.
  destruct (String.eqb_spec (v_id v) i) as [E|E].
  - rewrite filter_cons_True by done. reflexivity.
  - rewrite !filter_cons_False by done. exact IH.
Qed.

Lemma count_id_app_self i vs u :
  count_id i (vs ++ [mk_video i true true u]) = S (count_id i vs).
Proof. unfold count_id. rewrite filter_app, length_app. simpl. rewrite filter_cons_True by done. simpl. lia. Qed.

Lemma set_delete_notin x ps : x ∉ ps -> set_delete x ps = ps.
Proof.
  unfold set_delete. induction ps as [|y ps IH]; intros H; [done|].
  rewrite filter_cons_True by set_solver. f_equal. apply IH. set_solver.
Qed.

Lemma set_add_set x ps : list_to_set (C := gset string) (set_add x ps) = {[x]} ∪ list_to_set ps.
Proof.
  unfold set_add. case_bool_decide; rewrite ?list_to_set_app_L; simpl; [|set_solver].
  apply set_eq. intros y. rewrite elem_of_union, elem_of_singleton. split; [set_solver|].
  intros [->|?]; [by apply elem_of_list_to_set | done].
Qed.

Lemma set_delete_set x ps : list_to_set (C := gset string) (set_delete x ps) = list_to_set ps ∖ {[x]}.
Proof.
  unfold set_delete. induction ps as [|y ps IH]; [set_solver|].
  destruct (decide (y = x)) as [->|Hy];
    [rewrite filter_cons_False by naive_solver | rewrite filter_cons_True by done];
    simpl; rewrite IH; set_solver.
Qed.

(** The participant list shows the participants, when the page has it. *)
Definition rendered (s : ui) : Prop :=
  match participantsList s with
  | Some l => l = map (substring 0 8) (participants s)
  | None => True
  end.

Lemma update_rendered s : rendered (final updateParticipantsUI s).
Proof. unfold rendered, final, updateParticipantsUI, js_modify. simpl. destruct (participantsList s) eqn:E; simpl; [done|]. by rewrite E. Qed.

Lemma toggle_keeps_participants s :
  participants (final toggleMute s) = participants s /\
  participantsList (final toggleMute s) = participantsList s.
Proof.
  unfold final, toggleMute, js_modify. simpl.
  by repeat case_match.
Qed.

Lemma ui_step_participants e s :
  (exists u, e = UAddParticipant u \/ e = URemoveParticipant u) \/
  (participants (ui_step e s) = participants s /\ participantsList (ui_step e s) = participantsList s).
Proof.
  destruct e as [u|u|st| | |u|u]; [right..| left; eauto | left; eauto];
    unfold ui_step, final, createVideoElement, removeVideoElement, setLocalStream, toggleMute, js_modify;
    simpl; by repeat case_match.
Qed.

Lemma addParticipant_participants u s :
  participants (final (addParticipant u) s) = set_add u (participants s).
Proof. unfold final, addParticipant, updateParticipantsUI, js_modify. simpl. by case_match. Qed.

Lemma removeParticipant_participants u s :
  participants (final (removeParticipant u) s) = set_delete u (participants s).
Proof. unfold final, removeParticipant, updateParticipantsUI, js_modify. simpl. by case_match. Qed.

Lemma ui_step_pset e s :
  list_to_set (C := gset string) (participants (ui_step e s)) =
  pset_step e (list_to_set (participants s)).
Proof.
  destruct e as [u|u|st| | |u|u];
    [(match goal with |- context [ui_step ?e s] =>
        destruct (ui_step_participants e s) as [[? [?|?]]|[E _]]; [discriminate..|]
      end; by rewrite E).. |
     cbn [ui_step pset_step]; rewrite addParticipant_participants; apply set_add_set |
     cbn [ui_step pset_step]; rewrite removeParticipant_participants; apply set_delete_set].
Qed.

(** ** Properties *)

Section UIClaims.

(** C13: the insertion-ordered list that models the participants' [Set]
    is equivalent to the abstract finite set of the specification: along
    any sequence of calls and clicks, its elements are the set obtained by
    adding and deleting the same ids, so [Set.add] and [Set.delete] have
    their set meaning on this representation. *)
Theorem participants_set es s :
  list_to_set (C := gset string) (participants (ui_run es s)) =
  pset_run es (list_to_set (participants s)).
Proof.
  revert s. induction es as [|e es IH]; intros s; [reflexivity|].
  cbn [ui_run pset_run fold_left]. fold (ui_run es (ui_step e s)). rewrite IH, ui_step_pset. reflexivity.
Qed.

(** C24: the [<li>] items always show the participants in insertion
    order, each as the first 8 characters of its id. *)
Theorem participants_rendered es s : rendered s -> rendered (ui_run es s).
Proof.
  revert s. induction es as [|e es IH]; intros s H; [exact H|]. simpl. apply IH.
  destruct (ui_step_participants e s) as [[u [-> | ->]] | [E1 E2]].
  - apply update_rendered.
  - apply update_rendered.
  - unfold rendered. rewrite E2, E1. exact H.
Qed.

(** C25: adding a participant that is not present and removing it again
    gives back the participant set. *)
Theorem add_remove_participant s u :
  u ∉ participants s ->
  participants (final (removeParticipant u) (final (addParticipant u) s)) = participants s.
Proof.
  intros H. rewrite removeParticipant_participants, addParticipant_participants.
  unfold set_add. rewrite bool_decide_false by done.
  transitivity (set_delete u (participants s)); [|by apply set_delete_notin].
  unfold set_delete. rewrite filter_app, filter_cons_False by (intros Hn; by apply Hn).
  by rewrite filter_nil, app_nil_r.
Qed.

(** C26: after [toggleMute] on a stream with an audio track, the first
    track's [enabled] flag, [audioEnabled] and the button's label agree,
    and a second [toggleMute] gives the track and the flag back. *)
Theorem toggleMute_sync s t rest :
  localStream s = Some (t :: rest) ->
  let s1 := final toggleMute s in
  localStream s1 = Some (mk_track (audioEnabled s1) :: rest) /\
  audioEnabled s1 = negb (audioEnabled s) /\
  (muteBtn s = None \/ muteBtn s1 = Some (mic_label (audioEnabled s1))) /\
  localStream (final toggleMute s1) = Some (mk_track (audioEnabled s) :: rest) /\
  audioEnabled (final toggleMute s1) = audioEnabled s.
Proof.
  intros H. unfold final, toggleMute, js_modify. simpl. rewrite H.
  destruct (muteBtn s) eqn:Eb; simpl; rewrite ?Eb, ?negb_involutive; simpl; split_and!; auto.
Qed.


(** C27: [setLocalStream] does not reset [audioEnabled]: after muting,
    installing a new stream whose track is enabled and pressing the
    button once leaves that track enabled (the microphone stays on) while
    the label switches to "Mic On". *)
Theorem stale_audio_after_new_stream s rest :
  audioEnabled s = false ->
  let s1 := final toggleMute (final (setLocalStream (Some (mk_track true :: rest))) s) in
  localStream s1 = Some (mk_track true :: rest) /\ audioEnabled s1 = true /\
  (muteBtn s = None \/ muteBtn s1 = Some (mic_label true)).
Proof.
  intros H. unfold final, toggleMute, setLocalStream, js_modify. simpl. rewrite H.
  destruct (muteBtn s); simpl; split_and!; auto.
Qed.

(** C28: [createVideoElement] appends even when the user already has an
    element, and [removeVideoElement] removes only the first one: two
    creations and one removal leave one more element with that id than
    before. *)
Theorem duplicate_video_survives_remove s vs u :
  videoGrid s = Some vs ->
  exists vs', videoGrid (final (removeVideoElement u)
                 (final (createVideoElement u) (final (createVideoElement u) s))) = Some vs' /\
              count_id (video_id u) vs' = S (count_id (video_id u) vs).
Proof.
  intros H. unfold final, createVideoElement, removeVideoElement, js_modify. rewrite H. simpl.
  eexists; split; [reflexivity|]. rewrite remove_first_count, !count_id_app_self. done.
Qed.

(** C29: without a [videoGrid] element, [createVideoElement] throws a
    [TypeError] at [videoGrid.appendChild] and changes nothing. *)
Theorem createVideo_without_grid s u :
  videoGrid s = None -> createVideoElement u s = (Thrown TypeError, s).
Proof. intros H. unfold createVideoElement. by rewrite H. Qed.
End UIClaims.

(** ** Witnesses *)

Definition page : ui := ui_init true (Some "Mic") true.

Lemma participants_rendered_witness :
  rendered page /\
  rendered (ui_run [UAddParticipant "a1b2c3d4e5"; UAddParticipant "ffff0000";
                    URemoveParticipant "a1b2c3d4e5"] page).
Proof. split; [reflexivity | apply participants_rendered; reflexivity]. Defined.

Lemma add_remove_participant_witness :
  ("u1" ∉ participants page) /\
  participants (final (removeParticipant "u1") (final (addParticipant "u1") page)) = participants page.
Proof.
  split; [apply (bool_decide_unpack _); vm_compute; reflexivity|].
  apply add_remove_participant. apply (bool_decide_unpack _); vm_compute; reflexivity.
Defined.

Definition page_with_stream : ui := ui_step (USetStream (Some [mk_track true])) page.


Lemma toggleMute_sync_witness :
  localStream page_with_stream = Some (mk_track true :: []) /\
  (let s1 := final toggleMute page_with_stream in
   localStream s1 = Some (mk_track (audioEnabled s1) :: []) /\
   audioEnabled s1 = negb (audioEnabled page_with_stream) /\
   (muteBtn page_with_stream = None \/ muteBtn s1 = Some (mic_label (audioEnabled s1))) /\
   localStream (final toggleMute s1) = Some (mk_track (audioEnabled page_with_stream) :: []) /\
   audioEnabled (final toggleMute s1) = audioEnabled page_with_stream).
Proof. split; [reflexivity | apply (toggleMute_sync page_with_stream (mk_track true) []); reflexivity]. Defined.

Definition muted_page : ui := ui_step UClickMute page_with_stream.

Lemma stale_audio_after_new_stream_witness :
  audioEnabled muted_page = false /\
  (let s1 := final toggleMute (final (setLocalStream (Some (mk_track true :: []))) muted_page) in
   localStream s1 = Some (mk_track true :: []) /\ audioEnabled s1 = true /\
   (muteBtn muted_page = None \/ muteBtn s1 = Some (mic_label true))).
Proof. split; [reflexivity | apply stale_audio_after_new_stream; reflexivity]. Defined.

Lemma duplicate_video_survives_remove_witness :
  videoGrid page = Some [] /\
  exists vs', videoGrid (final (removeVideoElement "u1")
                 (final (createVideoElement "u1") (final (createVideoElement "u1") page))) = Some vs' /\
              count_id (video_id "u1") vs' = S (count_id (video_id "u1") []).
Proof. split; [reflexivity | apply duplicate_video_survives_remove; reflexivity]. Defined.

Lemma createVideo_without_grid_witness :
  videoGrid (ui_init false None false) = None /\
  createVideoElement "u1" (ui_init false None false) = (Thrown TypeError, ui_init false None false).
Proof. split; [reflexivity | apply createVideo_without_grid; reflexivity]. Defined.
